(** * Blum: regridding of Copernicus ocean fields (src/blum.py)

    A shallow embedding of [handle_copernicus_file] and of the processing
    loop that drives it, together with the properties of the pipeline.

    Conventions of the embedding.
    - Python floats are rationals ([Q]) and arithmetic is exact; [NaN] is
      the [None] of an [option Q].  Comparisons of floats are comparisons
      of the rationals they denote, so slicing, masking and sorting are
      modelled exactly; sums, products and quotients are modelled without
      rounding error.  Equality of numbers is [Qeq] ([==]).
      Where the rounding of doubles can be seen, the model is exact and
      the program is not: the length [np.arange] computes for an extent
      within an ulp of a whole number of steps, the value 360.0 that [%]
      gives for a negative longitude of tiny magnitude, a tie that the
      product [x * 1000] creates in [round(3)], and the point a k-d tree
      returns among equidistant ones.  The statements about the values of
      the grid and of the remap are therefore given with slack (the margin
      of the grid), and those about the nearest pass hold for any point at
      the least distance.
    - The libraries the script calls (numpy, xarray, scipy, pandas) are
      modelled by the functions of the modules [Np], [Xr], [Scipy] and [Pd],
      each following the documented behaviour of the call the script makes.
    - A variable of a dataset is a field over (lat, lon), in this order of
      dimensions, as in the data model of the specification; a variable
      with further dimensions (time, depth), which the script accepts as
      well, is outside the model.
    - What the script cannot compute itself is a variable of the section
      [Blum]: the two decoding backends, the Delaunay triangulation that
      Qhull returns, and the xlsx serialiser.
    - Streamlit calls and the life of dataset handles are events appended
      to a log; exceptions are the left summand of the result. *)

From Stdlib Require Import QArith Qround Lqa ZArith Lia.
From Stdlib Require Import List String Bool Permutation Sorted SetoidList.
From Stdlib Require Import SetoidPermutation.
Import ListNotations.

Local Open Scope Q_scope.

(** ** Exceptions

    Every exception the script can meet is an [Exception]; the constructors
    record which call raised it.  [OSError], [KeyError] and [ValueError]
    carry what the message of the Python exception names. *)

Inductive engine := Netcdf4 | H5netcdf.

Inductive exn :=
| Unavailable                  (* Exception("netCDF4 not available, ...") *)
| OSError (e : engine) (msg : string)   (* a backend cannot decode the bytes *)
| KeyError (key : string)      (* ds[var], or a label of a slice *)
| IndexError                   (* values[0] of an empty axis *)
| ValueError (msg : string)    (* scipy: no points given *)
| QhullError.                  (* Qhull: the input has no initial simplex *)

Definition result (A : Type) : Type := (exn + A)%type.

Definition rbind {A B} (r : result A) (k : A -> result B) : result B :=
  match r with inl e => inl e | inr a => k a end.

Declare Scope result_scope.
Delimit Scope result_scope with result.
Notation "'let*' x ':=' c 'in' k" := (rbind c (fun x => k))
  (at level 61, x pattern, c at next level, right associativity)
  : result_scope.

Definition Qlt_bool (x y : Q) : bool := negb (Qle_bool y x).

(** A dict with string keys, as the list of its items; [lookup] is [d[key]]
    and [key in d]. *)
Fixpoint lookup {A} (key : string) (d : list (string * A)) : option A :=
  match d with
  | [] => None
  | (k, v) :: d' => if String.eqb k key then Some v else lookup key d'
  end.

(** ** numpy *)

Module Np.

(** [x % m] on floats: the result takes the sign of the divisor.  Exact:
    the result is below [m], where the float sum [fmod(x, m) + m] of a
    negative remainder can round to [m] itself. *)
Definition mod_ (x m : Q) : Q := x - m * inject_Z (Qfloor (x / m)).

(** [np.arange(start, stop, step)]: [ceil((stop - start) / step)] values
    [start + i * step].  Exact: numpy evaluates the quotient and the values
    in doubles. *)
Definition arange (start stop step : Q) : list Q :=
  let n := Z.to_nat (Qceiling ((stop - start) / step)) in
  map (fun i => start + inject_Z (Z.of_nat i) * step) (seq 0 n).

(** [np.rint]: nearest integer, halves to the even neighbour. *)
Definition rint (x : Q) : Z :=
  let f := Qfloor x in
  match Qcompare (x - inject_Z f) (1 # 2) with
  | Lt => f
  | Gt => (f + 1)%Z
  | Eq => if Z.even f then f else (f + 1)%Z
  end.

(** [a.round(decimals)]: scale by [10^decimals], [rint], scale back.
    Exact: numpy rounds the scaled product to a double before [rint]. *)
Definition round (decimals : nat) (x : Q) : Q :=
  let s := inject_Z (10 ^ Z.of_nat decimals) in
  inject_Z (rint (x * s)) / s.

(** [np.meshgrid(a, b, indexing='ij')]: two [len a] x [len b] matrices. *)
Definition meshgrid_ij (a b : list Q) : list (list Q) * list (list Q) :=
  (map (fun x => map (fun _ => x) b) a, map (fun _ => b) a).

(** [m.ravel()] of a row-major matrix. *)
Definition ravel (m : list (list Q)) : list Q := concat m.

(** [np.c_[u, v]]: the two vectors as the columns of one array. *)
Definition c_ (u v : list Q) : list (Q * Q) := combine u v.

End Np.

(** ** The grid of the script (lines 145-149) *)

Definition grid_spacing : Q := 125 # 1000.
Definition grid_margin : Q := 1 # 10000.

Definition grid_axis (lo hi : Q) : list Q :=
  Np.arange lo (hi + grid_margin) grid_spacing.

Definition grid_lat_lon (lat_min lat_max lon_min lon_max : Q)
  : list Q * list Q :=
  let grid_lons := grid_axis lon_min lon_max in
  let grid_lats := grid_axis lat_min lat_max in
  let '(grid_lat, grid_lon) := Np.meshgrid_ij grid_lats grid_lons in
  (Np.ravel grid_lat, Np.ravel grid_lon).

Definition grid_points (lat_min lat_max lon_min lon_max : Q) : list (Q * Q) :=
  let '(glat, glon) := grid_lat_lon lat_min lat_max lon_min lon_max in
  Np.c_ glat glon.

(** ** xarray and the label-based slices of pandas *)

Module Xr.

(** A two-dimensional variable over (lat, lon): [values] is row-major,
    one row per latitude; a missing value is [None]. *)
Record DataArray := {
  da_lat : list Q;
  da_lon : list Q;
  da_values : list (list (option Q))
}.

Record Dataset := {
  lat : list Q;
  lon : list Q;
  data_vars : list (string * list (list (option Q)))
}.

(** [ds[var]] *)
Definition getitem (ds : Dataset) (var : string) : result DataArray :=
  match lookup var (data_vars ds) with
  | None => inl (KeyError var)
  | Some m => inr {| da_lat := lat ds; da_lon := lon ds; da_values := m |}
  end.

Fixpoint is_monotonic_increasing (a : list Q) : bool :=
  match a with
  | x :: ((y :: _) as a') => Qle_bool x y && is_monotonic_increasing a'
  | _ => true
  end.

Fixpoint is_monotonic_decreasing (a : list Q) : bool :=
  match a with
  | x :: ((y :: _) as a') => Qle_bool y x && is_monotonic_decreasing a'
  | _ => true
  end.

(** [a.searchsorted(v, side)] on an increasing array: the insertion
    point, left or right of the entries equal to [v]. *)
Fixpoint searchsorted_left (a : list Q) (v : Q) : nat :=
  match a with
  | [] => O
  | x :: a' => if Qlt_bool x v then S (searchsorted_left a' v) else O
  end.

Fixpoint searchsorted_right (a : list Q) (v : Q) : nat :=
  match a with
  | [] => O
  | x :: a' => if Qle_bool x v then S (searchsorted_right a' v) else O
  end.

Inductive side := Left | Right.

(** The positions of a label in an index, from position [i] on. *)
Fixpoint positions (index : list Q) (label : Q) (i : nat) : list nat :=
  match index with
  | [] => []
  | x :: index' =>
      if Qeq_bool x label then i :: positions index' label (S i)
      else positions index' label (S i)
  end.

(** [Index.get_slice_bound(label, side)].  On a monotonic index the bound
    is the insertion point of the label ([_searchsorted_monotonic], which
    searches a decreasing index reversed, with the sides exchanged; the
    position [get_loc] finds for a label of the index is the same).  On an
    index that is not monotonic only a label that occurs once has a
    bound. *)
Definition get_slice_bound (index : list Q) (label : Q) (s : side)
  : result nat :=
  if is_monotonic_increasing index then
    inr (match s with
         | Left => searchsorted_left index label
         | Right => searchsorted_right index label
         end)
  else if is_monotonic_decreasing index then
    inr (length index - match s with
                        | Left => searchsorted_right (rev index) label
                        | Right => searchsorted_left (rev index) label
                        end)%nat
  else match positions index label O with
       | [i] => inr (match s with Left => i | Right => S i end)
       | _ => inl (KeyError "slice bound")
       end.

(** [Index.slice_locs(start, stop)] *)
Definition slice_locs (index : list Q) (start stop : Q) : result (nat * nat) :=
  (let* i := get_slice_bound index start Left in
   let* j := get_slice_bound index stop Right in
   inr (i, j))%result.

(** [l[i:j]] *)
Definition islice {A} (i j : nat) (l : list A) : list A :=
  firstn (j - i) (skipn i l).

(** [da.sel(lat=slice(a, b), lon=slice(c, d))] *)
Definition sel (da : DataArray) (a b c d : Q) : result DataArray :=
  (let* (i0, i1) := slice_locs (da_lat da) a b in
   let* (j0, j1) := slice_locs (da_lon da) c d in
   inr {| da_lat := islice i0 i1 (da_lat da);
          da_lon := islice j0 j1 (da_lon da);
          da_values := map (islice j0 j1) (islice i0 i1 (da_values da)) |})%result.

End Xr.

(** ** Rows of the data frames *)

(** A row of [df]: a source sample after [dropna]. *)
Record ScatterPoint := { sp_lat : Q; sp_lon : Q; sp_value : Q }.

(** A row of [grid_df]; [None] is a [NaN] in the value column. *)
Record GridRow := { g_lat : Q; g_lon : Q; g_value : option Q }.

Module Pd.

(** [da.to_dataframe(name="value").reset_index()]: one row per cell,
    latitude-major, missing values still present. *)
Definition to_dataframe (da : Xr.DataArray) : list (Q * Q * option Q) :=
  flat_map (fun '(la, row) => map (fun '(lo, v) => (la, lo, v))
                                  (combine (Xr.da_lon da) row))
           (combine (Xr.da_lat da) (Xr.da_values da)).

(** [df.dropna(subset=["value"])] *)
Fixpoint dropna (df : list (Q * Q * option Q)) : list ScatterPoint :=
  match df with
  | [] => []
  | (la, lo, Some v) :: df' =>
      {| sp_lat := la; sp_lon := lo; sp_value := v |} :: dropna df'
  | (_, _, None) :: df' => dropna df'
  end.

(** [s.max()]: [NaN] on an empty series. *)
Fixpoint max (s : list Q) : option Q :=
  match s with
  | [] => None
  | x :: s' => match max s' with
               | None => Some x
               | Some m => Some (if Qle_bool m x then x else m)
               end
  end.

(** [m > c] for a float [m] that may be [NaN]. *)
Definition gt (m : option Q) (c : Q) : bool :=
  match m with None => false | Some x => Qlt_bool c x end.

(** The order of [sort_values(['lat','lon'], ascending=[False, True])]:
    [before r1 r2] when [r1] may stand before [r2]. *)
Definition before (r1 r2 : GridRow) : bool :=
  match Qcompare (g_lat r1) (g_lat r2) with
  | Gt => true
  | Lt => false
  | Eq => Qle_bool (g_lon r1) (g_lon r2)
  end.

Fixpoint insert (r : GridRow) (l : list GridRow) : list GridRow :=
  match l with
  | [] => [r]
  | x :: l' => if before r x then r :: l else x :: insert r l'
  end.

(** The sort is the stable one of pandas for several keys (a lexsort):
    rows with equal keys keep their order. *)
Fixpoint sort_values (df : list GridRow) : list GridRow :=
  match df with
  | [] => []
  | r :: df' => insert r (sort_values df')
  end.

End Pd.

(** ** scipy.interpolate.griddata *)

Module Scipy.

Definition point : Type := (Q * Q)%type.

(** A simplex of the triangulation: three indices into the points. *)
Definition simplex : Type := (nat * nat * nat)%type.

(** Twice the signed area of the triangle [a b c]. *)
Definition orient (a b c : point) : Q :=
  (fst b - fst a) * (snd c - snd a) - (snd b - snd a) * (fst c - fst a).

(** Qhull finds no initial simplex: no three points span the plane. *)
Definition degenerate (pts : list point) : bool :=
  negb (existsb (fun a => existsb (fun b => existsb (fun c =>
          negb (Qeq_bool (orient a b c) 0)) pts) pts) pts).

(** Barycentric coordinates of [q] in the triangle [a b c]. *)
Definition barycentric (a b c q : point) : option (Q * Q * Q) :=
  let d := orient a b c in
  if Qeq_bool d 0 then None
  else let wb := orient a q c / d in
       let wc := orient a b q / d in
       Some (1 - wb - wc, wb, wc).

Definition eval_simplex (pts : list point) (vals : list Q) (q : point)
           (s : simplex) : option Q :=
  let '(i, j, k) := s in
  match nth_error pts i, nth_error pts j, nth_error pts k,
        nth_error vals i, nth_error vals j, nth_error vals k with
  | Some a, Some b, Some c, Some va, Some vb, Some vc =>
      match barycentric a b c q with
      | Some (wa, wb, wc) =>
          if Qle_bool 0 wa && Qle_bool 0 wb && Qle_bool 0 wc
          then Some (wa * va + wb * vb + wc * vc)
          else None
      | None => None
      end
  | _, _, _, _, _, _ => None
  end.

(** The piecewise linear interpolant at [q]: the first simplex that
    holds [q] gives the value; outside of all of them the value is
    [NaN]. *)
Fixpoint linear_at (tri : list simplex) (pts : list point) (vals : list Q)
         (q : point) : option Q :=
  match tri with
  | [] => None
  | s :: tri' => match eval_simplex pts vals q s with
                 | Some v => Some v
                 | None => linear_at tri' pts vals q
                 end
  end.

(** [griddata(points, values, xi, method='linear')]; [delaunay] is the
    triangulation Qhull builds. *)
Definition griddata_linear (delaunay : list point -> list simplex)
           (pts : list point) (vals : list Q) (xi : list point)
  : result (list (option Q)) :=
  match pts with
  | [] => inl (ValueError "No points given")
  | _ => if degenerate pts then inl QhullError
         else inr (map (linear_at (delaunay pts) pts vals) xi)
  end.

Definition dist2 (p q : point) : Q :=
  (fst p - fst q) * (fst p - fst q) + (snd p - snd q) * (snd p - snd q).

(** The value of the source point closest to [q], with its squared
    distance; of two points at the same distance the earlier one (the
    k-d tree of scipy may return another of them). *)
Fixpoint nearest_at (pts : list point) (vals : list Q) (q : point)
  : option (Q * Q) :=
  match pts, vals with
  | p :: pts', v :: vals' =>
      match nearest_at pts' vals' q with
      | Some (d, w) => if Qle_bool (dist2 p q) d then Some (dist2 p q, v)
                       else Some (d, w)
      | None => Some (dist2 p q, v)
      end
  | _, _ => None
  end.

(** [griddata(points, values, xi, method='nearest')] *)
Definition griddata_nearest (pts : list point) (vals : list Q)
           (xi : list point) : result (list (option Q)) :=
  match pts with
  | [] => inl (ValueError "No points given")
  | _ => inr (map (fun q => option_map snd (nearest_at pts vals q)) xi)
  end.

End Scipy.

(** ** Strings *)

(** [s.replace(old, new)] for a non-empty [old]: every occurrence, from the
    left, without overlap.  [skip] counts the characters of a match that
    are still to be dropped. *)
Fixpoint replace_from (old new : string) (skip : nat) (s : string) : string :=
  match s with
  | EmptyString => EmptyString
  | String c s' =>
      match skip with
      | S k => replace_from old new k s'
      | O => if String.prefix old s
             then (new ++ replace_from old new (String.length old - 1) s')%string
             else String c (replace_from old new O s')
      end
  end.

Definition str_replace (s old new : string) : string := replace_from old new O s.

(** ** Effects: the event log and exceptions *)

Inductive event :=
| DsOpen (fname : string) (e : engine)   (* xr.open_dataset returned a handle *)
| DsClose (fname : string)               (* ds.close() *)
| StInfo (fname : string)                (* st.info: Processing ... *)
| StError (fname : string) (cause : exn) (* st.error: Failed to process ... *)
| StWarning (fname : string)             (* st.warning: skipped, no selections *)
| StProgress (idx total : nat)           (* progress_bar.progress(idx / total) *)
| StSuccess (count : nat)                (* st.success: processed count file(s) *)
| StSnow.

Definition M (A : Type) : Type := list event -> result A * list event.

Definition ret {A} (a : A) : M A := fun log => (inr a, log).

Definition bind {A B} (m : M A) (k : A -> M B) : M B :=
  fun log => match m log with
             | (inl e, log') => (inl e, log')
             | (inr a, log') => k a log'
             end.

Definition raise {A} (e : exn) : M A := fun log => (inl e, log).

Definition lift {A} (r : result A) : M A := fun log => (r, log).

Definition emit (ev : event) : M unit := fun log => (inr tt, log ++ [ev]).

(** [try: m except Exception as e: h e] *)
Definition try_except {A} (m : M A) (h : exn -> M A) : M A :=
  fun log => match m log with
             | (inl e, log') => h e log'
             | (inr a, log') => (inr a, log')
             end.

Declare Scope blum_scope.
Delimit Scope blum_scope with blum.
Notation "x <- c ;; k" := (bind c (fun x => k))
  (at level 61, c at next level, right associativity) : blum_scope.
Notation "c ;; k" := (bind c (fun _ => k))
  (at level 61, right associativity) : blum_scope.

(** ** The data of a run *)

Record UploadedFile := { name : string; getvalue : list Byte.byte }.

(** An entry of [copernicus_selections]. *)
Record Selection := {
  variables : list string;
  lat_min : Q;
  lat_max : Q;
  lon_min : Q;
  lon_max : Q
}.

(** An entry of [results] and of [st.session_state.final_excels]. *)
Record Artifact := { a_name : string; a_content : list Byte.byte }.

(** What the loop over the variables carries from one turn to the next:
    [lon_min] and [lon_max] are assigned inside the loop body. *)
Record LoopVars := {
  lv_lon_min : Q;
  lv_lon_max : Q;
  lv_results : list Artifact
}.

(** ** The stages of the loop body (lines 134-172) *)

(** Lines 134-136: slice, flatten, drop the missing values. *)
Definition clip (ds : Xr.Dataset) (var : string) (lat_min lat_max lon_min lon_max : Q)
  : result (list ScatterPoint) :=
  (let* da := Xr.getitem ds var in
   let* subset := Xr.sel da lat_min lat_max lon_min lon_max in
   inr (Pd.dropna (Pd.to_dataframe subset)))%result.

(** Lines 139-142. *)
Definition set_lon (f : Q -> Q) (p : ScatterPoint) : ScatterPoint :=
  {| sp_lat := sp_lat p; sp_lon := f (sp_lon p); sp_value := sp_value p |}.

Definition normalize_lon (df : list ScatterPoint) (lon_min lon_max : Q)
  : list ScatterPoint * Q * Q :=
  if Pd.gt (Pd.max (map sp_lon df)) 180
  then (map (set_lon (fun x => Np.mod_ x 360)) df,
        Np.mod_ lon_min 360, Np.mod_ lon_max 360)
  else (df, lon_min, lon_max).

Definition isnan (v : option Q) : bool :=
  match v with None => true | Some _ => false end.

(** [a[mask]] *)
Fixpoint boolean_index {A} (a : list A) (mask : list bool) : list A :=
  match a, mask with
  | x :: a', true :: m' => x :: boolean_index a' m'
  | _ :: a', false :: m' => boolean_index a' m'
  | _, _ => []
  end.

(** [a[mask] = fill]: the values of [fill], in order, at the positions the
    mask selects. *)
Fixpoint masked_assign {A} (a : list A) (mask : list bool) (fill : list A)
  : list A :=
  match a, mask with
  | x :: a', true :: m' =>
      match fill with
      | v :: fill' => v :: masked_assign a' m' fill'
      | [] => x :: masked_assign a' m' []
      end
  | x :: a', false :: m' => x :: masked_assign a' m' fill
  | _, _ => a
  end.

(** Lines 152-159: the linear pass, then the nearest-neighbour pass on the
    lattice points the first pass left at [NaN]. *)
Definition interpolate (delaunay : list Scipy.point -> list Scipy.simplex)
           (df : list ScatterPoint) (grid_points : list Scipy.point)
  : result (list (option Q)) :=
  let points := map (fun p => (sp_lat p, sp_lon p)) df in
  let values := map sp_value df in
  (let* grid_values := Scipy.griddata_linear delaunay points values grid_points in
   let nan_mask := map isnan grid_values in
   if existsb (fun b => b) nan_mask
   then let* fill := Scipy.griddata_nearest points values
                       (boolean_index grid_points nan_mask) in
        inr (masked_assign grid_values nan_mask fill)
   else inr grid_values)%result.

(** [pd.DataFrame({'lat': a, 'lon': b, 'value': c})] for columns of one
    length. *)
Fixpoint data_frame (a b : list Q) (c : list (option Q)) : list GridRow :=
  match a, b, c with
  | x :: a', y :: b', z :: c' =>
      {| g_lat := x; g_lon := y; g_value := z |} :: data_frame a' b' c'
  | _, _, _ => []
  end.

(** Lines 162-167. *)
Definition grid_df (glat glon : list Q) (grid_values : list (option Q))
  : list GridRow :=
  Pd.sort_values (data_frame (map (Np.round 3) glat) (map (Np.round 3) glon)
                             grid_values).

(** Line 169. *)
Definition out_name (fname var : string) : string :=
  str_replace fname ".nc" ("_" ++ var ++ "_qgis.xlsx").

Section Blum.

(** Whether [from netCDF4 import ...] succeeded when the script started. *)
Variable NETCDF4_AVAILABLE : bool.

(** [xr.open_dataset(io.BytesIO(bytes), engine=e)] as a function of the
    bytes: the decoded dataset, or the exception of the backend. *)
Variable decode : engine -> list Byte.byte -> result Xr.Dataset.

(** The triangulation Qhull computes for a set of points. *)
Variable delaunay : list Scipy.point -> list Scipy.simplex.

(** [grid_df.to_excel(buffer, index=False)], then [buffer.getvalue()]. *)
Variable to_excel : list GridRow -> list Byte.byte.

Definition xr_open_dataset (file : UploadedFile) (e : engine) : M Xr.Dataset :=
  fun log => match decode e (getvalue file) with
             | inl x => (inl x, log)
             | inr ds => (inr ds, log ++ [DsOpen (name file) e])
             end.

Definition ds_close (file : UploadedFile) : M unit :=
  emit (DsClose (name file)).

(** Lines 118-124. *)
Definition open_with_fallback (file : UploadedFile) : M Xr.Dataset :=
  try_except
    (if NETCDF4_AVAILABLE then xr_open_dataset file Netcdf4
     else raise Unavailable)
    (fun _ => xr_open_dataset file H5netcdf).

(** Lines 134-167 of one turn of the loop: the sorted table, and the
    longitude bounds as the turn leaves them. *)
Definition regrid (ds : Xr.Dataset) (var : string)
           (lat_min lat_max lon_min lon_max : Q)
  : result (list GridRow * Q * Q) :=
  (let* df := clip ds var lat_min lat_max lon_min lon_max in
   let '(df, lon_min, lon_max) := normalize_lon df lon_min lon_max in
   let '(glat, glon) := grid_lat_lon lat_min lat_max lon_min lon_max in
   let* grid_values := interpolate delaunay df (Np.c_ glat glon) in
   inr (grid_df glat glon grid_values, lon_min, lon_max))%result.

(** One turn of [for var in selection["variables"]] (lines 134-172). *)
Definition process_variable (ds : Xr.Dataset) (fname : string)
           (lat_min lat_max : Q) (lv : LoopVars) (var : string)
  : result LoopVars :=
  (let* (table, lon_min, lon_max) :=
     regrid ds var lat_min lat_max (lv_lon_min lv) (lv_lon_max lv) in
   inr {| lv_lon_min := lon_min;
          lv_lon_max := lon_max;
          lv_results := lv_results lv ++
            [{| a_name := out_name fname var;
                a_content := to_excel table |}] |})%result.

Fixpoint for_variables (ds : Xr.Dataset) (fname : string)
         (lat_min lat_max : Q) (vars : list string) (lv : LoopVars)
  : result LoopVars :=
  match vars with
  | [] => inr lv
  | var :: vars' =>
      (let* lv' := process_variable ds fname lat_min lat_max lv var in
       for_variables ds fname lat_min lat_max vars' lv')%result
  end.

(** Lines 130-131: [values[0] > values[-1]]. *)
Definition lat_descending (ds : Xr.Dataset) : result bool :=
  match hd_error (Xr.lat ds), hd_error (rev (Xr.lat ds)) with
  | Some first, Some last => inr (Qlt_bool last first)
  | _, _ => inl IndexError
  end.

(** Lines 126-131: the latitude bounds in the direction of the axis. *)
Definition lat_bounds (descending : bool) (selection : Selection) : Q * Q :=
  if descending
  then (lat_max selection, lat_min selection)
  else (lat_min selection, lat_max selection).

(** The variables of the loop before its first turn (lines 115, 127). *)
Definition loop_start (selection : Selection) : LoopVars :=
  {| lv_lon_min := lon_min selection;
     lv_lon_max := lon_max selection;
     lv_results := [] |}.

(** The body of the [try] (lines 117-175). *)
Definition try_body (file : UploadedFile) (selection : Selection)
  : M (list Artifact) :=
  (ds <- open_with_fallback file ;;
   descending <- lift (lat_descending ds) ;;
   let '(lat_min, lat_max) := lat_bounds descending selection in
   lv <- lift (for_variables ds (name file) lat_min lat_max
                 (variables selection) (loop_start selection)) ;;
   ds_close file ;;
   ret (lv_results lv))%blum.

(** Lines 114-178. *)
Definition handle_copernicus_file (file : UploadedFile) (selection : Selection)
  : M (option (list Artifact)) :=
  (try_except
     (results <- try_body file selection ;; ret (Some results))
     (fun e => emit (StError (name file) e) ;; ret None))%blum.

(** ** The processing loop (lines 184-199) *)

(** [copernicus_selections]: the selections by file name. *)
Definition selections : Type := list (string * Selection).

(** [if results:] *)
Definition truthy (results : option (list Artifact)) : bool :=
  match results with
  | Some (_ :: _) => true
  | _ => false
  end.

Fixpoint processing_loop (copernicus_selections : selections)
         (files : list UploadedFile) (idx total : nat)
         (final_excels : list Artifact) : M (list Artifact) :=
  match files with
  | [] => ret final_excels
  | file :: files' =>
      (emit (StInfo (name file)) ;;
       final_excels' <-
         match lookup (name file) copernicus_selections with
         | Some selection =>
             results <- handle_copernicus_file file selection ;;
             ret (if truthy results
                  then final_excels ++ match results with
                                       | Some r => r
                                       | None => []
                                       end
                  else final_excels)
         | None => emit (StWarning (name file)) ;; ret final_excels
         end ;;
       emit (StProgress idx total) ;;
       processing_loop copernicus_selections files' (S idx) total
                       final_excels')%blum
  end.

Definition process_all (copernicus_selections : selections)
           (uploaded_files : list UploadedFile) : M (list Artifact) :=
  (final_excels <- processing_loop copernicus_selections uploaded_files
                     1 (length uploaded_files) [] ;;
   emit (StSuccess (length final_excels)) ;;
   emit StSnow ;;
   ret final_excels)%blum.

End Blum.

(** The artifacts a file gives when it is handled on its own. *)
Definition file_artifacts (NETCDF4_AVAILABLE : bool)
           (decode : engine -> list Byte.byte -> result Xr.Dataset)
           (delaunay : list Scipy.point -> list Scipy.simplex)
           (to_excel : list GridRow -> list Byte.byte)
           (copernicus_selections : list (string * Selection))
           (file : UploadedFile) : list Artifact :=
  match lookup (name file) copernicus_selections with
  | Some selection =>
      match fst (handle_copernicus_file NETCDF4_AVAILABLE decode delaunay
                   to_excel file selection []) with
      | inr (Some results) => results
      | _ => []
      end
  | None => []
  end.

(** ** Vocabulary of the statements *)

(** The number of steps of an axis of the grid. *)
Definition axis_steps (lo hi : Q) : Z :=
  Qceiling ((hi + grid_margin - lo) / grid_spacing).

(** The statements about the values of the grid leave room for the last
    digits of the arithmetic: they are given with the margin of the grid
    (0.0001) as slack, far above the rounding of a double at the magnitude
    of a latitude or a longitude. *)





(** The labels of an axis inside [lo, hi]. *)
Definition in_box (lo hi : Q) (x : Q) : bool := Qle_bool lo x && Qle_bool x hi.

Definition ascending (axis : list Q) : Prop := StronglySorted Qlt axis.
Definition descending (axis : list Q) : Prop :=
  StronglySorted (fun x y => y < x) axis.

(** The order of a result table: [r1] stands before [r2] when its latitude
    is greater, or the latitudes are equal and its longitude is not
    greater. *)
Definition row_order (r1 r2 : GridRow) : Prop :=
  g_lat r2 < g_lat r1 \/ (g_lat r1 == g_lat r2 /\ g_lon r1 <= g_lon r2).

(** The row of the table for a lattice point and its value. *)
Definition row_of (q : Scipy.point) (v : option Q) : GridRow :=
  {| g_lat := Np.round 3 (fst q); g_lon := Np.round 3 (snd q); g_value := v |}.

(** The source points and values that [griddata] receives. *)
Definition points_of (df : list ScatterPoint) : list Scipy.point :=
  map (fun p => (sp_lat p, sp_lon p)) df.
Definition values_of (df : list ScatterPoint) : list Q := map sp_value df.

(** The value of the two passes at one lattice point. *)
Definition value_at (delaunay : list Scipy.point -> list Scipy.simplex)
           (df : list ScatterPoint) (q : Scipy.point) : option Q :=
  match Scipy.linear_at (delaunay (points_of df)) (points_of df) (values_of df) q with
  | Some v => Some v
  | None => option_map snd (Scipy.nearest_at (points_of df) (values_of df) q)
  end.

(** At least three source points that are not on one line. *)
Definition has_triangle (pts : list Scipy.point) : Prop :=
  exists a b c, In a pts /\ In b pts /\ In c pts /\ ~ Scipy.orient a b c == 0.

(** The outcome of the first attempt of the reader (lines 119-122). *)
Definition primary (NETCDF4_AVAILABLE : bool)
           (decode : engine -> list Byte.byte -> result Xr.Dataset)
           (file : UploadedFile) : result Xr.Dataset :=
  if NETCDF4_AVAILABLE then decode Netcdf4 (getvalue file) else inl Unavailable.

(** A computation whose outcome does not depend on the log it is given and
    whose events are appended to that log. *)
Definition appends {A} (m : M A) : Prop :=
  forall log, m log = (fst (m []), log ++ snd (m [])).

(** [q] lies in the closed triangle [a b c], which is not flat. *)
Definition inside (a b c q : Scipy.point) : Prop :=
  ~ Scipy.orient a b c == 0
  /\ 0 <= 1 - Scipy.orient a q c / Scipy.orient a b c
            - Scipy.orient a b q / Scipy.orient a b c
  /\ 0 <= Scipy.orient a q c / Scipy.orient a b c
  /\ 0 <= Scipy.orient a b q / Scipy.orient a b c.

(** What is used of the triangulation Qhull returns for points that span
    the plane: its simplices are triangles of source points that are not
    flat, every source point is a vertex of one of them, and a source point
    that lies in a simplex is one of its vertices. *)
Definition triangulation (pts : list Scipy.point) (tri : list Scipy.simplex)
  : Prop :=
  (forall i j k, In (i, j, k) tri ->
     exists a b c, nth_error pts i = Some a /\ nth_error pts j = Some b
                   /\ nth_error pts k = Some c /\ ~ Scipy.orient a b c == 0)
  /\ (forall m, (m < length pts)%nat ->
        exists i j k, In (i, j, k) tri /\ (m = i \/ m = j \/ m = k))
  /\ (forall i j k m a b c p,
        In (i, j, k) tri ->
        nth_error pts i = Some a -> nth_error pts j = Some b ->
        nth_error pts k = Some c -> nth_error pts m = Some p ->
        inside a b c p -> m = i \/ m = j \/ m = k).

(** Two points with the same coordinates. *)
Definition same_point (p q : Scipy.point) : Prop :=
  fst p == fst q /\ snd p == snd q.

(** ** Concrete inputs *)

(** The descending axis of the scenario of the specification. *)
Definition axis_10_0 : list Q :=
  map inject_Z [10; 9; 8; 7; 6; 5; 4; 3; 2; 1; 0]%Z.

Definition scenario_ds : Xr.Dataset :=
  {| Xr.lat := axis_10_0; Xr.lon := [0; 1]; Xr.data_vars := [] |}.






(** A field on the four corners of one cell of the grid, with a variable
    that is defined everywhere and one that is missing everywhere. *)
Definition square : Xr.Dataset :=
  {| Xr.lat := [0; 1 # 8];
     Xr.lon := [0; 1 # 8];
     Xr.data_vars :=
       [("sst"%string, [[Some 1; Some 2]; [Some 3; Some 4]]);
        ("sal"%string, [[None; None]; [None; None]])] |}.

(** Backends that decode the one-byte file [01] to [square] and nothing
    else. *)
Definition decode_square (e : engine) (bytes : list Byte.byte)
  : result Xr.Dataset :=
  match bytes with
  | [Byte.x01] => inr square
  | _ => inl (OSError e "unknown file format")
  end.

(** The two triangles of the cell, along the diagonal of the points 1, 2. *)
Definition delaunay_square (_ : list Scipy.point) : list Scipy.simplex :=
  [(0, 1, 2); (1, 2, 3)]%nat.

(** A serialiser that writes one byte per row. *)
Definition excel_rows (table : list GridRow) : list Byte.byte :=
  map (fun _ => Byte.x2a) table.

Definition file_a : UploadedFile := {| name := "a.nc"; getvalue := [Byte.x01] |}.
Definition file_b : UploadedFile := {| name := "b.nc"; getvalue := [Byte.x01] |}.
Definition file_bad : UploadedFile := {| name := "bad.nc"; getvalue := [] |}.

Definition select (vars : list string) : Selection :=
  {| variables := vars;
     lat_min := 0; lat_max := 1 # 8; lon_min := 0; lon_max := 1 # 8 |}.

(** Three source points that span a triangle, and its triangulation. *)
Definition triangle_df : list ScatterPoint :=
  [{| sp_lat := 0; sp_lon := 0; sp_value := 1 |};
   {| sp_lat := 0; sp_lon := 1; sp_value := 2 |};
   {| sp_lat := 1; sp_lon := 0; sp_value := 3 |}].

Definition delaunay_triangle (_ : list Scipy.point) : list Scipy.simplex :=
  [(0, 1, 2)]%nat.

(** One source point. *)
Definition single_df : list ScatterPoint :=
  [{| sp_lat := 0; sp_lon := 0; sp_value := 1 |}].

(** The artifact of the variable [sst] of [file_a] under [excel_rows]. *)
Definition artifact_a_sst : Artifact :=
  {| a_name := "a_sst_qgis.xlsx";
     a_content := [Byte.x2a; Byte.x2a; Byte.x2a; Byte.x2a] |}.

Definition artifact_b_sst : Artifact :=
  {| a_name := "b_sst_qgis.xlsx";
     a_content := [Byte.x2a; Byte.x2a; Byte.x2a; Byte.x2a] |}.

(** The field [square] stored with its latitude axis descending. *)
Definition square_descending : Xr.Dataset :=
  {| Xr.lat := [1 # 8; 0];
     Xr.lon := [0; 1 # 8];
     Xr.data_vars := [("sst"%string, [[Some 3; Some 4]; [Some 1; Some 2]])] |}.

Definition decode_descending (e : engine) (bytes : list Byte.byte)
  : result Xr.Dataset :=
  match bytes with
  | [Byte.x02] => inr square_descending
  | _ => inl (OSError e "unknown file format")
  end.

Definition file_d : UploadedFile := {| name := "d.nc"; getvalue := [Byte.x02] |}.





(** ** The selection form (lines 55-109) *)

(** An exception inside the [try] of the form: one of the exceptions of the
    data libraries, or a widget that refuses its arguments or its key. *)
Inductive form_exn :=
| Raised (e : exn)
| StreamlitAPIException (msg : string).

Definition form_result (A : Type) : Type := (form_exn + A)%type.

Inductive form_event :=
| FormProbe (fname : string)             (* ds_test opened and closed *)
| FormOpen (fname : string) (e : engine) (* xr.open_dataset returned ds *)
| FormClose (fname : string)             (* ds.close() *)
| FormErrorNoSpatial (fname : string)    (* st.error: No spatial variables *)
| FormWarningNoVariables (fname : string) (* st.warning: No variables selected *)
| FormErrorRead (fname : string) (cause : form_exn). (* st.error: Could not read *)

(** How the turn of the loop for one file ends. *)
Inductive form_outcome :=
| Recorded (selection : Selection)   (* copernicus_selections[name] = ... *)
| NoSpatialVariables                 (* [continue] of line 76 *)
| NoVariablesSelected                (* [continue] of line 82 *)
| CouldNotRead (cause : form_exn).   (* the [except] of line 108 *)

(** [a.min()] and [a.max()] of a numpy array; an empty array has none. *)
Fixpoint amin (a : list Q) : option Q :=
  match a with
  | [] => None
  | x :: a' => match amin a' with
               | None => Some x
               | Some m => Some (if Qle_bool x m then x else m)
               end
  end.

Fixpoint amax (a : list Q) : option Q :=
  match a with
  | [] => None
  | x :: a' => match amax a' with
               | None => Some x
               | Some m => Some (if Qle_bool m x then x else m)
               end
  end.

(** [{'lat','lon'}.issubset(dims)] *)
Definition has_lat_lon (dims : list string) : bool :=
  existsb (String.eqb "lat") dims && existsb (String.eqb "lon") dims.

(** Lines 85-89: the extent of the axes, (lat_min_val, lat_max_val,
    lon_min_val, lon_max_val). *)
Definition native_extent (ds : Xr.Dataset) : result (Q * Q * Q * Q) :=
  match hd_error (Xr.lat ds), hd_error (rev (Xr.lat ds)) with
  | Some first, Some last =>
      let lat_ascending := Qlt_bool first last in
      let '(lat_min_val, lat_max_val) :=
        if lat_ascending then (first, last) else (last, first) in
      match amin (Xr.lon ds), amax (Xr.lon ds) with
      | Some lon_min_val, Some lon_max_val =>
          inr (lat_min_val, lat_max_val, lon_min_val, lon_max_val)
      | _, _ => inl (ValueError "zero-size array to reduction operation")
      end
  | _, _ => inl IndexError
  end.

(** [d[key] = v] on a dict as the list of its items: the value of an
    existing key is replaced in place, a new key goes to the end. *)
Fixpoint dict_set {A} (d : list (string * A)) (key : string) (v : A)
  : list (string * A) :=
  match d with
  | [] => [(key, v)]
  | (k, w) :: d' =>
      if String.eqb k key then (k, v) :: d' else (k, w) :: dict_set d' key v
  end.

Section Form.

Variable NETCDF4_AVAILABLE : bool.

(** [Dataset(io.BytesIO(bytes))] followed by [ds_test.close()]. *)
Variable probe : list Byte.byte -> result unit.

Variable decode : engine -> list Byte.byte -> result Xr.Dataset.

(** [ds[var].dims]: the names of the dimensions of a variable. *)
Variable dims : Xr.Dataset -> string -> list string.

(** What the user picks in [st.multiselect(label, options, key=key)]. *)
Variable multiselect : string -> list string -> list string.

(** What the user enters in [st.number_input(label, min_value, max_value,
    value, ..., key=key)]. *)
Variable number_input : string -> Q -> Q -> Q -> Q.

(** Lines 61-70. *)
Definition open_for_form (file : UploadedFile)
  : result Xr.Dataset * list form_event :=
  let first_try :=
    if NETCDF4_AVAILABLE then
      match probe (getvalue file) with
      | inl e => (inl e, [])
      | inr _ =>
          match decode Netcdf4 (getvalue file) with
          | inl e => (inl e, [FormProbe (name file)])
          | inr ds =>
              (inr ds, [FormProbe (name file); FormOpen (name file) Netcdf4])
          end
      end
    else (inl Unavailable, []) in
  match first_try with
  | (inr ds, evs) => (inr ds, evs)
  | (inl _, evs) =>
      match decode H5netcdf (getvalue file) with
      | inl e => (inl e, evs)
      | inr ds => (inr ds, evs ++ [FormOpen (name file) H5netcdf])
      end
  end.

(** Line 73. *)
Definition spatial_vars (ds : Xr.Dataset) : list string :=
  filter (fun var => has_lat_lon (dims ds var)) (map fst (Xr.data_vars ds)).

(** [st.number_input]: the default value has to lie between the bounds. *)
Definition st_number_input (key : string) (min_value max_value value : Q)
  : form_result Q :=
  if Qlt_bool value min_value || Qlt_bool max_value value
  then inl (StreamlitAPIException key)
  else inr (number_input key min_value max_value value).

(** [st.multiselect]: a key can be given to one widget of a run only;
    [seen] holds the names of the files whose widgets exist. *)
Definition st_multiselect (seen : list string) (fname : string)
           (options : list string) : form_result (list string) :=
  if existsb (String.eqb fname) seen
  then inl (StreamlitAPIException ("vars_" ++ fname))
  else inr (multiselect ("vars_" ++ fname) options).

(** Lines 85-106: the four inputs and the entry of the dict. *)
Definition ask_extent (ds : Xr.Dataset) (fname : string)
           (vars_selected : list string) : form_result Selection :=
  match native_extent ds with
  | inl e => inl (Raised e)
  | inr (lat_min_val, lat_max_val, lon_min_val, lon_max_val) =>
      match st_number_input ("latmin_" ++ fname) lat_min_val lat_max_val
                            lat_min_val with
      | inl e => inl e
      | inr lat_min =>
      match st_number_input ("latmax_" ++ fname) lat_min_val lat_max_val
                            lat_max_val with
      | inl e => inl e
      | inr lat_max =>
      match st_number_input ("lonmin_" ++ fname) lon_min_val lon_max_val
                            lon_min_val with
      | inl e => inl e
      | inr lon_min =>
      match st_number_input ("lonmax_" ++ fname) lon_min_val lon_max_val
                            lon_max_val with
      | inl e => inl e
      | inr lon_max =>
          inr {| variables := vars_selected;
                 lat_min := lat_min; lat_max := lat_max;
                 lon_min := lon_min; lon_max := lon_max |}
      end end end end
  end.

(** One turn of [for file in uploaded_files] (lines 59-109): the outcome,
    the events, and whether the widgets of the file were created. *)
Definition select_file (seen : list string) (file : UploadedFile)
  : form_outcome * list form_event * bool :=
  match open_for_form file with
  | (inl e, evs) =>
      (CouldNotRead (Raised e),
       evs ++ [FormErrorRead (name file) (Raised e)], false)
  | (inr ds, evs) =>
      match spatial_vars ds with
      | [] => (NoSpatialVariables, evs ++ [FormErrorNoSpatial (name file)], false)
      | _ :: _ =>
          match st_multiselect seen (name file) (spatial_vars ds) with
          | inl e => (CouldNotRead e, evs ++ [FormErrorRead (name file) e], false)
          | inr [] =>
              (NoVariablesSelected,
               evs ++ [FormWarningNoVariables (name file)], true)
          | inr ((_ :: _) as vars_selected) =>
              match ask_extent ds (name file) vars_selected with
              | inl e =>
                  (CouldNotRead e, evs ++ [FormErrorRead (name file) e], true)
              | inr selection =>
                  (Recorded selection, evs ++ [FormClose (name file)], true)
              end
          end
      end
  end.

(** Lines 55-109: the dict of the selections and the events of the form. *)
Fixpoint selection_loop (uploaded_files : list UploadedFile)
         (seen : list string) (copernicus_selections : list (string * Selection))
  : list (string * Selection) * list form_event :=
  match uploaded_files with
  | [] => (copernicus_selections, [])
  | file :: files' =>
      let '(outcome, evs, created) := select_file seen file in
      let seen' := if created then name file :: seen else seen in
      let sels' := match outcome with
                   | Recorded selection =>
                       dict_set copernicus_selections (name file) selection
                   | _ => copernicus_selections
                   end in
      let '(sels'', evs') := selection_loop files' seen' sels' in
      (sels'', evs ++ evs')
  end.

Definition selection_form (uploaded_files : list UploadedFile)
  : list (string * Selection) * list form_event :=
  selection_loop uploaded_files [] [].

End Form.



(** ** Further vocabulary *)

(** [old in s]: [old] occurs in [s]. *)
Fixpoint occurs (old s : string) : bool :=
  String.prefix old s ||
  match s with
  | EmptyString => false
  | String _ s' => occurs old s'
  end.

(** [% 360] applied [n] times. *)
Definition wrap_times (n : nat) (x : Q) : Q :=
  Nat.iter n (fun y => Np.mod_ y 360) x.


(** The strict order of a result table: a greater latitude first, and at
    the same latitude a smaller longitude first. *)
Definition row_before (r1 r2 : GridRow) : Prop :=
  g_lat r2 < g_lat r1 \/ (g_lat r1 == g_lat r2 /\ g_lon r1 < g_lon r2).

Definition same_coordinates (r1 r2 : GridRow) : Prop :=
  g_lat r1 == g_lat r2 /\ g_lon r1 == g_lon r2.

(** The order in which the rows are built: latitude-major, both
    coordinates increasing. *)
Definition grid_order (r1 r2 : GridRow) : Prop :=
  g_lat r1 < g_lat r2 \/ (g_lat r1 == g_lat r2 /\ g_lon r1 < g_lon r2).

(** Values that lie at least one step of the grid apart. *)
Definition step_apart (x y : Q) : Prop := x + grid_spacing <= y.

(** A cell of a data frame lies in the box of a selection. *)
Definition in_region (selection : Selection) (cell : Q * Q * option Q) : bool :=
  let '(la, lo, _) := cell in
  in_box (lat_min selection) (lat_max selection) la
  && in_box (lon_min selection) (lon_max selection) lo.


(** The values of a variable have the shape of the axes. *)
Definition well_shaped (ds : Xr.Dataset) (m : list (list (option Q))) : Prop :=
  length m = length (Xr.lat ds)
  /\ Forall (fun row => length row = length (Xr.lon ds)) m.

Definition is_progress (ev : event) : bool :=
  match ev with StProgress _ _ => true | _ => false end.

Definition is_info (ev : event) : bool :=
  match ev with StInfo _ => true | _ => false end.

(** What Streamlit promises of its widgets: a multiselect returns options
    it was given, a number input whose default lies between its bounds a
    value between them. *)
Definition widgets_keep_their_bounds
           (multiselect : string -> list string -> list string)
           (number_input : string -> Q -> Q -> Q -> Q) : Prop :=
  (forall key options v, In v (multiselect key options) -> In v options)
  /\ (forall key lo hi v, lo <= v -> v <= hi ->
        lo <= number_input key lo hi v /\ number_input key lo hi v <= hi).

(** ** Concrete inputs of the form *)

(** A test reader that accepts every file, and one that accepts none. *)
Definition probe_ok (_ : list Byte.byte) : result unit := inr tt.

Definition probe_refuses (_ : list Byte.byte) : result unit :=
  inl (OSError Netcdf4 "unknown file format").

(** Every variable lies over (time, lat, lon). *)
Definition dims_time_lat_lon (_ : Xr.Dataset) (_ : string) : list string :=
  ["time"; "lat"; "lon"]%string.

(** A user who picks every option and leaves the numbers as they are. *)
Definition multiselect_all (_ : string) (options : list string) : list string :=
  options.

Definition number_input_default (_ : string) (_ _ value : Q) : Q := value.

(** The whole extent of [square]. *)
Definition selection_a : Selection :=
  {| variables := ["sst"; "sal"]%string;
     lat_min := 0; lat_max := 1 # 8; lon_min := 0; lon_max := 1 # 8 |}.

(** Latitude bounds in the wrong order. *)
Definition inverted_selection : Selection :=
  {| variables := ["sst"%string];
     lat_min := 1 # 8; lat_max := 0; lon_min := 0; lon_max := 1 # 8 |}.

(** A selection of a variable the dataset does not have. *)
Definition unknown_selection : Selection :=
  {| variables := ["chl"%string];
     lat_min := 0; lat_max := 1 # 8; lon_min := 0; lon_max := 1 # 8 |}.



(** A user who picks nothing. *)
Definition multiselect_none (_ : string) (_ : list string) : list string := [].

(** ** Properties of the numeric model *)


Lemma combine_app {A B} (u u' : list A) (v v' : list B) :
  length u = length v ->
  combine (u ++ u') (v ++ v') = combine u v ++ combine u' v'.
Proof.
  revert v. induction u as [|y u IHu]; intros [|z v] H; simpl in *;
    try discriminate; [reflexivity|].
  f_equal. apply IHu. lia.
Qed.

Lemma grid_points_prod a b c d :
  grid_points a b c d = list_prod (grid_axis a b) (grid_axis c d).
Proof.
  unfold grid_points, grid_lat_lon, Np.meshgrid_ij, Np.ravel, Np.c_.
  generalize (grid_axis a b) as lats, (grid_axis c d) as lons.
  induction lats as [|x lats IH]; intros lons; simpl; [reflexivity|].
  rewrite <- IH, combine_app by now rewrite length_map.
  f_equal. clear. induction lons as [|y lons IH]; simpl; [reflexivity|].
  now rewrite IH.
Qed.





Lemma grid_axis_empty lo hi : hi + grid_margin <= lo -> grid_axis lo hi = [].
Proof.
  intros H. unfold grid_axis, Np.arange.
  assert (Hc : (Qceiling ((hi + grid_margin - lo) / grid_spacing) <= 0)%Z).
  { change 0%Z with (Qceiling 0). apply Qceiling_resp_le.
    assert (E : (hi + grid_margin - lo) / grid_spacing
                == (hi + grid_margin - lo) * 8) by (unfold grid_spacing; field).
    rewrite E. lra. }
  destruct (Qceiling _); try reflexivity. lia.
Qed.

(** ** The grid (C3) *)

Lemma grid_axis_unfold lo hi :
  grid_axis lo hi
  = map (fun i => lo + inject_Z (Z.of_nat i) * grid_spacing)
        (seq 0 (Z.to_nat (axis_steps lo hi))).
Proof. reflexivity. Qed.








(** ** Label-based slices (C4) *)

Lemma Qlt_bool_iff x y : Qlt_bool x y = true <-> x < y.
Proof.
  unfold Qlt_bool. rewrite negb_true_iff, <- not_true_iff_false, Qle_bool_iff.
  split; [apply Qnot_le_lt | apply Qlt_not_le].
Qed.

Lemma Qlt_bool_false x y : Qlt_bool x y = false <-> y <= x.
Proof.
  unfold Qlt_bool. now rewrite negb_false_iff, Qle_bool_iff.
Qed.

Lemma Qle_bool_false x y : Qle_bool x y = false <-> y < x.
Proof.
  rewrite <- not_true_iff_false, Qle_bool_iff.
  split; [apply Qnot_le_lt | apply Qlt_not_le].
Qed.

Lemma filter_none {A} (f : A -> bool) l :
  (forall x, In x l -> f x = false) -> filter f l = [].
Proof.
  induction l as [|x l IH]; intros H; simpl; [reflexivity|].
  rewrite (H x) by now left. apply IH. intros y Hy. apply H. now right.
Qed.

(** Above the lower bound, an increasing axis is cut at the insertion
    point of the upper bound. *)
Lemma firstn_searchsorted_right lo hi a :
  StronglySorted Qle a -> (forall x, In x a -> lo <= x) ->
  firstn (Xr.searchsorted_right a hi) a = filter (in_box lo hi) a.
Proof.
  induction 1 as [|x a Hs IH Hx]; intros Hlo; simpl; [reflexivity|].
  unfold in_box at 1.
  assert (Hlx : Qle_bool lo x = true) by (apply Qle_bool_iff, Hlo; now left).
  rewrite Hlx. simpl. destruct (Qle_bool x hi) eqn:Hxh; simpl.
  - f_equal. apply IH. intros y Hy. apply Hlo. now right.
  - symmetry. apply filter_none. intros y Hy. unfold in_box.
    apply andb_false_iff. right. apply Qle_bool_false.
    apply Qle_bool_false in Hxh. rewrite Forall_forall in Hx.
    specialize (Hx y Hy). lra.
Qed.

Lemma islice_S {A} i j (x : A) l :
  Xr.islice (S i) (S j) (x :: l) = Xr.islice i j l.
Proof. reflexivity. Qed.

Lemma islice_increasing lo hi a :
  StronglySorted Qle a ->
  Xr.islice (Xr.searchsorted_left a lo) (Xr.searchsorted_right a hi) a
  = filter (in_box lo hi) a.
Proof.
  induction 1 as [|x a Hs IH Hx]; [reflexivity|].
  rewrite Forall_forall in Hx.
  cbn [Xr.searchsorted_left Xr.searchsorted_right filter].
  destruct (Qlt_bool x lo) eqn:Hxl.
  - apply Qlt_bool_iff in Hxl.
    assert (Hb : in_box lo hi x = false).
    { unfold in_box. apply andb_false_iff. left. now apply Qle_bool_false. }
    rewrite Hb. destruct (Qle_bool x hi) eqn:Hxh.
    + rewrite islice_S. exact IH.
    + unfold Xr.islice. simpl. symmetry. apply filter_none. intros y Hy.
      unfold in_box. apply andb_false_iff. right. apply Qle_bool_false.
      apply Qle_bool_false in Hxh. specialize (Hx y Hy). lra.
  - apply Qlt_bool_false in Hxl. unfold Xr.islice. rewrite Nat.sub_0_r.
    cbn [skipn].
    change (if Qle_bool x hi then S (Xr.searchsorted_right a hi) else O)
      with (Xr.searchsorted_right (x :: a) hi).
    rewrite (firstn_searchsorted_right lo hi (x :: a)).
    + reflexivity.
    + constructor; [assumption | now apply Forall_forall].
    + intros y [<- | Hy]; [assumption|]. specialize (Hx y Hy). lra.
Qed.

Lemma searchsorted_right_le a v : (Xr.searchsorted_right a v <= length a)%nat.
Proof. induction a as [|x a IH]; simpl; [lia|]. destruct (Qle_bool x v); lia. Qed.

Lemma searchsorted_left_le a v : (Xr.searchsorted_left a v <= length a)%nat.
Proof. induction a as [|x a IH]; simpl; [lia|]. destruct (Qlt_bool x v); lia. Qed.

Lemma islice_rev {A} (l : list A) i j :
  (i <= length l)%nat -> (j <= length l)%nat ->
  Xr.islice (length l - j) (length l - i) l = rev (Xr.islice i j (rev l)).
Proof.
  intros Hi Hj. unfold Xr.islice.
  rewrite skipn_rev, firstn_rev, rev_involutive, length_firstn.
  rewrite skipn_firstn_comm.
  replace (Nat.min (length l - i) (length l) - (j - i))%nat
    with (length l - i - (j - i))%nat by lia.
  destruct (Nat.le_gt_cases i j) as [Hij | Hij].
  - replace (length l - i - (j - i))%nat with (length l - j)%nat by lia.
    reflexivity.
  - replace (length l - i - (length l - j))%nat with O by lia.
    replace (length l - i - (length l - i - (j - i)))%nat with O by lia.
    reflexivity.
Qed.

Lemma filter_rev' {A} (f : A -> bool) l : filter f (rev l) = rev (filter f l).
Proof.
  induction l as [|x l IH]; simpl; [reflexivity|].
  rewrite filter_app, IH. simpl. destruct (f x); simpl; [reflexivity|].
  now rewrite app_nil_r.
Qed.

Lemma StronglySorted_snoc {A} (R : A -> A -> Prop) l x :
  StronglySorted R l -> (forall y, In y l -> R y x) ->
  StronglySorted R (l ++ [x]).
Proof.
  induction 1 as [|y l Hs IH Hy]; intros Hx; simpl.
  - repeat constructor.
  - constructor.
    + apply IH. intros z Hz. apply Hx. now right.
    + apply Forall_forall. intros z [Hz | [<- | []]]%in_app_iff.
      * rewrite Forall_forall in Hy. now apply Hy.
      * apply Hx. now left.
Qed.

Lemma StronglySorted_rev {A} (R : A -> A -> Prop) l :
  StronglySorted R l -> StronglySorted (fun x y => R y x) (rev l).
Proof.
  induction 1 as [|x l Hs IH Hx]; simpl; [constructor|].
  apply StronglySorted_snoc; [exact IH|].
  intros y Hy%in_rev. rewrite Forall_forall in Hx. now apply Hx.
Qed.

Lemma ascending_monotonic a :
  ascending a -> Xr.is_monotonic_increasing a = true.
Proof.
  induction 1 as [|x a Hs IH Hx]; [reflexivity|].
  destruct a as [|y a]; [reflexivity|].
  change (Xr.is_monotonic_increasing (x :: y :: a))
    with (Qle_bool x y && Xr.is_monotonic_increasing (y :: a)).
  rewrite IH, andb_true_r.
  apply Qle_bool_iff, Qlt_le_weak. rewrite Forall_forall in Hx. apply Hx. now left.
Qed.

Lemma descending_monotonic a :
  descending a -> Xr.is_monotonic_decreasing a = true.
Proof.
  induction 1 as [|x a Hs IH Hx]; [reflexivity|].
  destruct a as [|y a]; [reflexivity|].
  change (Xr.is_monotonic_decreasing (x :: y :: a))
    with (Qle_bool y x && Xr.is_monotonic_decreasing (y :: a)).
  rewrite IH, andb_true_r.
  apply Qle_bool_iff, Qlt_le_weak. rewrite Forall_forall in Hx. apply Hx. now left.
Qed.

Lemma descending_not_increasing a :
  descending a -> (2 <= length a)%nat -> Xr.is_monotonic_increasing a = false.
Proof.
  intros Hd Hlen. destruct a as [|x [|y a]]; simpl in Hlen; try lia.
  change (Xr.is_monotonic_increasing (x :: y :: a))
    with (Qle_bool x y && Xr.is_monotonic_increasing (y :: a)).
  apply andb_false_iff. left.
  apply Qle_bool_false. inversion Hd as [|? ? _ Hx]; subst.
  rewrite Forall_forall in Hx. apply Hx. now left.
Qed.

Lemma ascending_le a : ascending a -> StronglySorted Qle a.
Proof.
  induction 1 as [|x a Hs IH Hx]; constructor; [assumption|].
  eapply Forall_impl; [|exact Hx]. intros y. apply Qlt_le_weak.
Qed.

Lemma descending_rev_le a : descending a -> StronglySorted Qle (rev a).
Proof.
  intros H. apply ascending_le. unfold ascending.
  apply (StronglySorted_rev (fun x y => y < x) a H).
Qed.

Lemma slice_ascending a lo hi :
  ascending a ->
  exists i0 i1, Xr.slice_locs a lo hi = inr (i0, i1) /\
                Xr.islice i0 i1 a = filter (in_box lo hi) a.
Proof.
  intros Ha. unfold Xr.slice_locs, Xr.get_slice_bound.
  rewrite (ascending_monotonic a Ha). cbn [rbind].
  do 2 eexists. split; [reflexivity|].
  apply islice_increasing. now apply ascending_le.
Qed.

Lemma slice_descending a lo hi :
  descending a -> (2 <= length a)%nat ->
  exists i0 i1, Xr.slice_locs a hi lo = inr (i0, i1) /\
                Xr.islice i0 i1 a = filter (in_box lo hi) a.
Proof.
  intros Hd Hlen. unfold Xr.slice_locs, Xr.get_slice_bound.
  rewrite (descending_not_increasing a Hd Hlen), (descending_monotonic a Hd).
  cbn [rbind]. do 2 eexists. split; [reflexivity|].
  rewrite islice_rev.
  - rewrite (islice_increasing lo hi (rev a) (descending_rev_le a Hd)).
    now rewrite filter_rev', rev_involutive.
  - rewrite <- length_rev. apply searchsorted_left_le.
  - rewrite <- length_rev. apply searchsorted_right_le.
Qed.

Lemma descending_first_last a :
  descending a -> (2 <= length a)%nat ->
  exists first last, hd_error a = Some first /\ hd_error (rev a) = Some last
                     /\ last < first.
Proof.
  intros Hd Hlen. destruct a as [|x [|y a]]; simpl in Hlen; try lia.
  inversion Hd as [|? ? _ Hx]; subst. rewrite Forall_forall in Hx.
  change (rev (x :: y :: a)) with (rev (y :: a) ++ [x]).
  destruct (rev (y :: a)) as [|z r] eqn:Hr.
  - apply (f_equal (@length Q)) in Hr. rewrite length_rev in Hr. discriminate.
  - exists x, z. split; [reflexivity|]. split; [reflexivity|].
    apply Hx. apply in_rev. rewrite Hr. now left.
Qed.

Lemma ascending_first_last a :
  ascending a -> a <> [] ->
  exists first last, hd_error a = Some first /\ hd_error (rev a) = Some last
                     /\ first <= last.
Proof.
  intros Ha Hne. destruct a as [|x a]; [congruence|].
  inversion Ha as [|? ? _ Hx]; subst. rewrite Forall_forall in Hx.
  destruct (rev (x :: a)) as [|z r] eqn:Hr.
  - apply (f_equal (@length Q)) in Hr. rewrite length_rev in Hr. discriminate.
  - exists x, z. split; [reflexivity|]. split; [reflexivity|].
    assert (Hz : In z (x :: a)) by (apply in_rev; rewrite Hr; now left).
    destruct Hz as [<- | Hz]; [apply Qle_refl|]. apply Qlt_le_weak. now apply Hx.
Qed.

Lemma lat_descending_true ds :
  descending (Xr.lat ds) -> (2 <= length (Xr.lat ds))%nat ->
  lat_descending ds = inr true.
Proof.
  intros Hd Hlen. unfold lat_descending.
  destruct (descending_first_last _ Hd Hlen) as (f & l & -> & -> & Hlt).
  f_equal. now apply Qlt_bool_iff.
Qed.

Lemma lat_descending_false ds :
  ascending (Xr.lat ds) -> Xr.lat ds <> [] -> lat_descending ds = inr false.
Proof.
  intros Ha Hne. unfold lat_descending.
  destruct (ascending_first_last _ Ha Hne) as (f & l & -> & -> & Hle).
  f_equal. now apply Qlt_bool_false.
Qed.

Lemma sel_lat da a b c d sub :
  Xr.sel da a b c d = inr sub ->
  exists i0 i1, Xr.slice_locs (Xr.da_lat da) a b = inr (i0, i1) /\
                Xr.da_lat sub = Xr.islice i0 i1 (Xr.da_lat da) /\
                exists j0 j1, Xr.slice_locs (Xr.da_lon da) c d = inr (j0, j1) /\
                  Xr.da_lon sub = Xr.islice j0 j1 (Xr.da_lon da) /\
                  Xr.da_values sub
                  = map (Xr.islice j0 j1) (Xr.islice i0 i1 (Xr.da_values da)).
Proof.
  unfold Xr.sel. destruct (Xr.slice_locs (Xr.da_lat da) a b) as [e|[i0 i1]];
    cbn [rbind]; [discriminate|].
  destruct (Xr.slice_locs (Xr.da_lon da) c d) as [e|[j0 j1]];
    cbn [rbind]; [discriminate|].
  intros [= <-]. exists i0, i1. split; [reflexivity|]. split; [reflexivity|].
  exists j0, j1. repeat split.
Qed.

Lemma getitem_axes ds var da :
  Xr.getitem ds var = inr da ->
  Xr.da_lat da = Xr.lat ds /\ Xr.da_lon da = Xr.lon ds.
Proof.
  unfold Xr.getitem. destruct (lookup var (Xr.data_vars ds)); [|discriminate].
  intros [= <-]. split; reflexivity.
Qed.

(** The swapped bounds are also the ones the grid is built from (lines 131
    and 147): over a descending axis the latitude axis of the grid, from
    the larger bound up to the smaller one, is empty as soon as the bounds
    differ by the margin, and so is the lattice. *)
Lemma swapped_bounds_empty_lattice (selection : Selection) (lon_min' lon_max' : Q) :
  lat_min selection + grid_margin <= lat_max selection ->
  grid_points (fst (lat_bounds true selection)) (snd (lat_bounds true selection))
              lon_min' lon_max' = [].
Proof.
  intros H. rewrite grid_points_prod. cbn [lat_bounds fst snd].
  now rewrite (grid_axis_empty (lat_max selection) (lat_min selection) H).
Qed.

(** ** The longitude convention (C5) *)





(** ** The result table (C6, C10) *)

Lemma before_iff r1 r2 : Pd.before r1 r2 = true <-> row_order r1 r2.
Proof.
  unfold Pd.before, row_order.
  destruct (Qcompare (g_lat r1) (g_lat r2)) eqn:Hc.
  - apply Qeq_alt in Hc. rewrite Qle_bool_iff. split.
    + intros H. right. now split.
    + intros [H | [_ H]]; [|assumption]. rewrite Hc in H. now apply Qlt_irrefl in H.
  - apply Qlt_alt in Hc. split; [discriminate|].
    intros [H | [H _]]; [lra | rewrite H in Hc; now apply Qlt_irrefl in Hc].
  - apply Qgt_alt in Hc. split; [now left | reflexivity].
Qed.

Lemma before_total r1 r2 : Pd.before r1 r2 = false -> row_order r2 r1.
Proof.
  unfold Pd.before, row_order.
  destruct (Qcompare (g_lat r1) (g_lat r2)) eqn:Hc.
  - apply Qeq_alt in Hc. intros H%Qle_bool_false. right. split.
    + now symmetry.
    + now apply Qlt_le_weak.
  - apply Qlt_alt in Hc. now left.
  - discriminate.
Qed.

Lemma row_order_trans r1 r2 r3 :
  row_order r1 r2 -> row_order r2 r3 -> row_order r1 r3.
Proof.
  unfold row_order. intros [H1 | [H1 H1']] [H2 | [H2 H2']].
  - left. lra.
  - left. lra.
  - left. lra.
  - right. split; lra.
Qed.

Lemma insert_perm r l : Permutation (r :: l) (Pd.insert r l).
Proof.
  induction l as [|x l IH]; simpl; [reflexivity|].
  destruct (Pd.before r x); [reflexivity|].
  rewrite perm_swap. now constructor.
Qed.

Lemma sort_values_perm df : Permutation df (Pd.sort_values df).
Proof.
  induction df as [|r df IH]; simpl; [constructor|].
  rewrite <- insert_perm. now constructor.
Qed.

Lemma insert_sorted r l :
  StronglySorted row_order l -> StronglySorted row_order (Pd.insert r l).
Proof.
  induction 1 as [|x l Hs IH Hx]; simpl.
  - repeat constructor.
  - destruct (Pd.before r x) eqn:Hb.
    + apply before_iff in Hb. constructor.
      * now constructor.
      * constructor; [assumption|].
        eapply Forall_impl; [|exact Hx]. intros y. now apply row_order_trans.
    + apply before_total in Hb. constructor; [assumption|].
      apply Forall_forall. intros y Hy.
      apply (Permutation_in _ (Permutation_sym (insert_perm r l))) in Hy.
      destruct Hy as [<- | Hy]; [assumption|].
      rewrite Forall_forall in Hx. now apply Hx.
Qed.

Lemma sort_values_sorted df : StronglySorted row_order (Pd.sort_values df).
Proof.
  induction df as [|r df IH]; simpl; [constructor|]. now apply insert_sorted.
Qed.

Lemma data_frame_rows (grid : list Scipy.point) (gv : list (option Q)) :
  data_frame (map (Np.round 3) (map fst grid)) (map (Np.round 3) (map snd grid)) gv
  = map (fun '(q, v) => row_of q v) (combine grid gv).
Proof.
  revert gv. induction grid as [|q grid IH]; intros [|v gv]; simpl;
    try reflexivity. now rewrite IH.
Qed.

Lemma grid_lat_lon_split a b c d :
  grid_lat_lon a b c d
  = (map fst (grid_points a b c d), map snd (grid_points a b c d)).
Proof.
  unfold grid_points, grid_lat_lon, Np.meshgrid_ij, Np.ravel, Np.c_.
  generalize (grid_axis a b) as lats, (grid_axis c d) as lons.
  intros lats lons.
  assert (Hlen : length (concat (map (fun x => map (fun _ : Q => x) lons) lats))
                 = length (concat (map (fun _ : Q => lons) lats))).
  { induction lats as [|x lats IH]; simpl; [reflexivity|].
    now rewrite !length_app, length_map, IH. }
  revert Hlen.
  generalize (concat (map (fun x => map (fun _ : Q => x) lons) lats)) as u.
  generalize (concat (map (fun _ : Q => lons) lats)) as v.
  intros v u. revert v. induction u as [|x u IH]; intros [|y v] H; simpl in *;
    try discriminate; [reflexivity|].
  injection H as H. specialize (IH v H). injection IH as E1 E2.
  now rewrite <- E1, <- E2.
Qed.

(** Rounding to three decimals: a whole number of thousandths, at most half
    a thousandth away. *)
Lemma round3_spec x :
  exists k : Z, Np.round 3 x == inject_Z k / 1000
                /\ x - (1 # 2000) <= Np.round 3 x
                /\ Np.round 3 x <= x + (1 # 2000).
Proof.
  unfold Np.round. change (inject_Z (10 ^ Z.of_nat 3)) with 1000.
  exists (Np.rint (x * 1000)). split; [reflexivity|].
  unfold Np.rint. set (y := x * 1000). set (f := Qfloor y).
  pose proof (Qfloor_le y) as H1. pose proof (Qlt_floor y) as H2.
  fold f in H1, H2. rewrite inject_Z_plus in H2. change (inject_Z 1) with 1 in H2.
  assert (E : x == y * (1 # 1000)) by (unfold y; field).
  unfold Qdiv. change (/ 1000) with (1 # 1000).
  destruct (Qcompare (y - inject_Z f) (1 # 2)) eqn:Hc.
  - apply Qeq_alt in Hc. destruct (Z.even f).
    + split; lra.
    + rewrite inject_Z_plus. change (inject_Z 1) with 1. split; lra.
  - apply Qlt_alt in Hc. split; lra.
  - apply Qgt_alt in Hc. rewrite inject_Z_plus. change (inject_Z 1) with 1.
    split; lra.
Qed.

(** ** The two passes of the interpolation *)

Lemma masked_assign_fill {A} (f : A -> option Q) (g : A -> option Q) (grid : list A) :
  masked_assign (map f grid) (map isnan (map f grid))
                (map g (boolean_index grid (map isnan (map f grid))))
  = map (fun q => match f q with Some v => Some v | None => g q end) grid.
Proof.
  induction grid as [|q grid IH]; simpl; [reflexivity|].
  destruct (f q) as [v|]; simpl; now rewrite IH.
Qed.

Lemma no_nan_map {A} (f g : A -> option Q) (grid : list A) :
  existsb (fun b => b) (map isnan (map f grid)) = false ->
  map f grid = map (fun q => match f q with Some v => Some v | None => g q end) grid.
Proof.
  induction grid as [|q grid IH]; simpl; [reflexivity|].
  destruct (f q) as [v|]; simpl; [|discriminate].
  intros H. now rewrite IH.
Qed.

Lemma degenerate_iff pts : Scipy.degenerate pts = false <-> has_triangle pts.
Proof.
  unfold Scipy.degenerate, has_triangle. rewrite negb_false_iff, existsb_exists.
  split.
  - intros (a & Ha & (b & Hb & (c & Hc & H)%existsb_exists)%existsb_exists).
    exists a, b, c. repeat split; try assumption.
    apply negb_true_iff in H. intros E. apply Qeq_bool_iff in E. congruence.
  - intros (a & b & c & Ha & Hb & Hc & H). exists a. split; [assumption|].
    apply existsb_exists. exists b. split; [assumption|].
    apply existsb_exists. exists c. split; [assumption|].
    apply negb_true_iff, not_true_iff_false. intros E. apply H.
    now apply Qeq_bool_iff.
Qed.

Lemma has_triangle_nonempty pts : has_triangle pts -> pts <> [].
Proof. intros (a & _ & _ & Ha & _) ->. destruct Ha. Qed.

Lemma griddata_linear_ok delaunay pts vals xi :
  has_triangle pts ->
  Scipy.griddata_linear delaunay pts vals xi
  = inr (map (Scipy.linear_at (delaunay pts) pts vals) xi).
Proof.
  intros H. unfold Scipy.griddata_linear.
  destruct pts as [|p pts]; [now apply has_triangle_nonempty in H|].
  apply degenerate_iff in H. now rewrite H.
Qed.

Lemma griddata_linear_fails delaunay pts vals xi :
  ~ has_triangle pts ->
  Scipy.griddata_linear delaunay pts vals xi = inl QhullError
  \/ Scipy.griddata_linear delaunay pts vals xi = inl (ValueError "No points given").
Proof.
  intros H. unfold Scipy.griddata_linear.
  destruct pts as [|p pts]; [now right|].
  destruct (Scipy.degenerate (p :: pts)) eqn:Hd; [now left|].
  now apply degenerate_iff in Hd.
Qed.

Lemma griddata_nearest_ok pts vals xi :
  pts <> [] ->
  Scipy.griddata_nearest pts vals xi
  = inr (map (fun q => option_map snd (Scipy.nearest_at pts vals q)) xi).
Proof. destruct pts; [congruence | reflexivity]. Qed.

Lemma interpolate_pointwise delaunay df grid :
  has_triangle (points_of df) ->
  interpolate delaunay df grid = inr (map (value_at delaunay df) grid).
Proof.
  intros H. unfold interpolate. fold (points_of df) (values_of df).
  rewrite (griddata_linear_ok _ _ _ _ H). cbn [rbind].
  set (f := Scipy.linear_at (delaunay (points_of df)) (points_of df) (values_of df)).
  set (g := fun q => option_map snd (Scipy.nearest_at (points_of df) (values_of df) q)).
  destruct (existsb _ _) eqn:Hany.
  - rewrite (griddata_nearest_ok _ _ _ (has_triangle_nonempty _ H)).
    cbn [rbind]. f_equal. apply (masked_assign_fill f g grid).
  - f_equal. apply (no_nan_map f g grid Hany).
Qed.

Lemma interpolate_fails delaunay df grid :
  ~ has_triangle (points_of df) ->
  interpolate delaunay df grid = inl QhullError
  \/ interpolate delaunay df grid = inl (ValueError "No points given").
Proof.
  intros H. unfold interpolate. fold (points_of df) (values_of df).
  destruct (griddata_linear_fails delaunay _ (values_of df) grid H) as [-> | ->];
    [left | right]; reflexivity.
Qed.

Lemma nearest_at_some pts vals q :
  pts <> [] -> length vals = length pts ->
  exists d v, Scipy.nearest_at pts vals q = Some (d, v).
Proof.
  destruct pts as [|p pts]; [congruence|]. intros _.
  destruct vals as [|v vals]; [discriminate|]. intros _. simpl.
  destruct (Scipy.nearest_at pts vals q) as [[d w]|].
  - destruct (Qle_bool (Scipy.dist2 p q) d); eauto.
  - eauto.
Qed.

Lemma value_at_defined delaunay df q :
  df <> [] -> value_at delaunay df q <> None.
Proof.
  intros Hne. unfold value_at.
  destruct (Scipy.linear_at _ _ _ _); [discriminate|].
  destruct (nearest_at_some (points_of df) (values_of df) q) as (d & v & ->).
  - unfold points_of. destruct df; [congruence | discriminate].
  - unfold points_of, values_of. now rewrite !length_map.
  - discriminate.
Qed.

(** ** One turn of the loop *)

Lemma combine_fst_snd {A B} (l : list (A * B)) :
  combine (map fst l) (map snd l) = l.
Proof. induction l as [|[a b] l IH]; simpl; [reflexivity | now rewrite IH]. Qed.

Lemma combine_map_r {A B} (f : A -> B) (l : list A) :
  combine l (map f l) = map (fun x => (x, f x)) l.
Proof. induction l as [|a l IH]; simpl; [reflexivity | now rewrite IH]. Qed.

Lemma has_triangle_dec pts : {has_triangle pts} + {~ has_triangle pts}.
Proof.
  destruct (Scipy.degenerate pts) eqn:Hd.
  - right. intros H. apply degenerate_iff in H. congruence.
  - left. now apply degenerate_iff.
Qed.

Lemma grid_df_rows a b c d gv :
  let '(glat, glon) := grid_lat_lon a b c d in
  Np.c_ glat glon = grid_points a b c d /\
  grid_df glat glon gv
  = Pd.sort_values (map (fun '(q, v) => row_of q v)
                        (combine (grid_points a b c d) gv)).
Proof.
  rewrite grid_lat_lon_split. split.
  - apply combine_fst_snd.
  - unfold grid_df. now rewrite data_frame_rows.
Qed.

(** What a successful turn computes. *)
Lemma regrid_inv delaunay ds var a b lo hi table lo' hi' :
  regrid delaunay ds var a b lo hi = inr (table, lo', hi') ->
  exists df0 df,
    clip ds var a b lo hi = inr df0
    /\ normalize_lon df0 lo hi = (df, lo', hi')
    /\ has_triangle (points_of df)
    /\ table = Pd.sort_values
                 (map (fun q => row_of q (value_at delaunay df q))
                      (grid_points a b lo' hi')).
Proof.
  unfold regrid. destruct (clip ds var a b lo hi) as [e|df0]; cbn [rbind];
    [discriminate|].
  destruct (normalize_lon df0 lo hi) as [[df lo1] hi1] eqn:Hn.
  pose proof (grid_df_rows a b lo1 hi1) as Hg.
  destruct (grid_lat_lon a b lo1 hi1) as [glat glon].
  destruct (Hg []) as [Ec _]. rewrite Ec.
  destruct (has_triangle_dec (points_of df)) as [Ht | Ht].
  - rewrite (interpolate_pointwise _ _ _ Ht). cbn [rbind].
    intros [= <- <- <-]. exists df0, df. repeat split; try assumption.
    destruct (Hg (map (value_at delaunay df) (grid_points a b lo1 hi1))) as [_ ->].
    now rewrite combine_map_r, map_map.
  - destruct (interpolate_fails delaunay df (grid_points a b lo1 hi1) Ht)
      as [-> | ->]; discriminate.
Qed.

(** A turn whose clipped points hold no triangle raises. *)
Lemma regrid_degenerate delaunay ds var a b lo hi df0 df lo' hi' :
  clip ds var a b lo hi = inr df0 ->
  normalize_lon df0 lo hi = (df, lo', hi') ->
  ~ has_triangle (points_of df) ->
  regrid delaunay ds var a b lo hi = inl QhullError
  \/ regrid delaunay ds var a b lo hi = inl (ValueError "No points given").
Proof.
  intros Hc Hn Ht. unfold regrid. rewrite Hc. cbn [rbind]. rewrite Hn.
  pose proof (grid_df_rows a b lo' hi' []) as Hg.
  destruct (grid_lat_lon a b lo' hi') as [glat glon]. destruct Hg as [-> _].
  destruct (interpolate_fails delaunay df (grid_points a b lo' hi') Ht)
    as [-> | ->]; [left | right]; reflexivity.
Qed.

(** C6: the table of a turn has one row per lattice point, the row of a
    point carrying its latitude and longitude rounded to three decimals;
    the rows stand with latitude non-increasing and, at equal latitude,
    longitude non-decreasing. *)
Theorem result_table_order
        (delaunay : list Scipy.point -> list Scipy.simplex)
        (ds : Xr.Dataset) (var : string) (lat_min lat_max lon_min lon_max : Q)
        (table : list GridRow) (lon_min' lon_max' : Q) :
  regrid delaunay ds var lat_min lat_max lon_min lon_max
  = inr (table, lon_min', lon_max') ->
  let grid := grid_points lat_min lat_max lon_min' lon_max' in
  StronglySorted row_order table
  /\ length table = length grid
  /\ (exists gv, length gv = length grid /\
                 Permutation table (map (fun '(q, v) => row_of q v) (combine grid gv)))
  /\ (forall r, In r table ->
        exists q, In q grid
          /\ g_lat r = Np.round 3 (fst q) /\ g_lon r = Np.round 3 (snd q))
  /\ (forall x, exists k : Z,
        Np.round 3 x == inject_Z k / 1000
        /\ x - (1 # 2000) <= Np.round 3 x /\ Np.round 3 x <= x + (1 # 2000)).
Proof.
  intros (df0 & df & _ & _ & _ & ->)%regrid_inv grid. fold grid.
  set (rows := map (fun q => row_of q (value_at delaunay df q)) grid).
  pose proof (sort_values_perm rows) as Hp.
  split; [apply sort_values_sorted|].
  split; [|split; [|split]].
  - rewrite <- (Permutation_length Hp). unfold rows. now rewrite length_map.
  - exists (map (value_at delaunay df) grid). split; [now rewrite length_map|].
    rewrite combine_map_r, map_map. now apply Permutation_sym.
  - intros r Hr. apply (Permutation_in _ (Permutation_sym Hp)) in Hr.
    unfold rows in Hr. apply in_map_iff in Hr as (q & <- & Hq).
    exists q. repeat split. assumption.
  - apply round3_spec.
Qed.

(** C10: the rounding to three decimals touches the coordinates of the
    rows only.  The table of a turn holds, for every lattice point, the
    row of its rounded coordinates and of the value of the two passes at
    the point itself, and this table is what is serialised. *)
Theorem values_at_unrounded_points
        (delaunay : list Scipy.point -> list Scipy.simplex)
        (to_excel : list GridRow -> list Byte.byte)
        (ds : Xr.Dataset) (fname : string) (lat_min lat_max : Q)
        (lv lv' : LoopVars) (var : string) :
  process_variable delaunay to_excel ds fname lat_min lat_max lv var = inr lv' ->
  exists df0 df table,
    clip ds var lat_min lat_max (lv_lon_min lv) (lv_lon_max lv) = inr df0
    /\ normalize_lon df0 (lv_lon_min lv) (lv_lon_max lv)
       = (df, lv_lon_min lv', lv_lon_max lv')
    /\ lv_results lv'
       = lv_results lv ++ [{| a_name := out_name fname var;
                              a_content := to_excel table |}]
    /\ Permutation table
         (map (fun q => {| g_lat := Np.round 3 (fst q);
                           g_lon := Np.round 3 (snd q);
                           g_value := value_at delaunay df q |})
              (grid_points lat_min lat_max (lv_lon_min lv') (lv_lon_max lv'))).
Proof.
  unfold process_variable.
  destruct (regrid _ _ _ _ _ _ _) as [e|[[table lo'] hi']] eqn:Hr; cbn [rbind];
    [discriminate|].
  intros [= <-]. cbn [lv_lon_min lv_lon_max lv_results].
  apply regrid_inv in Hr as (df0 & df & Hc & Hn & _ & ->).
  exists df0, df. eexists. repeat split; try eassumption.
  apply Permutation_sym, sort_values_perm.
Qed.

(** ** The remap of the longitudes and the lattice (C5) *)






(** ** The handler and the processing loop (C1, C2, C7, C9) *)

Section BlumFacts.

Variable NETCDF4_AVAILABLE : bool.
Variable decode : engine -> list Byte.byte -> result Xr.Dataset.
Variable delaunay : list Scipy.point -> list Scipy.simplex.
Variable to_excel : list GridRow -> list Byte.byte.

Let open_ := open_with_fallback NETCDF4_AVAILABLE decode.
Let body := try_body NETCDF4_AVAILABLE decode delaunay to_excel.
Let handle := handle_copernicus_file NETCDF4_AVAILABLE decode delaunay to_excel.
Let loop := processing_loop NETCDF4_AVAILABLE decode delaunay to_excel.
Let run := process_all NETCDF4_AVAILABLE decode delaunay to_excel.
Let vars_loop := for_variables delaunay to_excel.
Let turn := process_variable delaunay to_excel.

Let primary_ := primary NETCDF4_AVAILABLE decode.

Lemma open_with_fallback_spec file log :
  open_ file log =
  match primary_ file with
  | inr ds => (inr ds, log ++ [DsOpen (name file) Netcdf4])
  | inl _ =>
      match decode H5netcdf (getvalue file) with
      | inr ds => (inr ds, log ++ [DsOpen (name file) H5netcdf])
      | inl e => (inl e, log)
      end
  end.
Proof.
  unfold open_, open_with_fallback, try_except, primary_, primary,
    xr_open_dataset, raise.
  destruct NETCDF4_AVAILABLE.
  - destruct (decode Netcdf4 (getvalue file)); [|reflexivity].
    destruct (decode H5netcdf (getvalue file)); reflexivity.
  - destruct (decode H5netcdf (getvalue file)); reflexivity.
Qed.

Lemma try_body_spec file selection log :
  body file selection log =
  match open_ file log with
  | (inl e, log1) => (inl e, log1)
  | (inr ds, log1) =>
      match lat_descending ds with
      | inl e => (inl e, log1)
      | inr d =>
          match vars_loop ds (name file) (fst (lat_bounds d selection))
                          (snd (lat_bounds d selection))
                          (variables selection) (loop_start selection) with
          | inl e => (inl e, log1)
          | inr lv => (inr (lv_results lv), log1 ++ [DsClose (name file)])
          end
      end
  end.
Proof.
  unfold body, try_body, bind, lift, ds_close, emit, ret, vars_loop.
  fold open_. destruct (open_ file log) as [[e|ds] log1]; [reflexivity|].
  destruct (lat_descending ds) as [e|d]; [reflexivity|].
  destruct (lat_bounds d selection) as [a b]. cbn [fst snd].
  destruct (for_variables _ _ _ _ _ _ _ _) as [e|lv]; reflexivity.
Qed.

Lemma handle_spec file selection log :
  handle file selection log =
  match body file selection log with
  | (inl e, log1) => (inr None, log1 ++ [StError (name file) e])
  | (inr results, log1) => (inr (Some results), log1)
  end.
Proof.
  unfold handle, handle_copernicus_file, try_except, bind, emit, ret.
  fold body. destruct (body file selection log) as [[e|r] log1]; reflexivity.
Qed.

(** The handler never raises. *)
Lemma handle_total file selection log :
  exists results log', handle file selection log = (inr results, log').
Proof.
  rewrite handle_spec. destruct (body file selection log) as [[e|r] log1]; eauto.
Qed.

Lemma open_appends file : appends (open_ file).
Proof.
  intros log. rewrite !open_with_fallback_spec.
  destruct (primary_ file); [|reflexivity].
  destruct (decode H5netcdf (getvalue file)); [|reflexivity].
  simpl. now rewrite app_nil_r.
Qed.

Lemma body_appends file selection : appends (body file selection).
Proof.
  intros log. rewrite !try_body_spec, (open_appends file log).
  destruct (open_ file []) as [[e|ds] evs]; cbn [fst snd]; [reflexivity|].
  destruct (lat_descending ds) as [e|d]; [reflexivity|].
  destruct (vars_loop _ _ _ _ _ _) as [e|lv]; cbn [fst snd]; [reflexivity|].
  now rewrite app_assoc.
Qed.

Lemma handle_appends file selection : appends (handle file selection).
Proof.
  intros log. rewrite !handle_spec, (body_appends file selection log).
  destruct (body file selection []) as [[e|r] evs]; cbn [fst snd];
    [|reflexivity].
  now rewrite app_assoc.
Qed.

Let own := file_artifacts NETCDF4_AVAILABLE decode delaunay to_excel.

(** One turn of the loop over the files. *)
Lemma processing_loop_cons sels file files idx total acc log :
  loop sels (file :: files) idx total acc log =
  match lookup (name file) sels with
  | Some selection =>
      loop sels files (S idx) total (acc ++ own sels file)
           (snd (handle file selection (log ++ [StInfo (name file)]))
              ++ [StProgress idx total])
  | None =>
      loop sels files (S idx) total (acc ++ own sels file)
           (log ++ [StInfo (name file); StWarning (name file);
                    StProgress idx total])
  end.
Proof.
  unfold own, file_artifacts.
  cbn [loop processing_loop]. unfold bind at 1. unfold emit at 1.
  unfold bind at 1.
  destruct (lookup (name file) sels) as [selection|].
  - unfold bind at 1. fold handle.
    rewrite (handle_appends file selection (log ++ [StInfo (name file)])).
    destruct (handle_total file selection []) as (r & evs & E).
    rewrite E. cbn [fst snd]. unfold ret at 1. unfold bind at 1, emit at 1.
    fold loop. f_equal.
    destruct r as [[|a r]|]; cbn [truthy]; now rewrite ?app_nil_r.
  - unfold bind at 1, emit at 1, ret at 1. unfold bind at 1, emit at 1.
    fold loop. rewrite app_nil_r, <- !app_assoc. reflexivity.
Qed.

(** The loop never raises, and its artifacts are those of each file on
    its own, in the order of the upload. *)
Lemma processing_loop_artifacts sels files idx total acc log :
  fst (loop sels files idx total acc log)
  = inr (acc ++ flat_map (own sels) files).
Proof.
  revert idx acc log. induction files as [|file files IH]; intros idx acc log.
  - simpl. now rewrite app_nil_r.
  - rewrite processing_loop_cons.
    destruct (lookup (name file) sels); rewrite IH; simpl;
      now rewrite app_assoc.
Qed.

Lemma processing_loop_log sels files idx total acc log :
  exists evs, snd (loop sels files idx total acc log) = log ++ evs.
Proof.
  revert idx acc log. induction files as [|file files IH]; intros idx acc log.
  - exists []. simpl. now rewrite app_nil_r.
  - rewrite processing_loop_cons.
    destruct (lookup (name file) sels) as [selection|].
    + rewrite (handle_appends file selection).
      cbn [snd].
      destruct (IH (S idx) (acc ++ own sels file)
                   (((log ++ [StInfo (name file)])
                       ++ snd (handle file selection []))
                      ++ [StProgress idx total])) as (evs & ->).
      eexists. rewrite <- !app_assoc. reflexivity.
    + destruct (IH (S idx) (acc ++ own sels file)
                   (log ++ [StInfo (name file); StWarning (name file);
                            StProgress idx total])) as (evs & ->).
      eexists. rewrite <- !app_assoc. reflexivity.
Qed.

(** The events of a file with a selection are in the log of the batch. *)
Lemma processing_loop_events sels fs1 file fs2 selection ev :
  lookup (name file) sels = Some selection ->
  In ev (snd (handle file selection [])) ->
  forall idx total acc log,
    In ev (snd (loop sels (fs1 ++ file :: fs2) idx total acc log)).
Proof.
  intros Hsel Hev. induction fs1 as [|f fs1 IH]; intros idx total acc log.
  - cbn [app]. rewrite processing_loop_cons, Hsel.
    rewrite (handle_appends file selection). cbn [snd].
    match goal with
    | |- In ev (snd (loop sels fs2 ?i ?t ?a ?l)) =>
        destruct (processing_loop_log sels fs2 i t a l) as (evs & ->)
    end.
    rewrite !in_app_iff. left. left. right. exact Hev.
  - cbn [app]. rewrite processing_loop_cons.
    destruct (lookup (name f) sels); apply IH.
Qed.

Lemma process_all_spec sels files log :
  run sels files log =
  (fst (loop sels files 1 (length files) [] log),
   snd (loop sels files 1 (length files) [] log)
     ++ [StSuccess (length (flat_map (own sels) files)); StSnow]).
Proof.
  unfold run, process_all, bind. fold loop.
  pose proof (processing_loop_artifacts sels files 1 (length files) [] log) as E.
  destruct (loop sels files 1 (length files) [] log) as [r l].
  cbn [fst snd] in *. subst r. cbn [app]. unfold emit, ret.
  now rewrite <- app_assoc.
Qed.

Lemma flat_map_skip sels fs1 file fs2 :
  own sels file = [] ->
  flat_map (own sels) (fs1 ++ file :: fs2) = flat_map (own sels) (fs1 ++ fs2).
Proof.
  intros E. rewrite !flat_map_app. cbn [flat_map]. now rewrite E.
Qed.

Lemma for_variables_app ds fname a b vs1 vs2 lv :
  vars_loop ds fname a b (vs1 ++ vs2) lv
  = rbind (vars_loop ds fname a b vs1 lv)
          (fun lv1 => vars_loop ds fname a b vs2 lv1).
Proof.
  revert lv. induction vs1 as [|v vs1 IH]; intros lv; [reflexivity|].
  cbn [app vars_loop for_variables].
  destruct (process_variable _ _ _ _ _ _ _ _) as [e|lv']; cbn [rbind];
    [reflexivity|]. apply IH.
Qed.

(** A turn that raises ends the loop over the variables with its
    exception, whatever the turns before it produced. *)
Lemma for_variables_raises ds fname a b vs1 v vs2 lv lv1 e :
  vars_loop ds fname a b vs1 lv = inr lv1 ->
  turn ds fname a b lv1 v = inl e ->
  vars_loop ds fname a b (vs1 ++ v :: vs2) lv = inl e.
Proof.
  intros H1 H2. rewrite for_variables_app, H1. cbn [rbind].
  cbn [vars_loop for_variables]. fold turn. now rewrite H2.
Qed.

(** The failure of one (file, variable) unit: reported once, with the
    name of the file and the exception of the unit, and the file gives
    [None]. *)
Lemma unit_failure file selection log ds log1 d vs1 v vs2 lv1 e :
  open_ file log = (inr ds, log1) ->
  lat_descending ds = inr d ->
  variables selection = vs1 ++ v :: vs2 ->
  vars_loop ds (name file) (fst (lat_bounds d selection))
            (snd (lat_bounds d selection)) vs1 (loop_start selection)
  = inr lv1 ->
  turn ds (name file) (fst (lat_bounds d selection))
       (snd (lat_bounds d selection)) lv1 v = inl e ->
  handle file selection log = (inr None, log1 ++ [StError (name file) e]).
Proof.
  intros Ho Hd Hv Hl Ht. rewrite handle_spec, try_body_spec, Ho, Hd, Hv.
  now rewrite (for_variables_raises _ _ _ _ _ _ _ _ _ _ Hl Ht).
Qed.

Lemma handle_none_reports file selection log :
  fst (handle file selection log) = inr None ->
  exists e, In (StError (name file) e) (snd (handle file selection log)).
Proof.
  rewrite handle_spec.
  destruct (body file selection log) as [[e|r] log1]; cbn [fst snd];
    [|discriminate].
  intros _. exists e. apply in_app_iff. right. now left.
Qed.

Lemma own_none sels file selection :
  lookup (name file) sels = Some selection ->
  fst (handle file selection []) = inr None ->
  own sels file = [].
Proof.
  intros Hs Hn. unfold own, file_artifacts. fold handle. now rewrite Hs, Hn.
Qed.

(** When the dataset was opened and the body of the [try] raises, the
    events of the call are the opening and the report: the handle is not
    closed. *)
Lemma error_path_leaves_handle_open file selection log ds log1 e log2 :
  open_ file log = (inr ds, log1) ->
  body file selection log = (inl e, log2) ->
  exists eng,
    handle file selection log
    = (inr None, log ++ [DsOpen (name file) eng; StError (name file) e]).
Proof.
  intros Ho Hb. rewrite handle_spec, Hb.
  rewrite try_body_spec, Ho in Hb.
  assert (E : log2 = log1).
  { destruct (lat_descending ds) as [e'|d]; [congruence|].
    destruct (vars_loop _ _ _ _ _ _) as [e'|lv]; congruence. }
  subst log2. rewrite open_with_fallback_spec in Ho.
  destruct (primary_ file) as [e1|ds1].
  - destruct (decode H5netcdf (getvalue file)) as [e2|ds2]; [discriminate|].
    injection Ho as _ <-. exists H5netcdf. now rewrite <- app_assoc.
  - injection Ho as _ <-. exists Netcdf4. now rewrite <- app_assoc.
Qed.

(** C1, as the code has it: the handler never raises.  A unit that fails
    is reported once, with the name of its file and the exception that
    made it fail, and its file gives no artifact at all; the artifacts of
    the batch are those each file gives on its own, in the order of the
    upload, so a file that fails changes nothing for the other files. *)
Theorem failure_is_per_file (sels : list (string * Selection))
        (files : list UploadedFile) (log : list event) :
  fst (run sels files log) = inr (flat_map (own sels) files)
  /\ (forall file selection log0,
        exists results log', handle file selection log0 = (inr results, log'))
  /\ (forall file selection log0 ds log1 d vs1 v vs2 lv1 e,
        open_ file log0 = (inr ds, log1) ->
        lat_descending ds = inr d ->
        variables selection = vs1 ++ v :: vs2 ->
        vars_loop ds (name file) (fst (lat_bounds d selection))
                  (snd (lat_bounds d selection)) vs1 (loop_start selection)
        = inr lv1 ->
        turn ds (name file) (fst (lat_bounds d selection))
             (snd (lat_bounds d selection)) lv1 v = inl e ->
        handle file selection log0
        = (inr None, log1 ++ [StError (name file) e]))
  /\ (forall fs1 file fs2 selection,
        files = fs1 ++ file :: fs2 ->
        lookup (name file) sels = Some selection ->
        fst (handle file selection []) = inr None ->
        fst (run sels files log) = fst (run sels (fs1 ++ fs2) log)
        /\ exists e, In (StError (name file) e) (snd (run sels files log))).
Proof.
  split; [|split; [|split]].
  - rewrite process_all_spec. cbn [fst]. apply processing_loop_artifacts.
  - intros file selection log0. apply handle_total.
  - intros file selection log0 ds log1 d vs1 v vs2 lv1 e.
    apply unit_failure.
  - intros fs1 file fs2 selection -> Hs Hn. split.
    + rewrite !process_all_spec. cbn [fst].
      rewrite !processing_loop_artifacts. f_equal. cbn [app].
      apply flat_map_skip. now apply (own_none sels file selection).
    + destruct (handle_none_reports file selection [] Hn) as (e & He).
      exists e. rewrite process_all_spec. cbn [snd]. apply in_app_iff. left.
      now apply (processing_loop_events sels fs1 file fs2 selection).
Qed.

(** C9: the reader opens the file with netCDF4 when that backend is
    available and decodes it, and with h5netcdf in every other case; it
    fails only when both attempts fail, with the exception of h5netcdf.
    That failure is reported with the name of the file and this
    exception, the file gives no artifact, and the batch gives the
    artifacts of the other files. *)
Theorem reader_fallback (file : UploadedFile) (selection : Selection)
        (log : list event) :
  open_ file log
  = match primary_ file with
    | inr ds => (inr ds, log ++ [DsOpen (name file) Netcdf4])
    | inl _ =>
        match decode H5netcdf (getvalue file) with
        | inr ds => (inr ds, log ++ [DsOpen (name file) H5netcdf])
        | inl e => (inl e, log)
        end
    end
  /\ (forall e,
        fst (open_ file log) = inl e <->
        (exists e1, primary_ file = inl e1)
        /\ decode H5netcdf (getvalue file) = inl e)
  /\ (forall e1 e2,
        primary_ file = inl e1 ->
        decode H5netcdf (getvalue file) = inl e2 ->
        handle file selection log = (inr None, log ++ [StError (name file) e2])
        /\ forall sels fs1 fs2,
             lookup (name file) sels = Some selection ->
             fst (run sels (fs1 ++ file :: fs2) log)
             = fst (run sels (fs1 ++ fs2) log)).
Proof.
  split; [apply open_with_fallback_spec|]. split.
  - intros e. rewrite open_with_fallback_spec.
    destruct (primary_ file) as [e1|ds]; cbn [fst].
    + destruct (decode H5netcdf (getvalue file)) as [e2|ds]; cbn [fst].
      * split; [intros [= ->]; eauto | intros [_ [= ->]]; reflexivity].
      * split; [discriminate | intros [_ H]; discriminate].
    + split; [discriminate | intros [[e1 H] _]; discriminate].
  - intros e1 e2 H1 H2.
    assert (Hh : forall log0, handle file selection log0
                              = (inr None, log0 ++ [StError (name file) e2])).
    { intros log0. rewrite handle_spec, try_body_spec, open_with_fallback_spec.
      now rewrite H1, H2. }
    split; [apply Hh|].
    intros sels fs1 fs2 Hs. rewrite !process_all_spec. cbn [fst].
    rewrite !processing_loop_artifacts. f_equal. cbn [app].
    apply flat_map_skip. apply (own_none sels file selection Hs).
    now rewrite Hh.
Qed.

(** C2: when three of the clipped points are not on one line, the two
    passes give every lattice point a value and none of them is missing.
    When there are no such three points, which covers the empty set, the
    interpolation raises, the failure is reported with the name of the
    file, and the handler returns [None]: no table is produced. *)
Theorem interpolation_defined_or_fails (df : list ScatterPoint)
        (grid : list Scipy.point) :
  (has_triangle (points_of df) ->
   exists gv, interpolate delaunay df grid = inr gv
              /\ length gv = length grid
              /\ forall v, In v gv -> v <> None)
  /\ (df = [] -> ~ has_triangle (points_of df))
  /\ (~ has_triangle (points_of df) ->
      (interpolate delaunay df grid = inl QhullError
       \/ interpolate delaunay df grid = inl (ValueError "No points given"))
      /\ forall file selection log ds log1 d vs1 v vs2 lv1 df0 lo hi,
           open_ file log = (inr ds, log1) ->
           lat_descending ds = inr d ->
           variables selection = vs1 ++ v :: vs2 ->
           vars_loop ds (name file) (fst (lat_bounds d selection))
                     (snd (lat_bounds d selection)) vs1 (loop_start selection)
           = inr lv1 ->
           clip ds v (fst (lat_bounds d selection))
                (snd (lat_bounds d selection))
                (lv_lon_min lv1) (lv_lon_max lv1) = inr df0 ->
           normalize_lon df0 (lv_lon_min lv1) (lv_lon_max lv1) = (df, lo, hi) ->
           exists e,
             (e = QhullError \/ e = ValueError "No points given")
             /\ handle file selection log
                = (inr None, log1 ++ [StError (name file) e])).
Proof.
  split; [|split].
  - intros Ht. exists (map (value_at delaunay df) grid).
    split; [now apply interpolate_pointwise|].
    split; [now rewrite length_map|].
    intros v (q & <- & _)%in_map_iff. apply value_at_defined.
    intros ->. now apply has_triangle_nonempty in Ht.
  - intros -> Ht. now apply has_triangle_nonempty in Ht.
  - intros Ht. split; [now apply interpolate_fails|].
    intros file selection log ds log1 d vs1 v vs2 lv1 df0 lo hi
           Ho Hd Hv Hl Hc Hn.
    assert (He : exists e,
               (e = QhullError \/ e = ValueError "No points given")
               /\ turn ds (name file) (fst (lat_bounds d selection))
                       (snd (lat_bounds d selection)) lv1 v = inl e).
    { unfold turn, process_variable.
      destruct (regrid_degenerate delaunay _ _ _ _ _ _ _ _ _ _ Hc Hn Ht)
        as [-> | ->]; eexists; (split; [|reflexivity]); auto. }
    destruct He as (e & He & Hturn). exists e. split; [exact He|].
    now apply (unit_failure file selection log ds log1 d vs1 v vs2 lv1 e).
Qed.

End BlumFacts.

(** ** The linear pass on the source points (C8) *)

Lemma orient_same a b c a' b' c' :
  same_point a a' -> same_point b b' -> same_point c c' ->
  Scipy.orient a b c == Scipy.orient a' b' c'.
Proof.
  intros [Ha1 Ha2] [Hb1 Hb2] [Hc1 Hc2]. unfold Scipy.orient.
  now rewrite Ha1, Ha2, Hb1, Hb2, Hc1, Hc2.
Qed.

Lemma same_point_refl p : same_point p p.
Proof. split; reflexivity. Qed.

Lemma orient_aac a c : Scipy.orient a a c == 0.
Proof. unfold Scipy.orient. ring. Qed.

Lemma orient_aba a b : Scipy.orient a b a == 0.
Proof. unfold Scipy.orient. ring. Qed.

Lemma orient_abb a b : Scipy.orient a b b == 0.
Proof. unfold Scipy.orient. ring. Qed.

Lemma barycentric_some a b c q :
  ~ Scipy.orient a b c == 0 ->
  Scipy.barycentric a b c q
  = Some (1 - Scipy.orient a q c / Scipy.orient a b c
            - Scipy.orient a b q / Scipy.orient a b c,
          Scipy.orient a q c / Scipy.orient a b c,
          Scipy.orient a b q / Scipy.orient a b c).
Proof.
  intros Hd. unfold Scipy.barycentric.
  destruct (Qeq_bool (Scipy.orient a b c) 0) eqn:E; [|reflexivity].
  now apply Qeq_bool_iff in E.
Qed.

Lemma barycentric_none a b c q :
  Scipy.orient a b c == 0 -> Scipy.barycentric a b c q = None.
Proof.
  intros Hd. unfold Scipy.barycentric.
  now rewrite (proj2 (Qeq_bool_iff _ _) Hd).
Qed.

(** The weights of [q] at a vertex of the triangle. *)
Lemma weights_at_vertex a b c q :
  ~ Scipy.orient a b c == 0 ->
  (same_point a q ->
   Scipy.orient a q c / Scipy.orient a b c == 0
   /\ Scipy.orient a b q / Scipy.orient a b c == 0)
  /\ (same_point b q ->
      Scipy.orient a q c / Scipy.orient a b c == 1
      /\ Scipy.orient a b q / Scipy.orient a b c == 0)
  /\ (same_point c q ->
      Scipy.orient a q c / Scipy.orient a b c == 0
      /\ Scipy.orient a b q / Scipy.orient a b c == 1).
Proof.
  intros Hd. split; [|split]; intros Hq.
  - rewrite <- (orient_same a a c a q c), <- (orient_same a b a a b q);
      try (apply same_point_refl || exact Hq).
    rewrite orient_aac, orient_aba. split; field; exact Hd.
  - rewrite <- (orient_same a b c a q c), <- (orient_same a b b a b q);
      try (apply same_point_refl || exact Hq).
    rewrite orient_abb. split; field; exact Hd.
  - rewrite <- (orient_same a c c a q c), <- (orient_same a b c a b q);
      try (apply same_point_refl || exact Hq).
    rewrite orient_abb. split; field; exact Hd.
Qed.

Lemma inside_same a b c p q :
  same_point p q -> inside a b c q -> inside a b c p.
Proof.
  intros Hpq (Hd & H1 & H2 & H3). unfold inside.
  rewrite (orient_same a p c a q c), (orient_same a b p a b q);
    try (apply same_point_refl || exact Hpq).
  repeat split; assumption.
Qed.

Lemma eval_simplex_inv pts vals q i j k v :
  Scipy.eval_simplex pts vals q (i, j, k) = Some v ->
  exists a b c,
    nth_error pts i = Some a /\ nth_error pts j = Some b
    /\ nth_error pts k = Some c /\ inside a b c q.
Proof.
  unfold Scipy.eval_simplex.
  destruct (nth_error pts i) as [a|]; [|discriminate].
  destruct (nth_error pts j) as [b|]; [|discriminate].
  destruct (nth_error pts k) as [c|]; [|discriminate].
  destruct (nth_error vals i) as [va|]; [|discriminate].
  destruct (nth_error vals j) as [vb|]; [|discriminate].
  destruct (nth_error vals k) as [vc|]; [|discriminate].
  destruct (Qeq_dec (Scipy.orient a b c) 0) as [Hd | Hd].
  - now rewrite (barycentric_none a b c q Hd).
  - rewrite (barycentric_some a b c q Hd).
    destruct (Qle_bool 0 _) eqn:H1; [|discriminate].
    destruct (Qle_bool 0 (Scipy.orient a q c / _)) eqn:H2; [|discriminate].
    destruct (Qle_bool 0 (Scipy.orient a b q / _)) eqn:H3; [|discriminate].
    intros _. exists a, b, c. repeat split; try assumption;
      now apply Qle_bool_iff.
Qed.

(** At a vertex of a simplex the interpolant is the value of the vertex. *)
Lemma eval_simplex_vertex pts vals q i j k a b c va vb vc m p w :
  nth_error pts i = Some a -> nth_error pts j = Some b ->
  nth_error pts k = Some c ->
  nth_error vals i = Some va -> nth_error vals j = Some vb ->
  nth_error vals k = Some vc ->
  ~ Scipy.orient a b c == 0 ->
  nth_error pts m = Some p -> nth_error vals m = Some w ->
  same_point p q ->
  m = i \/ m = j \/ m = k ->
  exists v, Scipy.eval_simplex pts vals q (i, j, k) = Some v /\ v == w.
Proof.
  intros Ha Hb Hc Hva Hvb Hvc Hd Hp Hw Hpq Hm.
  unfold Scipy.eval_simplex. rewrite Ha, Hb, Hc, Hva, Hvb, Hvc.
  rewrite (barycentric_some a b c q Hd).
  destruct (weights_at_vertex a b c q Hd) as (Wa & Wb & Wc).
  assert (T : forall wb wc,
             Scipy.orient a q c / Scipy.orient a b c == wb ->
             Scipy.orient a b q / Scipy.orient a b c == wc ->
             0 <= wb -> 0 <= wc -> 0 <= 1 - wb - wc ->
             Qle_bool 0 (1 - Scipy.orient a q c / Scipy.orient a b c
                           - Scipy.orient a b q / Scipy.orient a b c)
             && Qle_bool 0 (Scipy.orient a q c / Scipy.orient a b c)
             && Qle_bool 0 (Scipy.orient a b q / Scipy.orient a b c) = true).
  { intros wb wc E1 E2 H1 H2 H3.
    rewrite !andb_true_iff, !Qle_bool_iff, E1, E2. repeat split; assumption. }
  destruct Hm as [-> | [-> | ->]].
  - assert (p = a) by congruence. assert (w = va) by congruence. subst.
    destruct (Wa Hpq) as [E1 E2].
    rewrite (T 0 0 E1 E2) by discriminate.
    eexists. split; [reflexivity|]. rewrite E1, E2. ring.
  - assert (p = b) by congruence. assert (w = vb) by congruence. subst.
    destruct (Wb Hpq) as [E1 E2].
    rewrite (T 1 0 E1 E2) by discriminate.
    eexists. split; [reflexivity|]. rewrite E1, E2. ring.
  - assert (p = c) by congruence. assert (w = vc) by congruence. subst.
    destruct (Wc Hpq) as [E1 E2].
    rewrite (T 0 1 E1 E2) by discriminate.
    eexists. split; [reflexivity|]. rewrite E1, E2. ring.
Qed.

Lemma linear_at_first tri pts vals q v :
  Scipy.linear_at tri pts vals q = Some v ->
  exists s, In s tri /\ Scipy.eval_simplex pts vals q s = Some v.
Proof.
  induction tri as [|s tri IH]; simpl; [discriminate|].
  destruct (Scipy.eval_simplex pts vals q s) as [v'|] eqn:E.
  - intros [= <-]. exists s. split; [now left | assumption].
  - intros (s' & Hs & Hv)%IH. exists s'. split; [now right | assumption].
Qed.

Lemma linear_at_covers tri pts vals q s v :
  In s tri -> Scipy.eval_simplex pts vals q s = Some v ->
  exists v', Scipy.linear_at tri pts vals q = Some v'.
Proof.
  induction tri as [|s' tri IH]; intros Hs Hv; [destruct Hs|].
  simpl. destruct Hs as [-> | Hs].
  - rewrite Hv. eauto.
  - destruct (Scipy.eval_simplex pts vals q s'); eauto.
Qed.

Lemma nth_error_defined {A} (l : list A) m :
  (m < length l)%nat -> exists x, nth_error l m = Some x.
Proof.
  intros H. destruct (nth_error l m) eqn:E; [eauto|].
  apply nth_error_None in E. lia.
Qed.

(** On a triangulation, the interpolant at the place of a source point is
    the value of that point. *)
Lemma linear_at_source tri pts vals q m p w :
  length vals = length pts -> triangulation pts tri ->
  nth_error pts m = Some p -> nth_error vals m = Some w -> same_point p q ->
  exists v, Scipy.linear_at tri pts vals q = Some v /\ v == w.
Proof.
  intros Hlen (Hflat & Hcover & Hvertex) Hp Hw Hpq.
  assert (Hm : (m < length pts)%nat)
    by (apply nth_error_Some; congruence).
  (* the value in any simplex that holds [q] *)
  assert (Hany : forall s v, In s tri ->
                   Scipy.eval_simplex pts vals q s = Some v -> v == w).
  { intros [[i j] k] v Hs Hv.
    destruct (eval_simplex_inv _ _ _ _ _ _ _ Hv) as (a & b & c & Ha & Hb & Hc & Hin).
    pose proof (Hvertex i j k m a b c p Hs Ha Hb Hc Hp
                        (inside_same a b c p q Hpq Hin)) as Hmv.
    destruct (nth_error_defined vals i) as (va & Hva);
      [rewrite Hlen; apply nth_error_Some; congruence|].
    destruct (nth_error_defined vals j) as (vb & Hvb);
      [rewrite Hlen; apply nth_error_Some; congruence|].
    destruct (nth_error_defined vals k) as (vc & Hvc);
      [rewrite Hlen; apply nth_error_Some; congruence|].
    destruct Hin as (Hd & _).
    destruct (eval_simplex_vertex pts vals q i j k a b c va vb vc m p w
                Ha Hb Hc Hva Hvb Hvc Hd Hp Hw Hpq Hmv) as (v' & Hv' & E).
    rewrite Hv in Hv'. injection Hv' as ->. exact E. }
  (* a simplex that holds [q] *)
  destruct (Hcover m Hm) as (i & j & k & Hs & Hmv).
  destruct (Hflat i j k Hs) as (a & b & c & Ha & Hb & Hc & Hd).
  destruct (nth_error_defined vals i) as (va & Hva);
    [rewrite Hlen; apply nth_error_Some; congruence|].
  destruct (nth_error_defined vals j) as (vb & Hvb);
    [rewrite Hlen; apply nth_error_Some; congruence|].
  destruct (nth_error_defined vals k) as (vc & Hvc);
    [rewrite Hlen; apply nth_error_Some; congruence|].
  destruct (eval_simplex_vertex pts vals q i j k a b c va vb vc m p w
              Ha Hb Hc Hva Hvb Hvc Hd Hp Hw Hpq Hmv) as (v0 & Hv0 & _).
  destruct (linear_at_covers tri pts vals q _ _ Hs Hv0) as (v & Hv).
  exists v. split; [assumption|].
  destruct (linear_at_first _ _ _ _ _ Hv) as (s & Hs' & Hev).
  now apply (Hany s v).
Qed.

Lemma In_nth_source df p :
  In p df ->
  exists m, nth_error (points_of df) m = Some (sp_lat p, sp_lon p)
            /\ nth_error (values_of df) m = Some (sp_value p).
Proof.
  intros (m & Hm)%In_nth_error. exists m. unfold points_of, values_of.
  now rewrite !nth_error_map, Hm.
Qed.

(** C8, as the code has it: when three of the source points are not on one
    line, so that Qhull triangulates them, and every lattice point is the
    place of a source point, the linear pass gives every lattice point the
    value of the source point at that place. *)
Theorem linear_pass_reproduces_sources
        (delaunay : list Scipy.point -> list Scipy.simplex)
        (df : list ScatterPoint) (grid : list Scipy.point) :
  has_triangle (points_of df) ->
  triangulation (points_of df) (delaunay (points_of df)) ->
  (forall q, In q grid ->
     exists p, In p df /\ same_point (sp_lat p, sp_lon p) q) ->
  exists gv,
    Scipy.griddata_linear delaunay (points_of df) (values_of df) grid = inr gv
    /\ interpolate delaunay df grid = inr gv
    /\ Forall2 (fun q v =>
                  forall p, In p df -> same_point (sp_lat p, sp_lon p) q ->
                            exists v', v = Some v' /\ v' == sp_value p)
               grid gv.
Proof.
  intros Ht Htri Hgrid.
  set (f := Scipy.linear_at (delaunay (points_of df)) (points_of df) (values_of df)).
  assert (Hf : forall q p, In p df -> same_point (sp_lat p, sp_lon p) q ->
                           exists v', f q = Some v' /\ v' == sp_value p).
  { intros q p Hp Hpq. destruct (In_nth_source df p Hp) as (m & Hm & Hw).
    apply (linear_at_source _ _ _ q m (sp_lat p, sp_lon p)); try assumption.
    unfold points_of, values_of. now rewrite !length_map. }
  exists (map f grid). split; [now apply griddata_linear_ok|]. split.
  - rewrite (interpolate_pointwise delaunay df grid Ht). f_equal.
    apply map_ext_in. intros q Hq. unfold value_at. fold f.
    destruct (Hgrid q Hq) as (p & Hp & Hpq).
    destruct (Hf q p Hp Hpq) as (v' & -> & _). reflexivity.
  - clear Hgrid. induction grid as [|q grid IH]; simpl; constructor.
    + intros p Hp Hpq. now apply Hf.
    + exact IH.
Qed.

Lemma linear_pass_reproduces_sources_witness :
  exists gv,
    Scipy.griddata_linear delaunay_triangle (points_of triangle_df)
                          (values_of triangle_df) [(0, 0); (1, 0)] = inr gv
    /\ interpolate delaunay_triangle triangle_df [(0, 0); (1, 0)] = inr gv
    /\ Forall2 (fun q v =>
                  forall p, In p triangle_df ->
                            same_point (sp_lat p, sp_lon p) q ->
                            exists v', v = Some v' /\ v' == sp_value p)
               [(0, 0); (1, 0)] gv.
Proof.
  apply (linear_pass_reproduces_sources delaunay_triangle triangle_df).
  - exists (0, 0), (0, 1), (1, 0). simpl. intuition discriminate.
  - split; [|split].
    + intros i j k [[= <- <- <-] | []].
      exists (0, 0), (0, 1), (1, 0). simpl. intuition discriminate.
    + intros m Hm. exists O, 1%nat, 2%nat. split; [now left|].
      simpl in Hm. lia.
    + intros i j k m a b c p [[= <- <- <-] | []] _ _ _ Hp _.
      assert (Hm : (m < 3)%nat)
        by (apply (proj1 (nth_error_Some (points_of triangle_df) m)); congruence).
      lia.
  - intros q [<- | [<- | []]].
    + eexists. split; [left; reflexivity | split; reflexivity].
    + eexists. split; [right; right; left; reflexivity | split; reflexivity].
Defined.

(** C8 as stated fails: the one lattice point of the box [0, 0] x [0, 0] is
    the place of the one source point the box clips from [square], and the
    linear pass gives it no value: Qhull has no simplex to start from and
    the turn raises. *)
Lemma linear_pass_raises_on_single_point :
  clip square "sst" 0 0 0 0 = inr single_df
  /\ map (fun q => (Qred (fst q), Qred (snd q))) (grid_points 0 0 0 0) = [(0, 0)]
  /\ (forall q, In q (grid_points 0 0 0 0) ->
        exists p, In p single_df /\ same_point (sp_lat p, sp_lon p) q)
  /\ Scipy.griddata_linear delaunay_square (points_of single_df)
                           (values_of single_df) (grid_points 0 0 0 0)
     = inl QhullError
  /\ regrid delaunay_square square "sst" 0 0 0 0 = inl QhullError.
Proof.
  split; [reflexivity|]. split; [reflexivity|]. split.
  - intros q Hq. vm_compute in Hq. destruct Hq as [<- | []].
    eexists. split; [left; reflexivity | split; reflexivity].
  - split; reflexivity.
Qed.

(** ** Runs on concrete inputs *)

(** C1 as stated fails: the unit (a.nc, sst) succeeds when it is the only
    selected variable, but with the variable [sal], which is missing
    everywhere, selected in the same file the batch gives no artifact at
    all, whether [sal] comes after [sst] or before it. *)
Lemma failed_variable_discards_file :
  fst (handle_copernicus_file true decode_square delaunay_square excel_rows
         file_a (select ["sst"%string]) [])
  = inr (Some [artifact_a_sst])
  /\ fst (process_all true decode_square delaunay_square excel_rows
            [("a.nc"%string, select ["sst"; "sal"]%string)] [file_a] [])
     = inr []
  /\ fst (process_all true decode_square delaunay_square excel_rows
            [("a.nc"%string, select ["sal"; "sst"]%string)] [file_a] [])
     = inr [].
Proof. repeat split; vm_compute; reflexivity. Qed.

Lemma failure_is_per_file_witness :
  (fst (process_all true decode_square delaunay_square excel_rows
          [("a.nc"%string, select ["sst"; "sal"]%string);
           ("b.nc"%string, select ["sst"%string])]
          [file_a; file_b] [])
   = fst (process_all true decode_square delaunay_square excel_rows
            [("a.nc"%string, select ["sst"; "sal"]%string);
             ("b.nc"%string, select ["sst"%string])]
            [file_b] [])
   /\ exists e,
       In (StError "a.nc" e)
          (snd (process_all true decode_square delaunay_square excel_rows
                  [("a.nc"%string, select ["sst"; "sal"]%string);
                   ("b.nc"%string, select ["sst"%string])]
                  [file_a; file_b] [])))
  /\ handle_copernicus_file true decode_square delaunay_square excel_rows
       file_a (select ["sst"; "sal"]%string) []
     = (inr None,
        [DsOpen "a.nc" Netcdf4]
          ++ [StError (name file_a) (ValueError "No points given")]).
Proof.
  pose proof (failure_is_per_file true decode_square delaunay_square excel_rows
                [("a.nc"%string, select ["sst"; "sal"]%string);
                 ("b.nc"%string, select ["sst"%string])]
                [file_a; file_b] []) as (_ & _ & Hunit & Hbatch).
  split.
  - apply (Hbatch [] file_a [file_b] (select ["sst"; "sal"]%string)).
    + reflexivity.
    + reflexivity.
    + vm_compute. reflexivity.
  - apply (Hunit file_a (select ["sst"; "sal"]%string) [] square
                 [DsOpen "a.nc" Netcdf4] false ["sst"%string] "sal"%string []
                 {| lv_lon_min := 0; lv_lon_max := 1 # 8;
                    lv_results := [artifact_a_sst] |}).
    + reflexivity.
    + reflexivity.
    + reflexivity.
    + vm_compute. reflexivity.
    + vm_compute. reflexivity.
Defined.

(** C7 fails on the error path: with the variable [sal] selected, whose
    clipped set is empty, the handle that [xr.open_dataset] returned is
    never closed: the events of the call are the opening and the report of
    the error.  With [sst] selected the same handle is closed. *)
Theorem handle_not_closed_on_error :
  handle_copernicus_file true decode_square delaunay_square excel_rows
    file_a (select ["sal"%string]) []
  = (inr None,
     [DsOpen "a.nc" Netcdf4; StError "a.nc" (ValueError "No points given")])
  /\ handle_copernicus_file true decode_square delaunay_square excel_rows
       file_a (select ["sst"%string]) []
     = (inr (Some [artifact_a_sst]), [DsOpen "a.nc" Netcdf4; DsClose "a.nc"]).
Proof. split; vm_compute; reflexivity. Qed.

(** The same field stored north to south: the slice keeps its four points,
    but the grid is built from the swapped latitude bounds and the table
    that is written has no row. *)
Lemma descending_field_empty_table :
  handle_copernicus_file true decode_descending delaunay_square excel_rows
    file_d (select ["sst"%string]) []
  = (inr (Some [{| a_name := "d_sst_qgis.xlsx"; a_content := [] |}]),
     [DsOpen "d.nc" Netcdf4; DsClose "d.nc"]).
Proof. vm_compute. reflexivity. Qed.

Lemma reader_fallback_witness :
  handle_copernicus_file true decode_square delaunay_square excel_rows
    file_bad (select ["sst"%string]) []
  = (inr None,
     [] ++ [StError (name file_bad) (OSError H5netcdf "unknown file format")])
  /\ fst (process_all true decode_square delaunay_square excel_rows
            [("bad.nc"%string, select ["sst"%string]);
             ("b.nc"%string, select ["sst"%string])]
            ([] ++ file_bad :: [file_b]) [])
     = fst (process_all true decode_square delaunay_square excel_rows
              [("bad.nc"%string, select ["sst"%string]);
               ("b.nc"%string, select ["sst"%string])]
              ([] ++ [file_b]) []).
Proof.
  destruct (proj2 (proj2 (reader_fallback true decode_square delaunay_square
                            excel_rows file_bad (select ["sst"%string]) []))
                  (OSError Netcdf4 "unknown file format")
                  (OSError H5netcdf "unknown file format")
                  eq_refl eq_refl) as [Hh Hb].
  split; [exact Hh|]. apply Hb. reflexivity.
Defined.

Lemma interpolation_defined_or_fails_witness :
  (exists gv, interpolate delaunay_triangle triangle_df [(0, 0); (5, 5)] = inr gv
              /\ length gv = length [(0, 0); (5, 5)]
              /\ forall v, In v gv -> v <> None)
  /\ exists e,
      (e = QhullError \/ e = ValueError "No points given")
      /\ handle_copernicus_file true decode_square delaunay_square excel_rows
           file_a (select ["sst"; "sal"]%string) []
         = (inr None, [DsOpen "a.nc" Netcdf4] ++ [StError (name file_a) e]).
Proof.
  split.
  - apply (proj1 (interpolation_defined_or_fails true decode_square
                    delaunay_triangle excel_rows triangle_df [(0, 0); (5, 5)])).
    exists (0, 0), (0, 1), (1, 0). simpl. intuition discriminate.
  - assert (Hno : ~ has_triangle (points_of [])).
    { intros (a & _ & _ & Ha & _). destruct Ha. }
    apply (proj2 (proj2 (proj2 (interpolation_defined_or_fails true decode_square
                    delaunay_square excel_rows [] [])) Hno)
                 file_a (select ["sst"; "sal"]%string) [] square
                 [DsOpen "a.nc" Netcdf4] false ["sst"%string] "sal"%string []
                 {| lv_lon_min := 0; lv_lon_max := 1 # 8;
                    lv_results := [artifact_a_sst] |} [] 0 (1 # 8)).
    + reflexivity.
    + reflexivity.
    + reflexivity.
    + vm_compute. reflexivity.
    + vm_compute. reflexivity.
    + vm_compute. reflexivity.
Defined.

Lemma result_table_order_witness :
  exists table lo hi,
    regrid delaunay_square square "sst" 0 (1 # 8) 0 (1 # 8)
    = inr (table, lo, hi)
    /\ StronglySorted row_order table
    /\ length table = length (grid_points 0 (1 # 8) lo hi).
Proof.
  destruct (regrid delaunay_square square "sst" 0 (1 # 8) 0 (1 # 8))
    as [e | [[table lo] hi]] eqn:E.
  - vm_compute in E. discriminate E.
  - exists table, lo, hi. split; [reflexivity|].
    destruct (result_table_order delaunay_square square "sst"
                0 (1 # 8) 0 (1 # 8) table lo hi E) as (Hs & Hl & _).
    split; assumption.
Defined.

Lemma values_at_unrounded_points_witness :
  exists lv' df table,
    process_variable delaunay_square excel_rows square "a.nc" 0 (1 # 8)
      (loop_start (select ["sst"%string])) "sst" = inr lv'
    /\ lv_results lv' = [] ++ [{| a_name := out_name "a.nc" "sst";
                                 a_content := excel_rows table |}]
    /\ Permutation table
         (map (fun q => {| g_lat := Np.round 3 (fst q);
                           g_lon := Np.round 3 (snd q);
                           g_value := value_at delaunay_square df q |})
              (grid_points 0 (1 # 8) (lv_lon_min lv') (lv_lon_max lv'))).
Proof.
  destruct (process_variable delaunay_square excel_rows square "a.nc" 0 (1 # 8)
              (loop_start (select ["sst"%string])) "sst") as [e | lv'] eqn:E.
  - vm_compute in E. discriminate E.
  - destruct (values_at_unrounded_points delaunay_square excel_rows square
                "a.nc" 0 (1 # 8) (loop_start (select ["sst"%string])) lv'
                "sst" E) as (df0 & df & table & _ & _ & Hr & Hp).
    exists lv', df, table. split; [reflexivity|]. split; assumption.
Defined.

(** ** The names of the artifacts (line 169) *)

Lemma replace_from_absent old new s :
  occurs old s = false -> replace_from old new O s = s.
Proof.
  induction s as [|c s IH]; [reflexivity|].
  cbn [occurs]. intros [Hp Ho]%orb_false_iff.
  cbn [replace_from]. rewrite Hp. f_equal. now apply IH.
Qed.

Lemma append_empty_r (s : string) : (s ++ "")%string = s.
Proof. induction s as [|c s IH]; simpl; [reflexivity | now rewrite IH]. Qed.

Lemma append_assoc (s t u : string) :
  ((s ++ t) ++ u)%string = (s ++ (t ++ u))%string.
Proof. induction s as [|c s IH]; simpl; [reflexivity | now rewrite IH]. Qed.

Lemma append_cancel_l (s t u : string) :
  (s ++ t)%string = (s ++ u)%string -> t = u.
Proof. induction s as [|c s IH]; simpl; [auto | intros [= H]; auto]. Qed.

Lemma length_append (s t : string) :
  String.length (s ++ t) = (String.length s + String.length t)%nat.
Proof. induction s as [|c s IH]; simpl; [reflexivity | now rewrite IH]. Qed.

Lemma append_cancel_r (s t u : string) :
  (t ++ s)%string = (u ++ s)%string -> t = u.
Proof.
  revert u. induction t as [|c t IH]; intros [|d u] H; simpl in H.
  - reflexivity.
  - apply (f_equal String.length) in H. simpl in H.
    rewrite length_append in H. lia.
  - apply (f_equal String.length) in H. simpl in H.
    rewrite length_append in H. lia.
  - injection H as -> H. f_equal. now apply IH.
Qed.

(** No occurrence of ".nc" begins in [base] and ends in the extension. *)
Ltac case_ascii :=
  match goal with
  | |- context [Ascii.ascii_dec ?a ?b] =>
      destruct (Ascii.ascii_dec a b); try discriminate; try reflexivity
  end.

Lemma prefix_nc_append (s : string) :
  s <> EmptyString -> String.prefix ".nc" s = false ->
  String.prefix ".nc" (s ++ ".nc") = false.
Proof.
  intros Hne Hp.
  destruct s as [|c1 [|c2 [|c3 s]]]; [congruence| | |];
    cbn [String.prefix String.append] in *.
  - case_ascii.
  - case_ascii. case_ascii.
  - destruct s; exact Hp.
Qed.

Lemma replace_extension (base new : string) :
  occurs ".nc" base = false ->
  str_replace (base ++ ".nc") ".nc" new = (base ++ new)%string.
Proof.
  unfold str_replace. induction base as [|c base IH]; intros Ho.
  - simpl. now rewrite append_empty_r.
  - cbn [occurs] in Ho. apply orb_false_iff in Ho as [Hp Ho].
    change ((String c base ++ ".nc")%string)
      with (String c (base ++ ".nc")).
    cbn [replace_from].
    change (String c (base ++ ".nc")) with ((String c base ++ ".nc")%string).
    rewrite (prefix_nc_append (String c base)) by (congruence || assumption).
    simpl. f_equal. now apply IH.
Qed.

(** The name of the artifact of a file [base.nc] whose base name does not
    hold ".nc" is [base_var_qgis.xlsx], and two variables of the file have
    the same artifact name only when they are the same variable. *)
Theorem out_name_of_extension (base var : string) :
  occurs ".nc" base = false ->
  out_name (base ++ ".nc") var = (base ++ "_" ++ var ++ "_qgis.xlsx")%string
  /\ forall var', out_name (base ++ ".nc") var = out_name (base ++ ".nc") var' ->
                  var = var'.
Proof.
  intros Ho. unfold out_name. split; [now apply replace_extension|].
  intros var'. rewrite !replace_extension by assumption.
  intros H%append_cancel_l. simpl in H. injection H as H.
  now apply append_cancel_r in H.
Qed.

Lemma out_name_of_extension_witness :
  out_name ("sea" ++ ".nc") "sst" = ("sea" ++ "_" ++ "sst" ++ "_qgis.xlsx")%string.
Proof.
  apply (proj1 (out_name_of_extension "sea" "sst" eq_refl)).
Defined.

(** A file name without ".nc" is left as it is: its artifacts do not carry
    the name of the variable and all have the name of the file. *)
Theorem out_name_without_extension (fname var : string) :
  occurs ".nc" fname = false -> out_name fname var = fname.
Proof. intros Ho. unfold out_name. now apply replace_from_absent. Qed.

Lemma out_name_without_extension_witness : out_name "SEA.NC" "sst" = "SEA.NC"%string.
Proof. apply (out_name_without_extension "SEA.NC" "sst" eq_refl). Defined.

(** ** More on the handler (lines 114-178) *)

Lemma mod_360_compat x y : x == y -> Np.mod_ x 360 == Np.mod_ y 360.
Proof.
  intros H. unfold Np.mod_.
  assert (E : Qfloor (x / 360) = Qfloor (y / 360))
    by (apply Qfloor_comp; now rewrite H).
  now rewrite E, H.
Qed.



Section HandlerFacts.

Variable NETCDF4_AVAILABLE : bool.
Variable decode : engine -> list Byte.byte -> result Xr.Dataset.
Variable delaunay : list Scipy.point -> list Scipy.simplex.
Variable to_excel : list GridRow -> list Byte.byte.

Let open_ := open_with_fallback NETCDF4_AVAILABLE decode.
Let handle := handle_copernicus_file NETCDF4_AVAILABLE decode delaunay to_excel.
Let run := process_all NETCDF4_AVAILABLE decode delaunay to_excel.
Let vars_loop := for_variables delaunay to_excel.
Let turn := process_variable delaunay to_excel.

Let open_spec := open_with_fallback_spec NETCDF4_AVAILABLE decode delaunay to_excel.
Let body_spec := try_body_spec NETCDF4_AVAILABLE decode delaunay to_excel.
Let handler_spec := handle_spec NETCDF4_AVAILABLE decode delaunay to_excel.

Lemma process_variable_inv ds fname a b lv var lv' :
  turn ds fname a b lv var = inr lv' ->
  exists table,
    regrid delaunay ds var a b (lv_lon_min lv) (lv_lon_max lv)
    = inr (table, lv_lon_min lv', lv_lon_max lv')
    /\ lv_results lv'
       = lv_results lv ++ [{| a_name := out_name fname var;
                              a_content := to_excel table |}].
Proof.
  unfold turn, process_variable.
  destruct (regrid _ _ _ _ _ _ _) as [e|[[table lo] hi]]; cbn [rbind];
    [discriminate|].
  intros [= <-]. exists table. split; reflexivity.
Qed.

Lemma for_variables_names ds fname a b vars lv lv' :
  vars_loop ds fname a b vars lv = inr lv' ->
  exists arts,
    lv_results lv' = lv_results lv ++ arts
    /\ map a_name arts = map (out_name fname) vars.
Proof.
  revert lv. induction vars as [|v vars IH]; intros lv.
  - intros [= <-]. exists []. now rewrite app_nil_r.
  - unfold vars_loop. cbn [for_variables]. fold vars_loop turn.
    destruct (turn ds fname a b lv v) as [e|lv1] eqn:Ht; cbn [rbind];
      [discriminate|].
    intros (arts & E & Hn)%IH.
    apply process_variable_inv in Ht as (table & _ & E1).
    eexists (_ :: arts). rewrite E, E1, <- app_assoc. split; [reflexivity|].
    simpl. now rewrite Hn.
Qed.

Lemma open_with_fallback_log file log ds log1 :
  open_ file log = (inr ds, log1) ->
  exists eng, log1 = log ++ [DsOpen (name file) eng].
Proof.
  unfold open_. rewrite open_spec.
  destruct (primary _ _ _) as [e1|ds1].
  - destruct (decode H5netcdf (getvalue file)) as [e2|ds2]; [discriminate|].
    intros [= _ <-]. now exists H5netcdf.
  - intros [= _ <-]. now exists Netcdf4.
Qed.

(** When the handler returns artifacts there is one per selected variable,
    in the order of the selection and with the name of its variable, and
    the dataset was opened once and closed once. *)
Theorem handle_success_shape (file : UploadedFile) (selection : Selection)
        (log log' : list event) (results : list Artifact) :
  handle file selection log = (inr (Some results), log') ->
  map a_name results = map (out_name (name file)) (variables selection)
  /\ length results = length (variables selection)
  /\ exists eng,
      log' = log ++ [DsOpen (name file) eng; DsClose (name file)].
Proof.
  unfold handle. rewrite handler_spec, body_spec.
  destruct (open_with_fallback _ _ file log) as [[e|ds] log1] eqn:Ho;
    [discriminate|].
  destruct (lat_descending ds) as [e|d]; [discriminate|].
  destruct (for_variables _ _ _ _ _ _ _ _) as [e|lv] eqn:Hl; [discriminate|].
  intros [= <- <-]. apply for_variables_names in Hl as (arts & E & Hn).
  cbn [loop_start lv_results app] in E. rewrite E.
  split; [exact Hn|]. split.
  - rewrite <- (length_map a_name), Hn. now rewrite length_map.
  - destruct (open_with_fallback_log file log ds log1 Ho) as (eng & ->).
    exists eng. now rewrite <- app_assoc.
Qed.

Lemma lat_descending_defined ds :
  Xr.lat ds <> [] -> exists d, lat_descending ds = inr d.
Proof.
  intros Hne. unfold lat_descending.
  destruct (Xr.lat ds) as [|x l] eqn:E; [congruence|].
  destruct (rev (x :: l)) as [|y r] eqn:Hr.
  - apply (f_equal (@length Q)) in Hr. rewrite length_rev in Hr. discriminate.
  - simpl. eauto.
Qed.

Lemma turn_missing_variable ds fname a b lv v :
  lookup v (Xr.data_vars ds) = None ->
  turn ds fname a b lv v = inl (KeyError v).
Proof.
  intros H. unfold turn, process_variable, regrid, clip, Xr.getitem.
  now rewrite H.
Qed.

Lemma for_variables_missing ds fname a b vars lv v :
  In v vars -> lookup v (Xr.data_vars ds) = None ->
  exists e, vars_loop ds fname a b vars lv = inl e.
Proof.
  intros Hin Hm. revert lv. induction vars as [|u vars IH]; intros lv;
    [destruct Hin|].
  unfold vars_loop. cbn [for_variables]. fold vars_loop turn.
  destruct (turn ds fname a b lv u) as [e|lv1] eqn:Ht; cbn [rbind]; [eauto|].
  destruct Hin as [-> | Hin].
  - rewrite (turn_missing_variable _ _ _ _ _ _ Hm) in Ht. discriminate.
  - now apply IH.
Qed.

(** Failures before any interpolation.  With the dataset open, an empty
    latitude axis makes the handler report an [IndexError]; a selected
    variable that the dataset does not hold makes it return [None], and
    when it is the first of the selection the report is its [KeyError]. *)
Theorem handle_early_failures (file : UploadedFile) (selection : Selection)
        (log log1 : list event) (ds : Xr.Dataset) :
  open_ file log = (inr ds, log1) ->
  (Xr.lat ds = [] ->
   handle file selection log
   = (inr None, log1 ++ [StError (name file) IndexError]))
  /\ (forall v, Xr.lat ds <> [] -> In v (variables selection) ->
                lookup v (Xr.data_vars ds) = None ->
                exists e, handle file selection log
                          = (inr None, log1 ++ [StError (name file) e]))
  /\ (forall v vs, Xr.lat ds <> [] -> variables selection = v :: vs ->
                   lookup v (Xr.data_vars ds) = None ->
                   handle file selection log
                   = (inr None, log1 ++ [StError (name file) (KeyError v)])).
Proof.
  intros Ho. unfold handle. rewrite handler_spec, body_spec.
  unfold open_ in Ho. rewrite Ho. split; [|split].
  - intros E. unfold lat_descending. now rewrite E.
  - intros v Hne Hin Hm. destruct (lat_descending_defined ds Hne) as (d & ->).
    destruct (for_variables_missing ds (name file)
                (fst (lat_bounds d selection)) (snd (lat_bounds d selection))
                (variables selection) (loop_start selection) v Hin Hm)
      as (e & He).
    unfold vars_loop in He. rewrite He. now exists e.
  - intros v vs Hne Hv Hm. destruct (lat_descending_defined ds Hne) as (d & ->).
    rewrite Hv. cbn [for_variables].
    pose proof (turn_missing_variable ds (name file)
                  (fst (lat_bounds d selection)) (snd (lat_bounds d selection))
                  (loop_start selection) v Hm) as Ht.
    unfold turn in Ht. now rewrite Ht.
Qed.


Lemma wrap_times_compat n x y : x == y -> wrap_times n x == wrap_times n y.
Proof.
  intros H. induction n as [|n IH]; [exact H|].
  unfold wrap_times in *. cbn [Nat.iter]. now apply mod_360_compat.
Qed.




End HandlerFacts.

(** ** More on the two passes (lines 152-159) *)

Lemma eval_simplex_range pts vals q s v m M :
  (forall w, In w vals -> m <= w /\ w <= M) ->
  Scipy.eval_simplex pts vals q s = Some v -> m <= v /\ v <= M.
Proof.
  intros Hr. destruct s as [[i j] k]. unfold Scipy.eval_simplex.
  destruct (nth_error pts i) as [a|]; [|discriminate].
  destruct (nth_error pts j) as [b|]; [|discriminate].
  destruct (nth_error pts k) as [c|]; [|discriminate].
  destruct (nth_error vals i) as [va|] eqn:Ha; [|discriminate].
  destruct (nth_error vals j) as [vb|] eqn:Hb; [|discriminate].
  destruct (nth_error vals k) as [vc|] eqn:Hc; [|discriminate].
  apply nth_error_In, Hr in Ha. apply nth_error_In, Hr in Hb.
  apply nth_error_In, Hr in Hc.
  destruct (Scipy.barycentric a b c q) as [[[wa wb] wc]|] eqn:Hw; [|discriminate].
  unfold Scipy.barycentric in Hw.
  destruct (Qeq_bool (Scipy.orient a b c) 0); [discriminate|].
  injection Hw as Ewa Ewb Ewc.
  destruct (Qle_bool 0 wa) eqn:H1; [|discriminate].
  destruct (Qle_bool 0 wb) eqn:H2; [|discriminate].
  destruct (Qle_bool 0 wc) eqn:H3; [|discriminate].
  intros [= <-]. apply Qle_bool_iff in H1, H2, H3.
  assert (Es : wa == 1 - wb - wc) by (rewrite <- Ewa, Ewb, Ewc; reflexivity).
  clear Ewa Ewb Ewc.
  destruct Ha as [Ha1 Ha2], Hb as [Hb1 Hb2], Hc as [Hc1 Hc2].
  assert (P1 : 0 <= wa * (va - m)) by (apply Qmult_le_0_compat; lra).
  assert (P2 : 0 <= wb * (vb - m)) by (apply Qmult_le_0_compat; lra).
  assert (P3 : 0 <= wc * (vc - m)) by (apply Qmult_le_0_compat; lra).
  assert (P4 : 0 <= wa * (M - va)) by (apply Qmult_le_0_compat; lra).
  assert (P5 : 0 <= wb * (M - vb)) by (apply Qmult_le_0_compat; lra).
  assert (P6 : 0 <= wc * (M - vc)) by (apply Qmult_le_0_compat; lra).
  assert (E1 : wa * va + wb * vb + wc * vc - m
               == wa * (va - m) + wb * (vb - m) + wc * (vc - m)
                  + (wa + wb + wc - 1) * m) by ring.
  assert (E2 : M - (wa * va + wb * vb + wc * vc)
               == wa * (M - va) + wb * (M - vb) + wc * (M - vc)
                  - (wa + wb + wc - 1) * M) by ring.
  assert (E3 : wa + wb + wc - 1 == 0) by (rewrite Es; ring).
  rewrite E3 in E1, E2. split; lra.
Qed.

Lemma linear_at_range tri pts vals q v m M :
  (forall w, In w vals -> m <= w /\ w <= M) ->
  Scipy.linear_at tri pts vals q = Some v -> m <= v /\ v <= M.
Proof.
  intros Hr (s & _ & Hs)%linear_at_first. now apply (eval_simplex_range _ _ _ _ _ _ _ Hr Hs).
Qed.

(** What the nearest-neighbour search returns: the value of a source point,
    its squared distance to [q], and no source point is closer. *)
Lemma nearest_at_spec pts vals q d v :
  Scipy.nearest_at pts vals q = Some (d, v) ->
  exists i p,
    nth_error pts i = Some p /\ nth_error vals i = Some v
    /\ d = Scipy.dist2 p q
    /\ forall j p' w, nth_error pts j = Some p' -> nth_error vals j = Some w ->
                      d <= Scipy.dist2 p' q.
Proof.
  revert vals d v. induction pts as [|p pts IH]; intros [|w vals] d v;
    try discriminate.
  cbn [Scipy.nearest_at].
  destruct (Scipy.nearest_at pts vals q) as [[d' v']|] eqn:Hn.
  - destruct (IH vals d' v' Hn) as (i & p0 & Hp & Hv & Hd & Hmin).
    destruct (Qle_bool (Scipy.dist2 p q) d') eqn:Hle.
    + intros [= <- <-]. exists O, p. repeat split.
      intros [|j] p' w' Hp' Hw'; simpl in Hp', Hw'.
      * injection Hp' as <-. apply Qle_refl.
      * apply Qle_bool_iff in Hle. specialize (Hmin j p' w' Hp' Hw'). lra.
    + intros [= <- <-]. exists (S i), p0. repeat split; try assumption.
      intros [|j] p' w' Hp' Hw'; simpl in Hp', Hw'.
      * injection Hp' as <-. apply Qle_bool_false in Hle. lra.
      * now apply (Hmin j p' w').
  - intros [= <- <-]. exists O, p. repeat split.
    intros [|j] p' w' Hp' Hw'; simpl in Hp', Hw'.
    + injection Hp' as <-. apply Qle_refl.
    + exfalso. clear IH. revert vals j Hn Hp' Hw'.
      induction pts as [|p1 pts IHp]; intros vals j Hn Hp' Hw'.
      * destruct j; discriminate.
      * destruct vals as [|w1 vals]; [destruct j; discriminate|].
        cbn [Scipy.nearest_at] in Hn.
        destruct (Scipy.nearest_at pts vals q) as [[? ?]|];
          [destruct (Qle_bool _ _)|]; discriminate.
Qed.

Lemma In_df_nth df i p v :
  nth_error (points_of df) i = Some p -> nth_error (values_of df) i = Some v ->
  exists r, In r df /\ p = (sp_lat r, sp_lon r) /\ v = sp_value r.
Proof.
  unfold points_of, values_of. rewrite !nth_error_map.
  destruct (nth_error df i) as [r|] eqn:E; [|discriminate].
  intros [= <-] [= <-]. exists r. split; [|split; reflexivity].
  now apply nth_error_In in E.
Qed.

(** No overshoot: every value the two passes give lies between the
    smallest and the largest value of the clipped points. *)
Theorem interpolation_within_source_range
        (delaunay : list Scipy.point -> list Scipy.simplex)
        (df : list ScatterPoint) (grid : list Scipy.point)
        (gv : list (option Q)) (m M : Q) :
  interpolate delaunay df grid = inr gv ->
  (forall p, In p df -> m <= sp_value p /\ sp_value p <= M) ->
  forall v, In v gv -> exists x, v = Some x /\ m <= x /\ x <= M.
Proof.
  intros Hi Hr v Hv.
  assert (Hvals : forall w, In w (values_of df) -> m <= w /\ w <= M).
  { intros w (p & <- & Hp)%in_map_iff. now apply Hr. }
  destruct (has_triangle_dec (points_of df)) as [Ht | Ht].
  - rewrite (interpolate_pointwise delaunay df grid Ht) in Hi.
    injection Hi as <-. apply in_map_iff in Hv as (q & <- & _).
    unfold value_at.
    destruct (Scipy.linear_at _ _ _ q) as [x|] eqn:Hl.
    + exists x. split; [reflexivity|]. now apply (linear_at_range _ _ _ _ _ _ _ Hvals Hl).
    + destruct (nearest_at_some (points_of df) (values_of df) q) as (d & x & Hn).
      * now apply has_triangle_nonempty.
      * unfold points_of, values_of. now rewrite !length_map.
      * rewrite Hn. exists x. split; [reflexivity|].
        apply nearest_at_spec in Hn as (i & p & _ & Hx & _).
        apply Hvals. now apply nth_error_In in Hx.
  - destruct (interpolate_fails delaunay df grid Ht) as [E | E];
      rewrite E in Hi; discriminate.
Qed.

Lemma interpolation_within_source_range_witness :
  interpolate delaunay_triangle triangle_df [(0, 0); (5, 5)]
  = inr [Some 1; Some 2]
  /\ forall v, In v [Some 1; Some 2] ->
               exists x, v = Some x /\ 1 <= x /\ x <= 3.
Proof.
  assert (H : interpolate delaunay_triangle triangle_df [(0, 0); (5, 5)]
              = inr [Some 1; Some 2]) by (vm_compute; reflexivity).
  split; [exact H|].
  apply (interpolation_within_source_range delaunay_triangle triangle_df
           [(0, 0); (5, 5)] [Some 1; Some 2] 1 3 H).
  intros p [<- | [<- | [<- | []]]]; split; discriminate.
Defined.

(** Where the linear pass leaves a lattice point undefined, the value
    written is the value of a clipped point at the least distance from the
    lattice point. *)
Theorem fallback_is_nearest
        (delaunay : list Scipy.point -> list Scipy.simplex)
        (df : list ScatterPoint) (grid : list Scipy.point)
        (gv : list (option Q)) :
  interpolate delaunay df grid = inr gv ->
  Forall2 (fun q v =>
             Scipy.linear_at (delaunay (points_of df)) (points_of df)
                             (values_of df) q = None ->
             exists p, In p df /\ v = Some (sp_value p)
                       /\ forall p', In p' df ->
                            Scipy.dist2 (sp_lat p, sp_lon p) q
                            <= Scipy.dist2 (sp_lat p', sp_lon p') q)
          grid gv.
Proof.
  intros Hi.
  destruct (has_triangle_dec (points_of df)) as [Ht | Ht].
  - rewrite (interpolate_pointwise delaunay df grid Ht) in Hi.
    injection Hi as <-.
    assert (Hsome : forall q, exists d x,
               Scipy.nearest_at (points_of df) (values_of df) q = Some (d, x)).
    { intros q. apply nearest_at_some; [now apply has_triangle_nonempty|].
      unfold points_of, values_of. now rewrite !length_map. }
    clear Ht.
    induction grid as [|q grid IH]; simpl; constructor; [|exact IH].
    intros Hl. unfold value_at. rewrite Hl.
    destruct (Scipy.nearest_at (points_of df) (values_of df) q) as [[d x]|] eqn:Hn.
    + apply nearest_at_spec in Hn as (i & p & Hp & Hx & -> & Hmin).
      destruct (In_df_nth df i p x Hp Hx) as (r & Hr & -> & ->).
      exists r. split; [assumption|]. split; [reflexivity|].
      intros p' (j & Hj)%In_nth_error.
      apply (Hmin j (sp_lat p', sp_lon p') (sp_value p')).
      * unfold points_of. now rewrite nth_error_map, Hj.
      * unfold values_of. now rewrite nth_error_map, Hj.
    + destruct (Hsome q) as (d & x & E). congruence.
  - destruct (interpolate_fails delaunay df grid Ht) as [E | E];
      rewrite E in Hi; discriminate.
Qed.

(** ** The rows of a table have different coordinates (lines 145-167) *)

Lemma seq_step_apart lo s n :
  StronglySorted step_apart
    (map (fun i => lo + inject_Z (Z.of_nat i) * grid_spacing) (seq s n)).
Proof.
  revert s. induction n as [|n IH]; intros s; simpl; constructor.
  - apply IH.
  - apply Forall_forall. intros y (j & <- & Hj)%in_map_iff.
    apply in_seq in Hj. unfold step_apart.
    assert (Hz : inject_Z (Z.of_nat s) + 1 <= inject_Z (Z.of_nat j)).
    { change 1 with (inject_Z 1). rewrite <- inject_Z_plus, <- Zle_Qle. lia. }
    unfold grid_spacing in *. lra.
Qed.

Lemma grid_axis_step_apart lo hi : StronglySorted step_apart (grid_axis lo hi).
Proof. rewrite grid_axis_unfold. apply seq_step_apart. Qed.

Lemma round3_step_apart x y :
  step_apart x y -> Np.round 3 x < Np.round 3 y.
Proof.
  unfold step_apart, grid_spacing. intros H.
  destruct (round3_spec x) as (_ & _ & _ & Hx).
  destruct (round3_spec y) as (_ & _ & Hy & _). lra.
Qed.

Lemma StronglySorted_app {A} (R : A -> A -> Prop) l1 l2 :
  StronglySorted R l1 -> StronglySorted R l2 ->
  (forall x y, In x l1 -> In y l2 -> R x y) ->
  StronglySorted R (l1 ++ l2).
Proof.
  induction 1 as [|x l1 Hs IH Hx]; intros H2 Hc; simpl; [assumption|].
  constructor.
  - apply IH; [assumption|]. intros a b Ha Hb. apply Hc; [now right | assumption].
  - apply Forall_forall. intros y [Hy | Hy]%in_app_iff.
    + rewrite Forall_forall in Hx. now apply Hx.
    + apply Hc; [now left | assumption].
Qed.

Lemma rows_grid_order (f : Scipy.point -> option Q) lats lons :
  StronglySorted step_apart lats -> StronglySorted step_apart lons ->
  StronglySorted grid_order
    (map (fun q => row_of q (f q)) (list_prod lats lons)).
Proof.
  intros Hlats Hlons. induction Hlats as [|x lats Hs IH Hx]; simpl; [constructor|].
  rewrite map_app. apply StronglySorted_app.
  - rewrite map_map. clear IH Hs Hx.
    induction Hlons as [|y lons Hl IHl Hy]; simpl; constructor; [exact IHl|].
    apply Forall_forall. intros r (z & <- & Hz)%in_map_iff.
    right. split; [reflexivity|]. cbn [row_of g_lon snd].
    apply round3_step_apart. rewrite Forall_forall in Hy. now apply Hy.
  - exact IH.
  - intros r1 r2 (q1 & <- & Hq1)%in_map_iff (q2 & <- & Hq2)%in_map_iff.
    apply in_map_iff in Hq1 as (y & <- & _).
    destruct q2 as [x2 y2]. apply in_prod_iff in Hq2 as [Hx2 _].
    left. cbn [row_of g_lat fst]. apply round3_step_apart.
    rewrite Forall_forall in Hx. now apply Hx.
Qed.

#[local] Instance same_coordinates_equiv : Equivalence same_coordinates.
Proof.
  split.
  - intros r. split; reflexivity.
  - intros r1 r2 [H1 H2]. split; now symmetry.
  - intros r1 r2 r3 [H1 H2] [H3 H4]. split; etransitivity; eassumption.
Qed.

Lemma grid_order_NoDupA l :
  StronglySorted grid_order l -> NoDupA same_coordinates l.
Proof.
  induction 1 as [|x l Hs IH Hx]; constructor; [|exact IH].
  intros (y & [E1 E2] & Hy)%InA_alt. rewrite Forall_forall in Hx.
  destruct (Hx y Hy) as [H | [_ H]]; lra.
Qed.

Lemma strict_of_NoDupA l :
  StronglySorted row_order l -> NoDupA same_coordinates l ->
  StronglySorted row_before l.
Proof.
  induction 1 as [|x l Hs IH Hx]; intros Hnd; constructor;
    inversion Hnd as [|? ? Hnx Hnd']; subst.
  - now apply IH.
  - apply Forall_forall. intros y Hy. rewrite Forall_forall in Hx.
    destruct (Hx y Hy) as [H | [H1 H2]]; [now left|].
    right. split; [assumption|].
    destruct (Qlt_le_dec (g_lon x) (g_lon y)) as [Hlt | Hge]; [assumption|].
    exfalso. apply Hnx. apply InA_alt. exists y. split; [|assumption].
    split; [assumption | lra].
Qed.

(** No two rows of a table have the same rounded coordinates, so the rows
    are strictly ordered: latitude decreasing, and at one latitude
    longitude increasing. *)
Theorem table_rows_strictly_ordered
        (delaunay : list Scipy.point -> list Scipy.simplex)
        (ds : Xr.Dataset) (var : string) (lat_min lat_max lon_min lon_max : Q)
        (table : list GridRow) (lon_min' lon_max' : Q) :
  regrid delaunay ds var lat_min lat_max lon_min lon_max
  = inr (table, lon_min', lon_max') ->
  NoDupA same_coordinates table /\ StronglySorted row_before table.
Proof.
  intros (df0 & df & _ & _ & _ & ->)%regrid_inv.
  set (rows := map (fun q => row_of q (value_at delaunay df q))
                   (grid_points lat_min lat_max lon_min' lon_max')).
  assert (Hnd : NoDupA same_coordinates (Pd.sort_values rows)).
  { apply (PermutationA_preserves_NoDupA _) with (l₁ := rows).
    - apply Permutation_PermutationA; [exact _ | apply sort_values_perm].
    - apply grid_order_NoDupA. unfold rows. rewrite grid_points_prod.
      apply rows_grid_order; apply grid_axis_step_apart. }
  split; [exact Hnd|].
  apply strict_of_NoDupA; [apply sort_values_sorted | exact Hnd].
Qed.

(** ** What the clip keeps (lines 134-136) *)

Lemma firstn_keyed {A} lo hi (c : list (Q * A)) :
  StronglySorted Qle (map fst c) -> (forall p, In p c -> lo <= fst p) ->
  firstn (Xr.searchsorted_right (map fst c) hi) c
  = filter (fun p => in_box lo hi (fst p)) c.
Proof.
  induction c as [|[x a] c IH]; intros Hs Hlo; [reflexivity|].
  inversion Hs as [|? ? Hs' Hx]; subst. simpl.
  unfold in_box at 1. cbn [fst].
  assert (Hlx : Qle_bool lo x = true)
    by (apply Qle_bool_iff; apply (Hlo (x, a)); now left).
  rewrite Hlx. simpl. destruct (Qle_bool x hi) eqn:Hxh; simpl.
  - f_equal. apply IH; [assumption|]. intros p Hp. apply Hlo. now right.
  - symmetry. apply filter_none. intros p Hp. unfold in_box.
    apply andb_false_iff. right. apply Qle_bool_false.
    apply Qle_bool_false in Hxh. rewrite Forall_forall in Hx.
    specialize (Hx (fst p) (in_map fst _ _ Hp)). lra.
Qed.

Lemma islice_keyed {A} lo hi (c : list (Q * A)) :
  StronglySorted Qle (map fst c) ->
  Xr.islice (Xr.searchsorted_left (map fst c) lo)
            (Xr.searchsorted_right (map fst c) hi) c
  = filter (fun p => in_box lo hi (fst p)) c.
Proof.
  induction c as [|[x a] c IH]; intros Hs; [reflexivity|].
  inversion Hs as [|? ? Hs' Hx]; subst. rewrite Forall_forall in Hx.
  cbn [map fst Xr.searchsorted_left Xr.searchsorted_right filter].
  destruct (Qlt_bool x lo) eqn:Hxl.
  - apply Qlt_bool_iff in Hxl.
    assert (Hb : in_box lo hi x = false).
    { unfold in_box. apply andb_false_iff. left. now apply Qle_bool_false. }
    rewrite Hb. destruct (Qle_bool x hi) eqn:Hxh.
    + rewrite islice_S. now apply IH.
    + unfold Xr.islice. simpl. symmetry. apply filter_none. intros p Hp.
      unfold in_box. apply andb_false_iff. right. apply Qle_bool_false.
      apply Qle_bool_false in Hxh.
      specialize (Hx (fst p) (in_map fst _ _ Hp)). lra.
  - apply Qlt_bool_false in Hxl. unfold Xr.islice. rewrite Nat.sub_0_r.
    cbn [skipn].
    change (if Qle_bool x hi then S (Xr.searchsorted_right (map fst c) hi) else O)
      with (Xr.searchsorted_right (map fst ((x, a) :: c)) hi).
    rewrite (firstn_keyed lo hi ((x, a) :: c)).
    + reflexivity.
    + exact Hs.
    + intros p [<- | Hp]; [assumption|].
      specialize (Hx (fst p) (in_map fst _ _ Hp)). lra.
Qed.

(** The slice of a list along a monotonic axis of keys: the entries whose
    key lies in [lo, hi]; a decreasing axis takes the bounds swapped. *)
Lemma slice_keyed {A} (c : list (Q * A)) (lo hi : Q) (swap : bool) i0 i1 :
  (if swap then descending (map fst c) /\ (2 <= length c)%nat
   else ascending (map fst c)) ->
  Xr.slice_locs (map fst c) (if swap then hi else lo) (if swap then lo else hi)
  = inr (i0, i1) ->
  Xr.islice i0 i1 c = filter (fun p => in_box lo hi (fst p)) c.
Proof.
  destruct swap.
  - intros [Hd Hlen]. unfold Xr.slice_locs, Xr.get_slice_bound.
    rewrite (descending_not_increasing _ Hd), (descending_monotonic _ Hd)
      by now rewrite length_map.
    cbn [rbind]. intros [= <- <-]. rewrite length_map.
    rewrite islice_rev.
    + rewrite <- map_rev.
      rewrite (islice_keyed lo hi (rev c)).
      * now rewrite filter_rev', rev_involutive.
      * rewrite map_rev. now apply descending_rev_le.
    + replace (length c) with (length (rev (map fst c)))
        by now rewrite length_rev, length_map.
      apply searchsorted_left_le.
    + replace (length c) with (length (rev (map fst c)))
        by now rewrite length_rev, length_map.
      apply searchsorted_right_le.
  - intros Ha. unfold Xr.slice_locs, Xr.get_slice_bound.
    rewrite (ascending_monotonic _ Ha). cbn [rbind]. intros [= <- <-].
    apply islice_keyed. now apply ascending_le.
Qed.

Lemma map_fst_combine {A B} (a : list A) (b : list B) :
  length b = length a -> map fst (combine a b) = a.
Proof.
  revert b. induction a as [|x a IH]; intros [|y b] H; simpl in *;
    try discriminate; [reflexivity|]. f_equal. apply IH. lia.
Qed.

Lemma islice_map {A B} (f : A -> B) i j l :
  Xr.islice i j (map f l) = map f (Xr.islice i j l).
Proof. unfold Xr.islice. now rewrite skipn_map, firstn_map. Qed.

Lemma combine_skipn {A B} n (a : list A) (b : list B) :
  combine (skipn n a) (skipn n b) = skipn n (combine a b).
Proof.
  revert a b. induction n as [|n IH]; intros a b; [reflexivity|].
  destruct a as [|x a]; [reflexivity|].
  destruct b as [|y b]; simpl; [|apply IH].
  now destruct (skipn n a).
Qed.

Lemma combine_islice {A B} i j (a : list A) (b : list B) :
  combine (Xr.islice i j a) (Xr.islice i j b) = Xr.islice i j (combine a b).
Proof. unfold Xr.islice. now rewrite <- combine_firstn, combine_skipn. Qed.

Lemma combine_map_snd {A B C} (f : B -> C) (a : list A) (b : list B) :
  combine a (map f b) = map (fun p => (fst p, f (snd p))) (combine a b).
Proof.
  revert b. induction a as [|x a IH]; intros [|y b]; simpl; try reflexivity.
  now rewrite IH.
Qed.

Lemma filter_map_swap {A B} (f : A -> B) (p : B -> bool) l :
  filter p (map f l) = map f (filter (fun x => p (f x)) l).
Proof.
  induction l as [|x l IH]; simpl; [reflexivity|].
  destruct (p (f x)); simpl; now rewrite IH.
Qed.

(** The rows of one latitude: the cells of the longitudes in the box. *)
Lemma row_in_region (selection : Selection) lons j0 j1 la row :
  ascending lons -> length row = length lons ->
  Xr.slice_locs lons (lon_min selection) (lon_max selection) = inr (j0, j1) ->
  map (fun '(lo, v) => (la, lo, v))
      (combine (Xr.islice j0 j1 lons) (Xr.islice j0 j1 row))
  = if in_box (lat_min selection) (lat_max selection) la
    then filter (in_region selection)
                (map (fun '(lo, v) => (la, lo, v)) (combine lons row))
    else map (fun '(lo, v) => (la, lo, v))
             (filter (fun p => in_box (lon_min selection) (lon_max selection)
                                      (fst p)) (combine lons row)).
Proof.
  intros Ha Hlen Hs. rewrite combine_islice.
  pose proof (slice_keyed (combine lons row) (lon_min selection)
                (lon_max selection) false j0 j1) as K.
  rewrite (map_fst_combine lons row Hlen) in K. rewrite (K Ha Hs).
  destruct (in_box (lat_min selection) (lat_max selection) la) eqn:Hb;
    [|reflexivity].
  rewrite filter_map_swap. f_equal. apply filter_ext.
  intros [lo v]. cbn [in_region fst]. now rewrite Hb.
Qed.

Lemma frame_in_region (selection : Selection) lons j0 j1
      (C : list (Q * list (option Q))) :
  ascending lons ->
  Forall (fun p => length (snd p) = length lons) C ->
  Xr.slice_locs lons (lon_min selection) (lon_max selection) = inr (j0, j1) ->
  flat_map (fun '(la, row) =>
              map (fun '(lo, v) => (la, lo, v))
                  (combine (Xr.islice j0 j1 lons) row))
           (filter (fun p => in_box (lat_min selection) (lat_max selection)
                                    (fst p))
                   (map (fun p => (fst p, Xr.islice j0 j1 (snd p))) C))
  = filter (in_region selection)
           (flat_map (fun '(la, row) =>
                        map (fun '(lo, v) => (la, lo, v)) (combine lons row))
                     C).
Proof.
  intros Ha HC Hs. induction HC as [|[la row] C Hrow HC IH]; [reflexivity|].
  cbn [snd] in Hrow.
  pose proof (row_in_region selection lons j0 j1 la row Ha Hrow Hs) as R.
  cbn [map flat_map fst snd]. rewrite filter_app. cbn [filter fst].
  destruct (in_box (lat_min selection) (lat_max selection) la) eqn:Hb.
  - cbn [flat_map]. now rewrite IH, R.
  - rewrite IH. symmetry. rewrite <- (app_nil_l (filter _ (flat_map _ C))) at 2.
    f_equal. apply filter_none.
    intros cell ([lo v] & <- & _)%in_map_iff. cbn [in_region]. now rewrite Hb.
Qed.

(** The label slices of lines 130-136 against the box of the selection. *)
Lemma clip_box (ds : Xr.Dataset) (selection : Selection) (d : bool)
        (var : string) (m : list (list (option Q))) :
  lat_descending ds = inr d ->
  ascending (Xr.lat ds) \/ descending (Xr.lat ds) ->
  ascending (Xr.lon ds) ->
  lookup var (Xr.data_vars ds) = Some m ->
  well_shaped ds m ->
  clip ds var (fst (lat_bounds d selection)) (snd (lat_bounds d selection))
       (lon_min selection) (lon_max selection)
  = inr (Pd.dropna
           (filter (in_region selection)
                   (Pd.to_dataframe {| Xr.da_lat := Xr.lat ds;
                                       Xr.da_lon := Xr.lon ds;
                                       Xr.da_values := m |}))).
Proof.
  intros Hd Hmono Hlon Hlook [Hrows Hcols].
  (* the direction of the latitude axis and the test of line 130 agree *)
  assert (Hdir : if d then descending (Xr.lat ds) /\ (2 <= length (Xr.lat ds))%nat
                 else ascending (Xr.lat ds)).
  { assert (Hne : Xr.lat ds <> []).
    { intros E. unfold lat_descending in Hd. rewrite E in Hd. discriminate. }
    destruct Hmono as [Ha | Hdesc].
    - rewrite (lat_descending_false ds Ha Hne) in Hd. now injection Hd as <-.
    - destruct (Xr.lat ds) as [|x [|y l]] eqn:E; [congruence| |].
      + unfold lat_descending in Hd. rewrite E in Hd. simpl in Hd.
        injection Hd as <-. unfold Qlt_bool.
        rewrite (proj2 (Qle_bool_iff x x) (Qle_refl x)). simpl.
        repeat constructor.
      + rewrite <- E in *.
        assert (Hlen : (2 <= length (Xr.lat ds))%nat) by (rewrite E; simpl; lia).
        rewrite (lat_descending_true ds Hdesc Hlen) in Hd. injection Hd as <-.
        now split. }
  unfold clip, Xr.getitem. rewrite Hlook. cbn [rbind]. unfold Xr.sel.
  cbn [Xr.da_lat Xr.da_lon Xr.da_values].
  assert (Hslat : exists i0 i1,
             Xr.slice_locs (Xr.lat ds) (fst (lat_bounds d selection))
                           (snd (lat_bounds d selection)) = inr (i0, i1)).
  { destruct d; cbn [lat_bounds fst snd].
    - destruct Hdir as [Hdesc Hlen].
      destruct (slice_descending _ (lat_min selection) (lat_max selection)
                  Hdesc Hlen) as (i0 & i1 & H & _). eauto.
    - destruct (slice_ascending _ (lat_min selection) (lat_max selection) Hdir)
        as (i0 & i1 & H & _). eauto. }
  destruct Hslat as (i0 & i1 & Hslat). rewrite Hslat. cbn [rbind].
  destruct (slice_ascending _ (lon_min selection) (lon_max selection) Hlon)
    as (j0 & j1 & Hslon & _).
  rewrite Hslon. cbn [rbind]. do 2 f_equal.
  unfold Pd.to_dataframe. cbn [Xr.da_lat Xr.da_lon Xr.da_values].
  rewrite <- islice_map, combine_islice.
  pose proof (slice_keyed (combine (Xr.lat ds) (map (Xr.islice j0 j1) m))
                (lat_min selection) (lat_max selection) d i0 i1) as K.
  rewrite (map_fst_combine (Xr.lat ds) (map (Xr.islice j0 j1) m)) in K
    by now rewrite length_map.
  rewrite K.
  - rewrite combine_map_snd.
    apply (frame_in_region selection (Xr.lon ds) j0 j1
             (combine (Xr.lat ds) m) Hlon); [|exact Hslon].
    apply Forall_forall. intros [la row] Hin. cbn [snd].
    apply in_combine_r in Hin. rewrite Forall_forall in Hcols. now apply Hcols.
  - destruct d; [|exact Hdir]. destruct Hdir as [Hdesc Hlen]. split; [exact Hdesc|].
    rewrite length_combine, length_map, Hrows, Nat.min_id. exact Hlen.
  - destruct d; exact Hslat.
Qed.

(** The clip is the box: over monotonic axes (the latitudes in either
    direction, the longitudes increasing) and values of the shape of the
    axes, the clipped points are exactly the cells of the field whose
    latitude and longitude lie between the bounds of the selection and
    whose value is defined, in the order of the field. *)
Theorem clip_is_the_box (ds : Xr.Dataset) (selection : Selection) (d : bool)
        (var : string) (m : list (list (option Q))) :
  lat_descending ds = inr d ->
  ascending (Xr.lat ds) \/ descending (Xr.lat ds) ->
  ascending (Xr.lon ds) ->
  lookup var (Xr.data_vars ds) = Some m ->
  well_shaped ds m ->
  clip ds var (fst (lat_bounds d selection)) (snd (lat_bounds d selection))
       (lon_min selection) (lon_max selection)
  = inr (Pd.dropna
           (filter (in_region selection)
                   (Pd.to_dataframe {| Xr.da_lat := Xr.lat ds;
                                       Xr.da_lon := Xr.lon ds;
                                       Xr.da_values := m |}))).
Proof. apply clip_box. Qed.

(** ** The slice of a descending axis (C4) *)

Lemma to_dataframe_labels da la lo v :
  In (la, lo, v) (Pd.to_dataframe da) ->
  In la (Xr.da_lat da) /\ In lo (Xr.da_lon da).
Proof.
  unfold Pd.to_dataframe. intros ([la' row] & Hrow & Hcell)%in_flat_map.
  apply in_map_iff in Hcell as ([lo' v'] & [= <- <- <-] & Hlo).
  split; [now apply in_combine_l in Hrow | now apply in_combine_l in Hlo].
Qed.



Section SliceFacts.

Variable NETCDF4_AVAILABLE : bool.
Variable decode : engine -> list Byte.byte -> result Xr.Dataset.
Variable delaunay : list Scipy.point -> list Scipy.simplex.
Variable to_excel : list GridRow -> list Byte.byte.

Let open_ := open_with_fallback NETCDF4_AVAILABLE decode.
Let body := try_body NETCDF4_AVAILABLE decode delaunay to_excel.
Let vars_loop := for_variables delaunay to_excel.
Let turn := process_variable delaunay to_excel.


End SliceFacts.


(** ** Bounds the handler is not made for (lines 126-149) *)

Lemma regrid_no_points delaunay ds var a b lo hi :
  clip ds var a b lo hi = inr [] ->
  regrid delaunay ds var a b lo hi = inl (ValueError "No points given").
Proof.
  intros Hc. unfold regrid. rewrite Hc. cbn [rbind].
  unfold normalize_lon. cbn [map Pd.max Pd.gt].
  destruct (grid_lat_lon a b lo hi) as [glat glon]. reflexivity.
Qed.

Lemma dropna_nil df : df = [] -> Pd.dropna df = [].
Proof. now intros ->. Qed.

Lemma in_box_inverted lo hi x : hi < lo -> in_box lo hi x = false.
Proof.
  intros H. unfold in_box. apply not_true_iff_false.
  intros [H1 H2]%andb_true_iff. apply Qle_bool_iff in H1, H2. lra.
Qed.

Section HandlerEdges.

Variable NETCDF4_AVAILABLE : bool.
Variable decode : engine -> list Byte.byte -> result Xr.Dataset.
Variable delaunay : list Scipy.point -> list Scipy.simplex.
Variable to_excel : list GridRow -> list Byte.byte.

Let open_ := open_with_fallback NETCDF4_AVAILABLE decode.
Let handle := handle_copernicus_file NETCDF4_AVAILABLE decode delaunay to_excel.
Let vars_loop := for_variables delaunay to_excel.
Let turn := process_variable delaunay to_excel.
Let unit_failure_ := unit_failure NETCDF4_AVAILABLE decode delaunay to_excel.
Let handler_spec := handle_spec NETCDF4_AVAILABLE decode delaunay to_excel.
Let body_spec := try_body_spec NETCDF4_AVAILABLE decode delaunay to_excel.

(** Nothing keeps the two bounds of an axis in order.  On increasing axes,
    when a maximum of the selection is below its minimum the clip is empty,
    the first variable raises "No points given" and the file gives no
    artifact. *)
Theorem inverted_bounds_fail (file : UploadedFile) (selection : Selection)
        (log log1 : list event) (ds : Xr.Dataset)
        (v : string) (vs : list string) (m : list (list (option Q))) :
  open_ file log = (inr ds, log1) ->
  ascending (Xr.lat ds) -> Xr.lat ds <> [] -> ascending (Xr.lon ds) ->
  variables selection = v :: vs ->
  lookup v (Xr.data_vars ds) = Some m -> well_shaped ds m ->
  lat_max selection < lat_min selection \/ lon_max selection < lon_min selection ->
  clip ds v (lat_min selection) (lat_max selection)
       (lon_min selection) (lon_max selection) = inr []
  /\ handle file selection log
     = (inr None,
        log1 ++ [StError (name file) (ValueError "No points given")]).
Proof.
  intros Ho Hlat Hne Hlon Hv Hlook Hshape Hinv.
  pose proof (lat_descending_false ds Hlat Hne) as Hd.
  assert (Hc : clip ds v (lat_min selection) (lat_max selection)
                    (lon_min selection) (lon_max selection) = inr []).
  { pose proof (clip_box ds selection false v m Hd (or_introl Hlat)
                  Hlon Hlook Hshape) as E.
    cbn [lat_bounds fst snd] in E. rewrite E. f_equal. apply dropna_nil.
    apply filter_none. intros [[la lo] x] _. cbn [in_region].
    destruct Hinv as [H | H].
    - now rewrite (in_box_inverted _ _ la H).
    - rewrite (in_box_inverted _ _ lo H). apply andb_false_r. }
  split; [exact Hc|].
  apply (unit_failure_ file selection log ds log1 false [] v vs
                       (loop_start selection)); try assumption.
  - reflexivity.
  - cbn [lat_bounds fst snd loop_start lv_lon_min lv_lon_max].
    unfold process_variable. cbn [loop_start lv_lon_min lv_lon_max].
    now rewrite (regrid_no_points delaunay ds v _ _ _ _ Hc).
Qed.

Lemma for_variables_tables ds fname a b vars lv lv' :
  vars_loop ds fname a b vars lv = inr lv' ->
  exists arts,
    lv_results lv' = lv_results lv ++ arts
    /\ Forall (fun art =>
                 exists var table lo hi lo' hi',
                   regrid delaunay ds var a b lo hi = inr (table, lo', hi')
                   /\ a_content art = to_excel table) arts.
Proof.
  revert lv. induction vars as [|v vars IH]; intros lv.
  - intros [= <-]. exists []. split; [now rewrite app_nil_r | constructor].
  - unfold vars_loop. cbn [for_variables]. fold vars_loop turn.
    destruct (turn ds fname a b lv v) as [e|lv1] eqn:Ht; cbn [rbind];
      [discriminate|].
    intros (arts & E & Hf)%IH.
    apply (process_variable_inv delaunay to_excel) in Ht as (table & Hr & E1).
    eexists (_ :: arts). rewrite E, E1, <- app_assoc. split; [reflexivity|].
    constructor; [|exact Hf]. cbn [a_content]. eauto 8.
Qed.

(** A field stored north to south gives tables without rows.  When the
    latitude axis is descending and the selected latitudes differ by the
    margin of the grid or more, the swapped bounds are also those of the
    grid, and every artifact the handler returns is the serialisation of
    the empty table. *)
Theorem descending_axis_empty_tables (file : UploadedFile)
        (selection : Selection) (log log' : list event) (ds : Xr.Dataset)
        (log1 : list event) (results : list Artifact) :
  open_ file log = (inr ds, log1) ->
  lat_descending ds = inr true ->
  lat_min selection + grid_margin <= lat_max selection ->
  handle file selection log = (inr (Some results), log') ->
  forall art, In art results -> a_content art = to_excel [].
Proof.
  intros Ho Hd Hb. unfold handle. rewrite handler_spec, body_spec.
  unfold open_ in Ho. rewrite Ho, Hd.
  destruct (for_variables _ _ _ _ _ _ _ _) as [e|lv] eqn:Hl; [discriminate|].
  intros [= <- _]. apply for_variables_tables in Hl as (arts & E & Hf).
  cbn [loop_start lv_results app] in E. rewrite E.
  intros art Hart. rewrite Forall_forall in Hf.
  destruct (Hf art Hart) as (var & table & lo & hi & lo' & hi' & Hr & ->).
  apply regrid_inv in Hr as (df0 & df & _ & _ & _ & ->).
  cbn [lat_bounds fst snd].
  pose proof (swapped_bounds_empty_lattice selection lo' hi' Hb) as Eg.
  cbn [lat_bounds fst snd] in Eg.
  now rewrite Eg.
Qed.

End HandlerEdges.

(** ** The log of a batch (lines 184-199) *)

Section BatchLog.

Variable NETCDF4_AVAILABLE : bool.
Variable decode : engine -> list Byte.byte -> result Xr.Dataset.
Variable delaunay : list Scipy.point -> list Scipy.simplex.
Variable to_excel : list GridRow -> list Byte.byte.

Let handle := handle_copernicus_file NETCDF4_AVAILABLE decode delaunay to_excel.
Let loop := processing_loop NETCDF4_AVAILABLE decode delaunay to_excel.
Let run := process_all NETCDF4_AVAILABLE decode delaunay to_excel.
Let own := file_artifacts NETCDF4_AVAILABLE decode delaunay to_excel.
Let loop_cons := processing_loop_cons NETCDF4_AVAILABLE decode delaunay to_excel.
Let handler_spec := handle_spec NETCDF4_AVAILABLE decode delaunay to_excel.
Let body_spec := try_body_spec NETCDF4_AVAILABLE decode delaunay to_excel.
Let open_spec := open_with_fallback_spec NETCDF4_AVAILABLE decode delaunay to_excel.
Let handler_appends := handle_appends NETCDF4_AVAILABLE decode delaunay to_excel.
Let run_spec := process_all_spec NETCDF4_AVAILABLE decode delaunay to_excel.

(** The events of one call of the handler. *)
Lemma handle_events file selection :
  exists e eng,
    snd (handle file selection []) = [StError (name file) e]
    \/ snd (handle file selection [])
       = [DsOpen (name file) eng; StError (name file) e]
    \/ snd (handle file selection [])
       = [DsOpen (name file) eng; DsClose (name file)].
Proof.
  unfold handle. rewrite handler_spec, body_spec, open_spec.
  destruct (primary _ _ file) as [e1|ds].
  - destruct (decode H5netcdf (getvalue file)) as [e2|ds].
    + exists e2, H5netcdf. now left.
    + destruct (lat_descending ds) as [e|d];
        [exists e, H5netcdf; right; now left|].
      destruct (for_variables _ _ _ _ _ _ _ _) as [e|lv];
        [exists e, H5netcdf; right; now left|].
      exists IndexError, H5netcdf. right. now right.
  - destruct (lat_descending ds) as [e|d];
      [exists e, Netcdf4; right; now left|].
    destruct (for_variables _ _ _ _ _ _ _ _) as [e|lv];
      [exists e, Netcdf4; right; now left|].
    exists IndexError, Netcdf4. right. now right.
Qed.

Lemma handle_events_filter file selection (p : event -> bool) :
  (forall n e, p (StError n e) = false) ->
  (forall n eng, p (DsOpen n eng) = false) ->
  (forall n, p (DsClose n) = false) ->
  filter p (snd (handle file selection [])) = [].
Proof.
  intros H1 H2 H3.
  destruct (handle_events file selection) as (e & eng & [-> | [-> | ->]]);
    simpl; now rewrite ?H1, ?H2, ?H3.
Qed.

Lemma loop_progress sels files idx total acc log :
  filter is_progress (snd (loop sels files idx total acc log))
  = filter is_progress log
      ++ map (fun i => StProgress i total) (seq idx (length files)).
Proof.
  revert idx acc log. induction files as [|file files IH]; intros idx acc log.
  - simpl. now rewrite app_nil_r.
  - unfold loop. rewrite loop_cons. fold loop.
    destruct (lookup (name file) sels) as [selection|]; rewrite IH.
    + fold handle. unfold handle. rewrite handler_appends. fold handle.
      cbn [snd]. rewrite !filter_app.
      rewrite (handle_events_filter file selection is_progress) by reflexivity.
      simpl. now rewrite !app_nil_r, <- app_assoc.
    + rewrite filter_app. simpl. now rewrite <- app_assoc.
Qed.

Lemma loop_info sels files idx total acc log :
  filter is_info (snd (loop sels files idx total acc log))
  = filter is_info log ++ map (fun f => StInfo (name f)) files.
Proof.
  revert idx acc log. induction files as [|file files IH]; intros idx acc log.
  - simpl. now rewrite app_nil_r.
  - unfold loop. rewrite loop_cons. fold loop.
    destruct (lookup (name file) sels) as [selection|]; rewrite IH.
    + fold handle. unfold handle. rewrite handler_appends. fold handle.
      cbn [snd]. rewrite !filter_app.
      rewrite (handle_events_filter file selection is_info) by reflexivity.
      simpl. now rewrite !app_nil_r, <- app_assoc.
    + rewrite filter_app. simpl. now rewrite <- app_assoc.
Qed.

(** The log of a batch: every file is announced once, in the order of the
    upload; the progress goes from 1 to the number of files, out of that
    number, one step per file whatever happens to it; the log ends with the
    success message and the snow, and the number in the message is the
    number of artifacts, not of files. *)
Theorem batch_log_shape (sels : list (string * Selection))
        (files : list UploadedFile) :
  filter is_info (snd (run sels files []))
  = map (fun f => StInfo (name f)) files
  /\ filter is_progress (snd (run sels files []))
     = map (fun i => StProgress i (length files)) (seq 1 (length files))
  /\ exists evs,
      snd (run sels files [])
      = evs ++ [StSuccess (length (flat_map (own sels) files)); StSnow]
      /\ fst (run sels files []) = inr (flat_map (own sels) files).
Proof.
  unfold run. rewrite run_spec. cbn [fst snd]. fold loop.
  split; [|split].
  - rewrite filter_app, loop_info. simpl. now rewrite app_nil_r.
  - rewrite filter_app, loop_progress. simpl. now rewrite app_nil_r.
  - eexists. split; [reflexivity|].
    apply (processing_loop_artifacts NETCDF4_AVAILABLE decode delaunay to_excel).
Qed.

Lemma handle_opens_own_name file selection n eng :
  In (DsOpen n eng) (snd (handle file selection [])) -> n = name file.
Proof.
  destruct (handle_events file selection) as (e & eng' & [-> | [-> | ->]]);
    simpl; intros H; intuition congruence.
Qed.

Lemma loop_opens sels files idx total acc log n eng :
  In (DsOpen n eng) (snd (loop sels files idx total acc log)) ->
  In (DsOpen n eng) log
  \/ exists file, In file files /\ name file = n /\ lookup n sels <> None.
Proof.
  revert idx acc log. induction files as [|file files IH]; intros idx acc log.
  - simpl. auto.
  - unfold loop. rewrite loop_cons. fold loop.
    destruct (lookup (name file) sels) as [selection|] eqn:Hs.
    + intros [H | (f & Hf & Hn & Hl)]%IH.
      * fold handle in H. unfold handle in H. rewrite handler_appends in H.
        fold handle in H. cbn [snd] in H.
        apply in_app_iff in H as [[[H | [H | []]]%in_app_iff | H]%in_app_iff
                                  | [H | []]]; try discriminate.
        -- now left.
        -- apply handle_opens_own_name in H. subst n. right.
           exists file. split; [now left|]. split; [reflexivity | congruence].
      * right. exists f. split; [now right | now split].
    + intros [H | (f & Hf & Hn & Hl)]%IH.
      * apply in_app_iff in H as [H | [H | [H | [H | []]]]]; try discriminate.
        now left.
      * right. exists f. split; [now right | now split].
Qed.

(** A file without a selection is not decoded: the batch warns about it
    and never opens a dataset under its name. *)
Theorem no_selection_no_open (sels : list (string * Selection))
        (files : list UploadedFile) (file : UploadedFile) :
  In file files -> lookup (name file) sels = None ->
  In (StWarning (name file)) (snd (run sels files []))
  /\ forall eng, ~ In (DsOpen (name file) eng) (snd (run sels files [])).
Proof.
  intros Hin Hnone. unfold run. rewrite run_spec. cbn [snd]. fold loop. split.
  - apply in_app_iff. left.
    apply in_split in Hin as (fs1 & fs2 & ->).
    generalize 1%nat as idx, (length (fs1 ++ file :: fs2)) as total,
               (@nil Artifact) as acc, (@nil event) as log.
    induction fs1 as [|f fs1 IH]; intros idx total acc log.
    + cbn [app]. unfold loop. rewrite loop_cons, Hnone. fold loop.
      match goal with
      | |- In _ (snd (loop sels fs2 ?i ?t ?a ?l)) =>
          destruct (processing_loop_log NETCDF4_AVAILABLE decode delaunay
                      to_excel sels fs2 i t a l) as (evs & E)
      end.
      fold loop in E. rewrite E. apply in_app_iff. left.
      apply in_app_iff. right. right. now left.
    + cbn [app]. unfold loop. rewrite loop_cons. fold loop.
      destruct (lookup (name f) sels); apply IH.
  - intros eng [H | [H | [H | []]]]%in_app_iff; try discriminate.
    apply loop_opens in H as [[] | (f & _ & Hn & Hl)].
    rewrite Hnone in Hl. congruence.
Qed.

End BatchLog.

(** ** The selection form (lines 55-109) *)

Lemma amin_spec a m :
  amin a = Some m -> In m a /\ forall x, In x a -> m <= x.
Proof.
  revert m. induction a as [|y a IH]; intros m; [discriminate|].
  cbn [amin]. destruct (amin a) as [m'|] eqn:E.
  - destruct (IH m' eq_refl) as [Hin Hmin].
    destruct (Qle_bool y m') eqn:Hle; intros [= <-].
    + apply Qle_bool_iff in Hle. split; [now left|].
      intros x [<- | Hx]; [apply Qle_refl|]. specialize (Hmin x Hx). lra.
    + apply Qle_bool_false in Hle. split; [now right|].
      intros x [<- | Hx]; [lra | now apply Hmin].
  - intros [= <-]. destruct a as [|z a]; [|simpl in E; destruct (amin a); discriminate].
    split; [now left|]. intros x [<- | []]. apply Qle_refl.
Qed.

Lemma amax_spec a m :
  amax a = Some m -> In m a /\ forall x, In x a -> x <= m.
Proof.
  revert m. induction a as [|y a IH]; intros m; [discriminate|].
  cbn [amax]. destruct (amax a) as [m'|] eqn:E.
  - destruct (IH m' eq_refl) as [Hin Hmax].
    destruct (Qle_bool m' y) eqn:Hle; intros [= <-].
    + apply Qle_bool_iff in Hle. split; [now left|].
      intros x [<- | Hx]; [apply Qle_refl|]. specialize (Hmax x Hx). lra.
    + apply Qle_bool_false in Hle. split; [now right|].
      intros x [<- | Hx]; [lra | now apply Hmax].
  - intros [= <-]. destruct a as [|z a]; [|simpl in E; destruct (amax a); discriminate].
    split; [now left|]. intros x [<- | []]. apply Qle_refl.
Qed.

Lemma hd_error_In {A} (l : list A) x : hd_error l = Some x -> In x l.
Proof. destruct l; [discriminate | intros [= ->]; now left]. Qed.

(** On a sorted list every element lies between the first and the last. *)
Lemma sorted_between (R : Q -> Q -> Prop) l first last :
  (forall x y, R x y -> x <= y) ->
  StronglySorted R l ->
  hd_error l = Some first -> hd_error (rev l) = Some last ->
  forall x, In x l -> first <= x /\ x <= last.
Proof.
  intros HR Hs Hf Hl x Hx. split.
  - destruct l as [|y l]; [discriminate|]. injection Hf as ->.
    destruct Hx as [<- | Hx]; [apply Qle_refl|].
    inversion Hs as [|? ? _ Hy]; subst. rewrite Forall_forall in Hy.
    now apply HR, Hy.
  - apply (StronglySorted_rev R) in Hs. apply in_rev in Hx.
    destruct (rev l) as [|y r]; [discriminate|]. injection Hl as ->.
    destruct Hx as [<- | Hx]; [apply Qle_refl|].
    inversion Hs as [|? ? _ Hy]; subst. rewrite Forall_forall in Hy.
    now apply HR, Hy.
Qed.

Lemma sorted_between_desc l first last :
  descending l ->
  hd_error l = Some first -> hd_error (rev l) = Some last ->
  forall x, In x l -> last <= x /\ x <= first.
Proof.
  intros Hs Hf Hl x Hx.
  pose proof (StronglySorted_rev _ _ Hs) as Hr. cbn beta in Hr.
  destruct (sorted_between Qlt (rev l) last first) with (x := x)
    as [H1 H2]; try assumption.
  - intros a b. apply Qlt_le_weak.
  - now rewrite rev_involutive.
  - now apply in_rev in Hx.
  - now split.
Qed.

(** The bounds of lines 85-89 against the axes. *)
Lemma native_extent_bounds (ds : Xr.Dataset) (a b c d : Q) :
  native_extent ds = inr (a, b, c, d) ->
  a <= b /\ c <= d
  /\ In a (Xr.lat ds) /\ In b (Xr.lat ds)
  /\ In c (Xr.lon ds) /\ In d (Xr.lon ds)
  /\ (forall x, In x (Xr.lon ds) -> c <= x /\ x <= d)
  /\ (ascending (Xr.lat ds) \/ descending (Xr.lat ds) ->
      forall x, In x (Xr.lat ds) -> a <= x /\ x <= b).
Proof.
  unfold native_extent.
  destruct (hd_error (Xr.lat ds)) as [first|] eqn:Hf; [|discriminate].
  destruct (hd_error (rev (Xr.lat ds))) as [last|] eqn:Hl; [|discriminate].
  destruct (amin (Xr.lon ds)) as [lo|] eqn:Hmin;
    [|destruct (Qlt_bool first last); discriminate].
  destruct (amax (Xr.lon ds)) as [hi|] eqn:Hmax;
    [|destruct (Qlt_bool first last); discriminate].
  apply amin_spec in Hmin as [Hlo1 Hlo2]. apply amax_spec in Hmax as [Hhi1 Hhi2].
  pose proof (hd_error_In _ _ Hf) as Hfin.
  assert (Hlin : In last (Xr.lat ds)) by (apply in_rev; now apply hd_error_In).
  destruct (Qlt_bool first last) eqn:Hasc; intros [= <- <- <- <-].
  - apply Qlt_bool_iff in Hasc.
    split; [now apply Qlt_le_weak|]. split; [now apply Hlo2|].
    repeat (split; [assumption|]). split; [intros x Hx; split; auto|].
    intros [Ha | Hd] x Hx.
    + apply (sorted_between Qlt (Xr.lat ds)); try assumption.
      intros u v. apply Qlt_le_weak.
    + destruct (sorted_between_desc _ _ _ Hd Hf Hl first Hfin). lra.
  - apply Qlt_bool_false in Hasc.
    split; [assumption|]. split; [now apply Hlo2|].
    repeat (split; [assumption|]). split; [intros x Hx; split; auto|].
    intros [Ha | Hd] x Hx.
    + destruct (sorted_between Qlt (Xr.lat ds) first last) with (x := x);
        try assumption; [intros u v; apply Qlt_le_weak|]. split; lra.
    + now apply (sorted_between_desc _ _ _ Hd Hf Hl).
Qed.

(** The extent the form offers: the bounds are in order on each axis and
    are values of the axis; every longitude lies between the longitude
    bounds, and on a monotonic latitude axis, whatever its direction, every
    latitude lies between the latitude bounds. *)
Theorem native_extent_spec (ds : Xr.Dataset) (a b c d : Q) :
  native_extent ds = inr (a, b, c, d) ->
  a <= b /\ c <= d
  /\ In a (Xr.lat ds) /\ In b (Xr.lat ds)
  /\ In c (Xr.lon ds) /\ In d (Xr.lon ds)
  /\ (forall x, In x (Xr.lon ds) -> c <= x /\ x <= d)
  /\ (ascending (Xr.lat ds) \/ descending (Xr.lat ds) ->
      forall x, In x (Xr.lat ds) -> a <= x /\ x <= b).
Proof. apply native_extent_bounds. Qed.

Lemma native_extent_spec_witness :
  (0 <= 10 /\ 0 <= 1)
  /\ forall x, In x (Xr.lat scenario_ds) -> 0 <= x /\ x <= 10.
Proof.
  destruct (native_extent_spec scenario_ds 0 10 0 1 eq_refl)
    as (H1 & H2 & _ & _ & _ & _ & _ & H3).
  split; [now split|]. apply H3. right.
  unfold descending, scenario_ds, axis_10_0. simpl.
  repeat (constructor; [|repeat (constructor; [reflexivity|]); constructor]).
  constructor.
Defined.

Lemma lookup_dict_set_same {A} (d : list (string * A)) key v :
  lookup key (dict_set d key v) = Some v.
Proof.
  induction d as [|[k w] d IH]; simpl.
  - now rewrite String.eqb_refl.
  - destruct (String.eqb k key) eqn:E; simpl; rewrite E; [reflexivity | exact IH].
Qed.

Lemma lookup_dict_set_other {A} (d : list (string * A)) key key' v :
  key' <> key -> lookup key' (dict_set d key v) = lookup key' d.
Proof.
  intros Hne. induction d as [|[k w] d IH]; simpl.
  - destruct (String.eqb key key') eqn:E; [|reflexivity].
    apply String.eqb_eq in E. congruence.
  - destruct (String.eqb k key) eqn:E; simpl.
    + apply String.eqb_eq in E. subst k.
      destruct (String.eqb key key') eqn:E'; [|reflexivity].
      apply String.eqb_eq in E'. congruence.
    + destruct (String.eqb k key'); [reflexivity | exact IH].
Qed.

Lemma dict_set_keys {A} (d : list (string * A)) key v :
  NoDup (map fst d) -> NoDup (map fst (dict_set d key v))
  /\ forall k, In k (map fst (dict_set d key v)) <-> k = key \/ In k (map fst d).
Proof.
  induction d as [|[k w] d IH]; intros Hnd; simpl.
  - split; [repeat constructor; intros []|]. intros k'. intuition.
  - inversion Hnd as [|? ? Hk Hnd']; subst. destruct (IH Hnd') as [IH1 IH2].
    destruct (String.eqb k key) eqn:E; simpl.
    + apply String.eqb_eq in E. subst k. split; [exact Hnd|].
      intros k'. intuition.
    + apply String.eqb_neq in E. split.
      * constructor; [|exact IH1]. rewrite IH2. intros [-> | H]; [congruence | auto].
      * intros k'. rewrite IH2. intuition.
Qed.

Section FormFacts.

Variable NETCDF4_AVAILABLE : bool.
Variable probe : list Byte.byte -> result unit.
Variable decode : engine -> list Byte.byte -> result Xr.Dataset.
Variable dims : Xr.Dataset -> string -> list string.
Variable multiselect : string -> list string -> list string.
Variable number_input : string -> Q -> Q -> Q -> Q.

Let open_form := open_for_form NETCDF4_AVAILABLE probe decode.
Let spatial := spatial_vars dims.
Let ask := ask_extent number_input.
Let select := select_file NETCDF4_AVAILABLE probe decode dims multiselect number_input.
Let form_loop :=
  selection_loop NETCDF4_AVAILABLE probe decode dims multiselect number_input.
Let form :=
  selection_form NETCDF4_AVAILABLE probe decode dims multiselect number_input.

Let contract := widgets_keep_their_bounds multiselect number_input.

Lemma st_number_input_ok key lo hi v :
  lo <= v -> v <= hi ->
  st_number_input number_input key lo hi v = inr (number_input key lo hi v).
Proof.
  intros H1 H2. unfold st_number_input.
  rewrite (proj2 (Qlt_bool_false v lo) H1), (proj2 (Qlt_bool_false hi v) H2).
  reflexivity.
Qed.

Lemma ask_extent_inv ds fname vars selection :
  ask ds fname vars = inr selection ->
  exists a b c d,
    native_extent ds = inr (a, b, c, d)
    /\ selection
       = {| variables := vars;
            lat_min := number_input ("latmin_" ++ fname) a b a;
            lat_max := number_input ("latmax_" ++ fname) a b b;
            lon_min := number_input ("lonmin_" ++ fname) c d c;
            lon_max := number_input ("lonmax_" ++ fname) c d d |}.
Proof.
  unfold ask, ask_extent.
  destruct (native_extent ds) as [e|[[[a b] c] d]]; [discriminate|].
  unfold st_number_input.
  repeat (destruct (_ || _); [discriminate|]).
  intros [= <-]. exists a, b, c, d. split; reflexivity.
Qed.

(** The number inputs never refuse their arguments: the inputs fail only
    when the extent itself cannot be computed. *)
Theorem number_inputs_accept_extent (ds : Xr.Dataset) (fname : string)
        (vars : list string) :
  (exists selection, ask ds fname vars = inr selection)
  <-> exists a b c d, native_extent ds = inr (a, b, c, d).
Proof.
  split.
  - intros (selection & (a & b & c & d & H & _)%ask_extent_inv). eauto.
  - intros (a & b & c & d & H). unfold ask, ask_extent. rewrite H.
    destruct (native_extent_bounds ds a b c d H) as (Hab & Hcd & _).
    rewrite !st_number_input_ok by (assumption || apply Qle_refl). eauto.
Qed.

Lemma open_for_form_events file ds evs :
  open_form file = (inr ds, evs) ->
  (exists eng, In (FormOpen (name file) eng) evs
               /\ decode eng (getvalue file) = inr ds)
  /\ ~ In (FormClose (name file)) evs.
Proof.
  unfold open_form, open_for_form.
  destruct NETCDF4_AVAILABLE.
  - destruct (probe (getvalue file)) as [e|[]].
    + destruct (decode H5netcdf (getvalue file)) as [e2|ds2] eqn:E;
        [discriminate|].
      intros [= <- <-]. split.
      * exists H5netcdf. split; [now left | assumption].
      * intros [H | []]. discriminate.
    + destruct (decode Netcdf4 (getvalue file)) as [e1|ds1] eqn:E1.
      * destruct (decode H5netcdf (getvalue file)) as [e2|ds2] eqn:E;
          [discriminate|].
        intros [= <- <-]. split.
        -- exists H5netcdf. split; [right; now left | assumption].
        -- intros [H | [H | []]]; discriminate.
      * intros [= <- <-]. split.
        -- exists Netcdf4. split; [right; now left | assumption].
        -- intros [H | [H | []]]; discriminate.
  - destruct (decode H5netcdf (getvalue file)) as [e2|ds2] eqn:E;
      [discriminate|].
    intros [= <- <-]. split.
    + exists H5netcdf. split; [now left | assumption].
    + intros [H | []]. discriminate.
Qed.

Lemma open_for_form_failure_events file e evs :
  open_form file = (inl e, evs) -> ~ In (FormClose (name file)) evs.
Proof.
  unfold open_form, open_for_form.
  destruct NETCDF4_AVAILABLE.
  - destruct (probe (getvalue file)) as [e0|[]].
    + destruct (decode H5netcdf (getvalue file)); [|discriminate].
      intros [= <- <-] [].
    + destruct (decode Netcdf4 (getvalue file)) as [e1|ds1]; [|discriminate].
      destruct (decode H5netcdf (getvalue file)); [|discriminate].
      intros [= <- <-] [H | []]. discriminate.
  - destruct (decode H5netcdf (getvalue file)); [|discriminate].
    intros [= <- <-] [].
Qed.

Lemma select_file_recorded seen file selection evs created :
  select seen file = (Recorded selection, evs, created) ->
  exists ds evs0,
    open_form file = (inr ds, evs0)
    /\ variables selection = multiselect ("vars_" ++ name file) (spatial ds)
    /\ variables selection <> []
    /\ existsb (String.eqb (name file)) seen = false
    /\ ask ds (name file) (variables selection) = inr selection
    /\ evs = evs0 ++ [FormClose (name file)] /\ created = true.
Proof.
  unfold select, select_file. fold open_form.
  destruct (open_form file) as [[e|ds] evs0]; [discriminate|].
  fold spatial. destruct (spatial ds) as [|v0 vs0] eqn:Hsp; [discriminate|].
  unfold st_multiselect.
  destruct (existsb (String.eqb (name file)) seen) eqn:Hseen; [discriminate|].
  destruct (multiselect ("vars_" ++ name file) (v0 :: vs0)) as [|v vs] eqn:Hm;
    [discriminate|].
  fold ask. destruct (ask ds (name file) (v :: vs)) as [e|s] eqn:Ha;
    [discriminate|].
  intros [= <- <- <-]. exists ds, evs0.
  apply ask_extent_inv in Ha as Hinv. destruct Hinv as (a & b & c & d & _ & Es).
  assert (Ev : variables s = v :: vs) by (rewrite Es; reflexivity).
  rewrite Ev. repeat split; try reflexivity; try assumption; congruence.
Qed.

Lemma lookup_of_key {A} (d : list (string * A)) k :
  In k (map fst d) -> lookup k d <> None.
Proof.
  induction d as [|[k' v] d IH]; simpl; [intros []|].
  intros [-> | H].
  - now rewrite String.eqb_refl.
  - destruct (String.eqb k' k); [discriminate | now apply IH].
Qed.

(** What the form records.  With widgets that keep their bounds, a recorded
    selection names at least one variable, every variable it names is a
    variable of the dataset with the dimensions lat and lon, and its four
    bounds lie inside the extent of the axes. *)
Theorem recorded_selection_sound (seen : list string) (file : UploadedFile)
        (selection : Selection) (evs : list form_event) (created : bool) :
  contract ->
  select seen file = (Recorded selection, evs, created) ->
  exists ds a b c d,
    fst (open_form file) = inr ds
    /\ native_extent ds = inr (a, b, c, d)
    /\ variables selection <> []
    /\ (forall v, In v (variables selection) ->
                  lookup v (Xr.data_vars ds) <> None
                  /\ has_lat_lon (dims ds v) = true)
    /\ (a <= lat_min selection /\ lat_min selection <= b)
    /\ (a <= lat_max selection /\ lat_max selection <= b)
    /\ (c <= lon_min selection /\ lon_min selection <= d)
    /\ (c <= lon_max selection /\ lon_max selection <= d).
Proof.
  intros [Hms Hni] (ds & evs0 & Ho & Hv & Hne & _ & Ha & _)%select_file_recorded.
  apply ask_extent_inv in Ha as (a & b & c & d & He & Es).
  exists ds, a, b, c, d. rewrite Ho. split; [reflexivity|].
  split; [assumption|]. split; [assumption|]. split.
  - intros v Hin. rewrite Hv in Hin. apply Hms in Hin.
    unfold spatial, spatial_vars in Hin. apply filter_In in Hin as [H1 H2].
    split; [now apply lookup_of_key | assumption].
  - destruct (native_extent_bounds ds a b c d He) as (Hab & Hcd & _).
    rewrite Es. cbn [lat_min lat_max lon_min lon_max].
    repeat split; apply Hni; assumption || apply Qle_refl.
Qed.

(** The form closes the dataset on one path only.  The events of a turn
    hold the closing exactly when a selection is recorded; a dataset that
    was opened for a file without spatial variables, without selected
    variables, or whose inputs raise, stays open. *)
Theorem form_closes_only_when_recorded (seen : list string)
        (file : UploadedFile) (outcome : form_outcome)
        (evs : list form_event) (created : bool) :
  select seen file = (outcome, evs, created) ->
  (In (FormClose (name file)) evs <-> exists selection, outcome = Recorded selection)
  /\ (forall ds evs0, open_form file = (inr ds, evs0) ->
                      exists eng, In (FormOpen (name file) eng) evs).
Proof.
  unfold select, select_file. fold open_form.
  destruct (open_form file) as [[e|ds] evs0] eqn:Ho.
  - intros [= <- <- <-]. split; [|intros ? ? [=]].
    apply open_for_form_failure_events in Ho. split.
    + intros [H | [H | []]]%in_app_iff; [tauto | discriminate].
    + intros (s & [=]).
  - destruct (open_for_form_events file ds evs0 Ho) as ((eng & Heng & _) & Hnc).
    assert (Hop : forall tail, exists eng', In (FormOpen (name file) eng') (evs0 ++ tail)).
    { intros tail. exists eng. apply in_app_iff. now left. }
    assert (Hno : forall ev, ev <> FormClose (name file) ->
                    ~ In (FormClose (name file)) (evs0 ++ [ev])).
    { intros ev Hev [H | [H | []]]%in_app_iff; [tauto | congruence]. }
    fold spatial. destruct (spatial ds) as [|v0 vs0].
    { intros [= <- <- <-]. split; [|intros; apply Hop].
      split; [intros H; now apply Hno in H | intros (s & [=])]. }
    destruct (st_multiselect _ _ _ _) as [e|[|v vs]].
    { intros [= <- <- <-]. split; [|intros; apply Hop].
      split; [intros H; now apply Hno in H | intros (s & [=])]. }
    { intros [= <- <- <-]. split; [|intros; apply Hop].
      split; [intros H; now apply Hno in H | intros (s & [=])]. }
    fold ask. destruct (ask ds (name file) (v :: vs)) as [e|s].
    { intros [= <- <- <-]. split; [|intros; apply Hop].
      split; [intros H; now apply Hno in H | intros (s & [=])]. }
    intros [= <- <- <-]. split; [|intros; apply Hop].
    split; [eauto|]. intros _. apply in_app_iff. right. now left.
Qed.

(** A file the form can read, the handler can open; it opens the dataset
    the form saw, unless the probe of netCDF4 failed in the form. *)
Theorem form_readable_handler_opens (file : UploadedFile) (ds : Xr.Dataset)
        (log : list event) :
  fst (open_form file) = inr ds ->
  exists ds' eng,
    open_with_fallback NETCDF4_AVAILABLE decode file log
    = (inr ds', log ++ [DsOpen (name file) eng])
    /\ (ds' = ds \/ exists e, probe (getvalue file) = inl e).
Proof.
  rewrite (open_with_fallback_spec NETCDF4_AVAILABLE decode
             (fun _ => []) (fun _ => [])).
  unfold open_form, open_for_form, primary.
  generalize NETCDF4_AVAILABLE. intros [|].
  - destruct (probe (getvalue file)) as [e|[]] eqn:Hp.
    + destruct (decode H5netcdf (getvalue file)) as [e2|ds2]; [discriminate|].
      cbn [fst]. intros [= <-].
      destruct (decode Netcdf4 (getvalue file)) as [e1|ds1]; eauto 6.
    + destruct (decode Netcdf4 (getvalue file)) as [e1|ds1].
      * destruct (decode H5netcdf (getvalue file)) as [e2|ds2]; [discriminate|].
        cbn [fst]. intros [= <-]. eauto.
      * cbn [fst]. intros [= <-]. eauto.
  - destruct (decode H5netcdf (getvalue file)) as [e2|ds2]; [discriminate|].
    cbn [fst]. intros [= <-]. eauto.
Qed.

Lemma existsb_fresh n seen :
  ~ In n seen -> existsb (String.eqb n) seen = false.
Proof.
  intros H. apply not_true_iff_false. intros (k & Hk & E)%existsb_exists.
  apply String.eqb_eq in E. congruence.
Qed.

Lemma select_file_fresh seen file :
  ~ In (name file) seen -> select seen file = select [] file.
Proof.
  intros H. unfold select, select_file, st_multiselect.
  now rewrite (existsb_fresh _ _ H).
Qed.

Lemma selection_loop_cons file files seen sels :
  form_loop (file :: files) seen sels
  = (fst (form_loop files
            (if snd (select seen file) then name file :: seen else seen)
            (match fst (fst (select seen file)) with
             | Recorded selection => dict_set sels (name file) selection
             | _ => sels
             end)),
     snd (fst (select seen file))
       ++ snd (form_loop files
                 (if snd (select seen file) then name file :: seen else seen)
                 (match fst (fst (select seen file)) with
                  | Recorded selection => dict_set sels (name file) selection
                  | _ => sels
                  end))).
Proof.
  unfold form_loop. cbn [selection_loop]. fold select.
  destruct (select seen file) as [[outcome evs] created]. cbn [fst snd].
  destruct (selection_loop _ _ _ _ _ _ files _ _). reflexivity.
Qed.

Lemma selection_loop_other files seen sels n :
  ~ In n (map name files) ->
  lookup n (fst (form_loop files seen sels)) = lookup n sels.
Proof.
  revert seen sels. induction files as [|file files IH]; intros seen sels Hn;
    [reflexivity|].
  rewrite selection_loop_cons. cbn [fst]. rewrite IH.
  - destruct (fst (fst (select seen file))); try reflexivity.
    apply lookup_dict_set_other. intros ->. apply Hn. now left.
  - intros H. apply Hn. now right.
Qed.

Lemma selection_loop_entry files seen sels file :
  NoDup (map name files) ->
  (forall g, In g files -> ~ In (name g) seen) ->
  In file files ->
  lookup (name file) (fst (form_loop files seen sels))
  = match fst (fst (select [] file)) with
    | Recorded selection => Some selection
    | _ => lookup (name file) sels
    end.
Proof.
  revert seen sels. induction files as [|g files IH]; intros seen sels Hnd Hseen;
    [intros []|].
  inversion Hnd as [|? ? Hg Hnd']; subst.
  rewrite selection_loop_cons. cbn [fst].
  rewrite (select_file_fresh seen g) by (apply Hseen; now left).
  intros [-> | Hin].
  - rewrite (selection_loop_other files _ _ (name file) Hg).
    destruct (fst (fst (select [] file))); try reflexivity.
    apply lookup_dict_set_same.
  - assert (Hne : name file <> name g).
    { intros E. apply Hg. rewrite <- E. now apply in_map. }
    rewrite IH; try assumption.
    + destruct (fst (fst (select [] file))); try reflexivity;
        destruct (fst (fst (select [] g))); try reflexivity;
        now apply lookup_dict_set_other.
    + intros h Hh. destruct (snd (select [] g)).
      * intros [E | H].
        -- apply Hg. rewrite E. now apply in_map.
        -- apply (Hseen h); [now right | assumption].
      * apply Hseen. now right.
Qed.

(** The dict of the selections, for files of different names: the entry
    under the name of a file is the selection its turn records, and there
    is none when the turn ends any other way. *)
Theorem form_dict_entries (uploaded_files : list UploadedFile)
        (file : UploadedFile) :
  NoDup (map name uploaded_files) -> In file uploaded_files ->
  lookup (name file) (fst (form uploaded_files))
  = match fst (fst (select [] file)) with
    | Recorded selection => Some selection
    | _ => None
    end.
Proof.
  intros Hnd Hin. unfold form, selection_form. fold form_loop.
  rewrite (selection_loop_entry uploaded_files [] [] file Hnd); [|auto|exact Hin].
  now destruct (fst (fst (select [] file))).
Qed.

End FormFacts.

Lemma filter_all {A} (f : A -> bool) l :
  (forall x, In x l -> f x = true) -> filter f l = l.
Proof.
  induction l as [|x l IH]; intros H; simpl; [reflexivity|].
  rewrite (H x) by now left. f_equal. apply IH. intros y Hy. apply H. now right.
Qed.

(** With the extent the form reads off a dataset as the bounds, the clip of
    that dataset keeps every cell of the field that has a value, whatever
    the direction of the latitude axis. *)
Theorem full_extent_keeps_the_field (ds : Xr.Dataset) (selection : Selection)
        (d : bool) (var : string) (m : list (list (option Q))) :
  native_extent ds
  = inr (lat_min selection, lat_max selection,
         lon_min selection, lon_max selection) ->
  lat_descending ds = inr d ->
  ascending (Xr.lat ds) \/ descending (Xr.lat ds) ->
  ascending (Xr.lon ds) ->
  lookup var (Xr.data_vars ds) = Some m ->
  well_shaped ds m ->
  clip ds var (fst (lat_bounds d selection)) (snd (lat_bounds d selection))
       (lon_min selection) (lon_max selection)
  = inr (Pd.dropna (Pd.to_dataframe {| Xr.da_lat := Xr.lat ds;
                                       Xr.da_lon := Xr.lon ds;
                                       Xr.da_values := m |})).
Proof.
  intros He Hd Hmono Hlon Hlook Hshape.
  rewrite (clip_box ds selection d var m Hd Hmono Hlon Hlook Hshape).
  do 2 f_equal. apply filter_all. intros [[la lo] v] Hcell.
  apply to_dataframe_labels in Hcell as [Hla Hlo]. cbn [Xr.da_lat Xr.da_lon] in *.
  destruct (native_extent_bounds ds _ _ _ _ He)
    as (_ & _ & _ & _ & _ & _ & Hlons & Hlats).
  destruct (Hlats Hmono la Hla) as [A B]. destruct (Hlons lo Hlo) as [C D].
  cbn [in_region]. unfold in_box.
  now rewrite !(proj2 (Qle_bool_iff _ _)) by assumption.
Qed.

(** ** The form and the loop together *)




(** ** Runs of the further properties on concrete inputs *)

Lemma handle_success_shape_witness :
  handle_copernicus_file true decode_square delaunay_square excel_rows
    file_a (select ["sst"%string]) []
  = (inr (Some [artifact_a_sst]), [DsOpen "a.nc" Netcdf4; DsClose "a.nc"])
  /\ map a_name [artifact_a_sst]
     = map (out_name (name file_a)) (variables (select ["sst"%string]))
  /\ length [artifact_a_sst] = length (variables (select ["sst"%string]))
  /\ exists eng,
      [DsOpen "a.nc" Netcdf4; DsClose "a.nc"]
      = [] ++ [DsOpen (name file_a) eng; DsClose (name file_a)].
Proof.
  assert (H : handle_copernicus_file true decode_square delaunay_square
                excel_rows file_a (select ["sst"%string]) []
              = (inr (Some [artifact_a_sst]),
                 [DsOpen "a.nc" Netcdf4; DsClose "a.nc"]))
    by (vm_compute; reflexivity).
  split; [exact H|].
  exact (handle_success_shape true decode_square delaunay_square excel_rows
           file_a (select ["sst"%string]) [] _ _ H).
Defined.

Lemma handle_early_failures_witness :
  handle_copernicus_file true decode_square delaunay_square excel_rows
    file_a unknown_selection []
  = (inr None,
     [DsOpen "a.nc" Netcdf4] ++ [StError (name file_a) (KeyError "chl")]).
Proof.
  refine (proj2 (proj2 (handle_early_failures true decode_square
                          delaunay_square excel_rows file_a unknown_selection
                          [] [DsOpen "a.nc" Netcdf4] square eq_refl))
                "chl"%string [] _ eq_refl eq_refl).
  discriminate.
Defined.


Lemma fallback_is_nearest_witness :
  Forall2 (fun q v =>
             Scipy.linear_at (delaunay_triangle (points_of triangle_df))
                             (points_of triangle_df) (values_of triangle_df) q
             = None ->
             exists p, In p triangle_df /\ v = Some (sp_value p)
                       /\ forall p', In p' triangle_df ->
                            Scipy.dist2 (sp_lat p, sp_lon p) q
                            <= Scipy.dist2 (sp_lat p', sp_lon p') q)
          [(0, 0); (5, 5)] [Some 1; Some 2].
Proof.
  apply (fallback_is_nearest delaunay_triangle triangle_df
           [(0, 0); (5, 5)] [Some 1; Some 2]).
  vm_compute. reflexivity.
Defined.

Lemma table_rows_strictly_ordered_witness :
  exists table lo hi,
    regrid delaunay_square square "sst" 0 (1 # 8) 0 (1 # 8)
    = inr (table, lo, hi)
    /\ NoDupA same_coordinates table /\ StronglySorted row_before table.
Proof.
  destruct (regrid delaunay_square square "sst" 0 (1 # 8) 0 (1 # 8))
    as [e | [[table lo] hi]] eqn:E.
  - vm_compute in E. discriminate E.
  - exists table, lo, hi. split; [reflexivity|].
    exact (table_rows_strictly_ordered delaunay_square square "sst"
             0 (1 # 8) 0 (1 # 8) table lo hi E).
Defined.

Lemma clip_is_the_box_witness :
  clip square_descending "sst"
       (fst (lat_bounds true (select ["sst"%string])))
       (snd (lat_bounds true (select ["sst"%string])))
       (lon_min (select ["sst"%string])) (lon_max (select ["sst"%string]))
  = inr (Pd.dropna
           (filter (in_region (select ["sst"%string]))
                   (Pd.to_dataframe
                      {| Xr.da_lat := Xr.lat square_descending;
                         Xr.da_lon := Xr.lon square_descending;
                         Xr.da_values := [[Some 3; Some 4]; [Some 1; Some 2]] |}))).
Proof.
  apply (clip_is_the_box square_descending (select ["sst"%string]) true "sst"
           [[Some 3; Some 4]; [Some 1; Some 2]]).
  - reflexivity.
  - right. repeat constructor.
  - repeat constructor.
  - reflexivity.
  - split; [reflexivity | repeat constructor].
Defined.

Lemma inverted_bounds_fail_witness :
  clip square "sst" (lat_min inverted_selection) (lat_max inverted_selection)
       (lon_min inverted_selection) (lon_max inverted_selection) = inr []
  /\ handle_copernicus_file true decode_square delaunay_square excel_rows
       file_a inverted_selection []
     = (inr None,
        [DsOpen "a.nc" Netcdf4]
          ++ [StError (name file_a) (ValueError "No points given")]).
Proof.
  apply (inverted_bounds_fail true decode_square delaunay_square excel_rows
           file_a inverted_selection [] [DsOpen "a.nc" Netcdf4] square
           "sst" [] [[Some 1; Some 2]; [Some 3; Some 4]]).
  - reflexivity.
  - repeat constructor.
  - discriminate.
  - repeat constructor.
  - reflexivity.
  - reflexivity.
  - split; [reflexivity | repeat constructor].
  - left. reflexivity.
Defined.

Lemma descending_axis_empty_tables_witness :
  handle_copernicus_file true decode_descending delaunay_square excel_rows
    file_d (select ["sst"%string]) []
  = (inr (Some [{| a_name := "d_sst_qgis.xlsx"; a_content := [] |}]),
     [DsOpen "d.nc" Netcdf4; DsClose "d.nc"])
  /\ forall art,
      In art [{| a_name := "d_sst_qgis.xlsx"; a_content := [] |}] ->
      a_content art = excel_rows [].
Proof.
  assert (H : handle_copernicus_file true decode_descending delaunay_square
                excel_rows file_d (select ["sst"%string]) []
              = (inr (Some [{| a_name := "d_sst_qgis.xlsx";
                               a_content := [] |}]),
                 [DsOpen "d.nc" Netcdf4; DsClose "d.nc"]))
    by (vm_compute; reflexivity).
  split; [exact H|].
  apply (descending_axis_empty_tables true decode_descending delaunay_square
           excel_rows file_d (select ["sst"%string]) []
           [DsOpen "d.nc" Netcdf4; DsClose "d.nc"] square_descending
           [DsOpen "d.nc" Netcdf4]).
  - reflexivity.
  - reflexivity.
  - vm_compute. discriminate.
  - exact H.
Defined.

Lemma no_selection_no_open_witness :
  In (StWarning (name file_a))
     (snd (process_all true decode_square delaunay_square excel_rows
             [("b.nc"%string, select ["sst"%string])] [file_a; file_b] []))
  /\ forall eng,
      ~ In (DsOpen (name file_a) eng)
           (snd (process_all true decode_square delaunay_square excel_rows
                   [("b.nc"%string, select ["sst"%string])]
                   [file_a; file_b] [])).
Proof.
  apply (no_selection_no_open true decode_square delaunay_square excel_rows
           [("b.nc"%string, select ["sst"%string])] [file_a; file_b] file_a).
  - left. reflexivity.
  - reflexivity.
Defined.

Lemma number_inputs_accept_extent_witness :
  exists selection,
    ask_extent number_input_default square "a.nc" ["sst"%string] = inr selection.
Proof.
  apply (proj2 (number_inputs_accept_extent number_input_default square
                  "a.nc" ["sst"%string])).
  exists 0, (1 # 8), 0, (1 # 8). reflexivity.
Defined.

Lemma recorded_selection_sound_witness :
  exists ds a b c d,
    fst (open_for_form true probe_ok decode_square file_a) = inr ds
    /\ native_extent ds = inr (a, b, c, d)
    /\ variables selection_a <> []
    /\ (forall v, In v (variables selection_a) ->
                  lookup v (Xr.data_vars ds) <> None
                  /\ has_lat_lon (dims_time_lat_lon ds v) = true)
    /\ (a <= lat_min selection_a /\ lat_min selection_a <= b)
    /\ (a <= lat_max selection_a /\ lat_max selection_a <= b)
    /\ (c <= lon_min selection_a /\ lon_min selection_a <= d)
    /\ (c <= lon_max selection_a /\ lon_max selection_a <= d).
Proof.
  apply (recorded_selection_sound true probe_ok decode_square
           dims_time_lat_lon multiselect_all number_input_default
           [] file_a selection_a
           [FormProbe "a.nc"; FormOpen "a.nc" Netcdf4; FormClose "a.nc"] true).
  - split.
    + intros key options v H. exact H.
    + intros key lo hi v H1 H2. split; assumption.
  - reflexivity.
Defined.

Lemma form_closes_only_when_recorded_witness :
  ((In (FormClose (name file_a))
       [FormProbe "a.nc"; FormOpen "a.nc" Netcdf4; FormClose "a.nc"]
    <-> exists selection, Recorded selection_a = Recorded selection)
   /\ (forall ds evs0,
         open_for_form true probe_ok decode_square file_a = (inr ds, evs0) ->
         exists eng,
           In (FormOpen (name file_a) eng)
              [FormProbe "a.nc"; FormOpen "a.nc" Netcdf4; FormClose "a.nc"]))
  /\ ((In (FormClose (name file_a))
          [FormProbe "a.nc"; FormOpen "a.nc" Netcdf4;
           FormWarningNoVariables "a.nc"]
       <-> exists selection, NoVariablesSelected = Recorded selection)
      /\ (forall ds evs0,
            open_for_form true probe_ok decode_square file_a = (inr ds, evs0) ->
            exists eng,
              In (FormOpen (name file_a) eng)
                 [FormProbe "a.nc"; FormOpen "a.nc" Netcdf4;
                  FormWarningNoVariables "a.nc"])).
Proof.
  split.
  - apply (form_closes_only_when_recorded true probe_ok decode_square
             dims_time_lat_lon multiselect_all number_input_default
             [] file_a _ _ true).
    reflexivity.
  - apply (form_closes_only_when_recorded true probe_ok decode_square
             dims_time_lat_lon multiselect_none number_input_default
             [] file_a _ _ true).
    reflexivity.
Defined.

Lemma form_readable_handler_opens_witness :
  exists ds' eng,
    open_with_fallback true decode_square file_a []
    = (inr ds', [] ++ [DsOpen (name file_a) eng])
    /\ (ds' = square \/ exists e, probe_refuses (getvalue file_a) = inl e).
Proof.
  apply (form_readable_handler_opens true probe_refuses decode_square
           file_a square []).
  reflexivity.
Defined.

Lemma form_dict_entries_witness :
  lookup (name file_a)
         (fst (selection_form true probe_ok decode_square dims_time_lat_lon
                 multiselect_all number_input_default [file_a; file_bad]))
  = Some selection_a.
Proof.
  apply (form_dict_entries true probe_ok decode_square dims_time_lat_lon
           multiselect_all number_input_default [file_a; file_bad] file_a).
  - repeat constructor; simpl; intuition discriminate.
  - left. reflexivity.
Defined.

Lemma full_extent_keeps_the_field_witness :
  clip square "sst"
       (fst (lat_bounds false selection_a)) (snd (lat_bounds false selection_a))
       (lon_min selection_a) (lon_max selection_a)
  = inr (Pd.dropna
           (Pd.to_dataframe {| Xr.da_lat := Xr.lat square;
                               Xr.da_lon := Xr.lon square;
                               Xr.da_values := [[Some 1; Some 2];
                                                [Some 3; Some 4]] |})).
Proof.
  apply (full_extent_keeps_the_field square selection_a false "sst"
           [[Some 1; Some 2]; [Some 3; Some 4]]).
  - reflexivity.
  - reflexivity.
  - left. repeat constructor.
  - repeat constructor.
  - reflexivity.
  - split; [reflexivity | repeat constructor].
Defined.
